(** * Coordination broker of the multi-agent workspace: a shallow embedding

    The development follows the TypeScript sources:
    - [Consensus]: [calculateConsensus] of the example runners;
    - [Kafka]: the durable-store orchestrator ([KafkaWorkspaceOrchestrator]);
    - [Redis]: the fast-store orchestrator ([RedisWorkspaceOrchestrator]);
    - [Bridge]: [WorkspaceInfrastructureBridge] (health rollup, reconnect
      supervisor, in-process fallback locks);
    - [Workspace]: the bridge's operations, which route a call to the two
      orchestrators and the fallback manager;
    - [Config]: [WorkspaceConfigBuilder] and [WorkspaceConfigValidator].

    Modelling conventions.
    - JS strings are [string]s over [ascii]; template literals are [++].
    - JS numbers that hold counters, lengths and time stamps are integers
      ([nat], [N] or [Z]); JS represents such integers exactly up to 2^53.
      Quotients of counts are rationals ([Q]).
    - [Date.now()] and [Math.random()] are inputs of the operation that reads
      them ([now], [rnd]).
    - Effects on the outside world (stream entries, produced messages, emitted
      events, timers) are recorded in the state, oldest first.
    - Every method runs to completion without interleaving. *)

From Stdlib Require Import ZArith QArith Lia List String Ascii Bool.
From stdpp Require Import gmap strings list pretty.

Import ListNotations.
Local Open Scope string_scope.

(** ** JS string operations used by the sources *)

Module JsString.

(** [stripPrefix p s] is [Some r] exactly when [s = p ++ r]. *)
Fixpoint stripPrefix (p s : string) : option string :=
  match p with
  | EmptyString => Some s
  | String a p' =>
      match s with
      | EmptyString => None
      | String b s' => if Ascii.eqb a b then stripPrefix p' s' else None
      end
  end.

(** [s.includes(needle)] *)
Fixpoint includes (needle s : string) : bool :=
  match stripPrefix needle s with
  | Some _ => true
  | None =>
      match s with
      | EmptyString => false
      | String _ s' => includes needle s'
      end
  end.

(** [s.split(sep)] for a one-character separator: never the empty list. *)
Fixpoint split (sep : ascii) (s : string) : list string :=
  match s with
  | EmptyString => [EmptyString]
  | String c s' =>
      if Ascii.eqb c sep then EmptyString :: split sep s'
      else match split sep s' with
           | h :: t => String c h :: t
           | [] => [String c EmptyString]
           end
  end.

(** [parts.join(sep)] *)
Fixpoint join (sep : string) (parts : list string) : string :=
  match parts with
  | [] => EmptyString
  | [p] => p
  | p :: rest => p ++ sep ++ join sep rest
  end.

(** [parts.slice(n)] *)
Definition slice {A} (n : nat) (parts : list A) : list A := skipn n parts.

(** [parts[i]]; [None] is JS [undefined]. *)
Definition at_ {A} (parts : list A) (i : nat) : option A := nth_error parts i.

(** Characters that the regex [.] does not match (line terminators within
    the modelled alphabet). *)
Definition isLineTerminator (c : ascii) : bool :=
  Ascii.eqb c "010"%char || Ascii.eqb c "013"%char.

Fixpoint noLineTerminator (s : string) : bool :=
  match s with
  | EmptyString => true
  | String c s' => negb (isLineTerminator c) && noLineTerminator s'
  end.

(** [\d] *)
Definition isDigit (c : ascii) : bool :=
  (48 <=? nat_of_ascii c)%nat && (nat_of_ascii c <=? 57)%nat.

(** The longest run of digits at the head of [s] (greedy [\d*]). *)
Fixpoint takeDigits (s : string) : string :=
  match s with
  | EmptyString => EmptyString
  | String c s' => if isDigit c then String c (takeDigits s') else EmptyString
  end.

Definition digitValue (c : ascii) : N := N.of_nat (nat_of_ascii c - 48).

Fixpoint parseDigits (acc : N) (s : string) : N :=
  match s with
  | EmptyString => acc
  | String c s' => parseDigits (10 * acc + digitValue c)%N s'
  end.

(** [parseInt(s)] on a string of decimal digits. *)
Definition parseInt (s : string) : N := parseDigits 0%N s.



(** [lockId.replace(/:readers:.*$/, '')]: the text before the first
    [":readers:"] that no line terminator follows. *)
Fixpoint stripReaders (lockId : string) : string :=
  let matchesHere :=
    match stripPrefix ":readers:" lockId with
    | Some rest => noLineTerminator rest
    | None => false
    end in
  if matchesHere then EmptyString
  else match lockId with
       | EmptyString => EmptyString
       | String c rest => String c (stripReaders rest)
       end.


(** [word] has no separator in it. *)
Fixpoint noSep (sep : ascii) (word : string) : bool :=
  match word with
  | EmptyString => true
  | String c w => negb (Ascii.eqb c sep) && noSep sep w
  end.

End JsString.

(** ** Consensus tally helper ([calculateConsensus]) *)

Module Consensus.

Inductive Vote := agree | disagree | abstain.

Definition Vote_eqb (a b : Vote) : bool :=
  match a, b with
  | agree, agree | disagree, disagree | abstain, abstain => true
  | _, _ => false
  end.

Record VoteEntry := { vote : Vote; reasoning : string }.

(** [Record<string, { vote; reasoning }>]: the own properties of the object
    in insertion order. *)
Definition Votes := list (string * VoteEntry).

Inductive Outcome := approved | rejected | deadlock.

Record ConsensusResult := {
  proposalId : string;
  result : Outcome;
  confidence : Q;
  votes : Votes
}.

(** The accumulator object of the [reduce]: a missing property is [None]. *)
Definition VoteCount := Vote -> option nat.

(** [x || 0] *)
Definition orZero (x : option nat) : nat := default 0%nat x.

(** [acc[vote] = (acc[vote] || 0) + 1; return acc] *)
Definition countVote (acc : VoteCount) (e : VoteEntry) : VoteCount :=
  fun v => if Vote_eqb v (vote e) then Some (orZero (acc (vote e)) + 1)%nat else acc v.

Definition values (vs : Votes) : list VoteEntry := map snd vs.
Definition keys (vs : Votes) : list string := map fst vs.

Definition num (n : nat) : Q := inject_Z (Z.of_nat n).

(** [x > y] on numbers *)
Definition gt (x y : Q) : bool := negb (Qle_bool x y).

(** [idPrefix] is ["consensus_"] in MultiAgentExample.ts and
    ["ollama_consensus_"] in OllamaMultiAgentExample.ts; the bodies agree
    otherwise. *)
Definition calculateConsensus (idPrefix : string) (now : Z) (votes : Votes)
  : ConsensusResult :=
  let voteCount := fold_left countVote (values votes) (fun _ => None) in
  let total := length (keys votes) in
  let agree := orZero (voteCount agree) in
  let disagree := orZero (voteCount disagree) in
  let rc :=
    if gt (num agree) (num total / 2) then (approved, (num agree / num total)%Q)
    else if gt (num disagree) (num total / 2) then (rejected, (num disagree / num total)%Q)
    else (deadlock, (1 # 2)%Q) in
  {| proposalId := idPrefix ++ pretty now;
     result := fst rc;
     confidence := snd rc;
     votes := votes |}.

(** The specification's [count(v)]: the number of entries that voted [v]. *)
Definition count (v : Vote) (vs : Votes) : nat :=
  length (List.filter (fun e => Vote_eqb (vote (snd e)) v) vs).

(** The vote map with every reasoning string replaced ([f] gives the new
    reasoning of the entry at each position). *)
Definition withReasoning (f : nat -> string) (vs : Votes) : Votes :=
  imap (fun i e => (fst e, {| vote := vote (snd e); reasoning := f i |})) vs.

End Consensus.

(** ** Durable-store orchestrator ([KafkaWorkspaceOrchestrator]) *)

Module Kafka.

(** Values of type [any] / [Record<string, any>]. *)
Local Unset Elimination Schemes.
Inductive Json :=
| JNull
| JBool (b : bool)
| JNum (n : Z)
| JStr (s : string)
| JArr (items : list Json)
| JObj (fields : list (string * Json)).
Local Set Elimination Schemes.

Inductive MessageType :=
  edit_history | workspace_snapshot | consensus_decision
| agent_coordination | conflict_resolution.

Inductive Priority := high | medium | low.

Inductive EditOperation := create | update | delete.

Record EditData := {
  operation : EditOperation;
  previousContent : option string;
  newContent : option string;
  patch : option string;
  startLine : option Z;
  endLine : option Z;
  reason : option string
}.

Record Snapshot := {
  files : list (string * string);
  snapshotMetadata : Json;
  activeAgents : list string;
  consensus : Json;
  snapshotReason : string
}.

Inductive FinalDecision := fd_approved | fd_rejected | fd_deferred.
Inductive ConsensusMethod := majority | weighted | unanimous | delegate.

Record Decision := {
  proposalId : string;
  description : string;
  votes : list (string * (Consensus.Vote * option string));
  finalDecision : FinalDecision;
  consensusMethod : ConsensusMethod;
  implementation : option string;
  deadline : option Z
}.

Inductive CoordinationType := handoff | collaboration | delegation | synchronization.

Definition isDelegation (t : CoordinationType) : bool :=
  match t with delegation => true | _ => false end.

Record Coordination := {
  coordinationType : CoordinationType;
  targetAgent : option string;
  task : string;
  dependencies : option (list string);
  expectedDuration : option Z;
  coordinationPriority : Priority
}.

Inductive ConflictType :=
  edit_collision | consensus_deadlock | resource_contention | priority_conflict.
Inductive ResolutionMethod := automatic | escalation | consensus_vote | manual_override.
Inductive ConflictOutcome := resolved | escalated | deferred.

Record Conflict := {
  conflictId : string;
  conflictType : ConflictType;
  involvedAgents : list string;
  conflictDetails : Json;
  resolutionMethod : ResolutionMethod;
  resolution : Json;
  conflictOutcome : ConflictOutcome
}.

Record SessionData := {
  participants : list string;
  goal : string;
  timeLimit : option Z;
  consensusThreshold : option Q
}.

Inductive SessionOutcome := completed | timeout | aborted.

Record SessionResult := {
  sessionOutcome : SessionOutcome;
  finalState : Json;
  decisions : list string;
  endParticipants : list string;
  summary : string
}.

(** [payload]: the fields each logging method copies from its argument,
    with the time stamp it adds. *)
Inductive Payload :=
| EditPayload (editData : EditData) (filePath : string) (editTimestamp : Z)
| SnapshotPayload (snapshot : Snapshot) (snapshotTimestamp : Z)
| DecisionPayload (decision : Decision) (decisionTimestamp : Z)
| CoordinationPayload (ctype : CoordinationType) (task : string)
    (dependencies : list string) (expectedDuration : option Z)
    (coordinationTimestamp : Z)
| ConflictPayload (conflict : Conflict) (resolutionTimestamp : Z)
| SessionStartPayload (sessionData : SessionData) (sessionStartTime : Z)
| SessionEndPayload (sessionResult : SessionResult) (sessionEndTime : Z).

Record Metadata := {
  agentId : string;
  workspaceId : string;
  sessionId : option string;
  filePath : option string;
  sequenceNumber : N;
  correlationId : option string;
  requiresResponse : option bool;
  consensusRound : option N
}.

Record WorkspaceKafkaMessage := {
  id : string;
  timestamp : Z;
  type : MessageType;
  source : string;
  target : option string;
  priority : Priority;
  payload : Payload;
  metadata : Metadata
}.

Module Topics.
Definition EDIT_HISTORY := "autogen-edit-history".
Definition WORKSPACE_SNAPSHOTS := "autogen-workspace-snapshots".
Definition CONSENSUS_DECISIONS := "autogen-consensus-decisions".
Definition AGENT_COORDINATION := "autogen-agent-coordination".
Definition CONFLICT_RESOLUTION := "autogen-conflict-resolution".
Definition SESSION_MANAGEMENT := "autogen-session-management".
End Topics.

Record Headers := {
  h_messageType : MessageType;
  h_agentId : string;
  h_correlationId : string
}.

(** One entry of [producer.send]'s [messages]; [value] stands for
    [JSON.stringify(message)]. *)
Record ProducerRecord := {
  topic : string;
  key : string;
  value : WorkspaceKafkaMessage;
  recordTimestamp : string;
  headers : Headers
}.

Inductive Event :=
| EvConnected
| EvDisconnected
| EvError (message : string).

(** The instance: its private fields, the records its producer has sent and
    the events it has emitted. *)
Record Orchestrator := {
  isConnected : bool;
  counter : N;                     (* [this.sequenceNumber] *)
  produced : list ProducerRecord;
  emitted : list Event
}.

(** The state the constructor leaves. *)
Definition new : Orchestrator :=
  {| isConnected := false; counter := 0; produced := []; emitted := [] |}.

(** What the environment decides during one call: the clock, the random
    suffix of [generateId] and whether [producer.send] succeeds ([None]) or
    throws ([Some error]). *)
Record Env := { now : Z; rnd : string; sendError : option string }.

Inductive Reply (A : Type) :=
| Returned (a : A)
| Thrown (error : string).
Arguments Returned {A} a.
Arguments Thrown {A} error.

(** [return ++this.sequenceNumber] *)
Definition getNextSequence (o : Orchestrator) : N * Orchestrator :=
  let n := (counter o + 1)%N in
  (n, {| isConnected := isConnected o; counter := n;
         produced := produced o; emitted := emitted o |}).

(** [/round_(\d+)/] tried at the head of [s]: the capture group. *)
Definition roundHere (s : string) : option string :=
  match JsString.stripPrefix "round_" s with
  | Some rest =>
      match JsString.takeDigits rest with
      | EmptyString => None
      | digits => Some digits
      end
  | None => None
  end.

(** [proposalId.match(/round_(\d+)/)]: the capture group of the first
    position where the regex matches. *)
Fixpoint matchRound (s : string) : option string :=
  match roundHere s with
  | Some digits => Some digits
  | None =>
      match s with
      | EmptyString => None
      | String _ s' => matchRound s'
      end
  end.

Definition extractConsensusRound (proposalId : string) : N :=
  match matchRound proposalId with
  | Some digits => JsString.parseInt digits
  | None => 1%N
  end.

Definition emit (e : Event) (o : Orchestrator) : Orchestrator :=
  {| isConnected := isConnected o; counter := counter o;
     produced := produced o; emitted := emitted o ++ [e] |}.

Definition send (r : ProducerRecord) (o : Orchestrator) : Orchestrator :=
  {| isConnected := isConnected o; counter := counter o;
     produced := produced o ++ [r]; emitted := emitted o |}.

Definition publishMessage (env : Env) (topic : string) (message : WorkspaceKafkaMessage)
    (o : Orchestrator) : Reply unit * Orchestrator :=
  match sendError env with
  | None =>
      (Returned tt,
       send {| topic := topic;
               key := workspaceId (metadata message);
               value := message;
               recordTimestamp := pretty (timestamp message);
               headers := {| h_messageType := type message;
                             h_agentId := agentId (metadata message);
                             h_correlationId :=
                               default "" (correlationId (metadata message)) |} |} o)
  | Some error =>
      (Thrown error, emit (EvError ("Message publish failed: " ++ error)) o)
  end.

Definition messageId (prefix : string) (env : Env) : string :=
  prefix ++ "_" ++ pretty (now env) ++ "_" ++ rnd env.

Definition logFileEdit (env : Env) (agentId workspaceId sessionId filePath : string)
    (editData : EditData) (o : Orchestrator) : Reply unit * Orchestrator :=
  let (seq, o) := getNextSequence o in
  let message :=
    {| id := messageId "edit" env;
       timestamp := now env;
       type := edit_history;
       source := agentId;
       target := None;
       priority := high;
       payload := EditPayload editData filePath (now env);
       metadata :=
         {| agentId := agentId; workspaceId := workspaceId;
            sessionId := Some sessionId; filePath := Some filePath;
            sequenceNumber := seq;
            correlationId :=
              Some ("edit_" ++ workspaceId ++ "_" ++ filePath ++ "_" ++ pretty (now env));
            requiresResponse := None; consensusRound := None |} |} in
  publishMessage env Topics.EDIT_HISTORY message o.

Definition saveWorkspaceSnapshot (env : Env) (agentId workspaceId sessionId : string)
    (snapshot : Snapshot) (o : Orchestrator) : Reply unit * Orchestrator :=
  let (seq, o) := getNextSequence o in
  let message :=
    {| id := messageId "snapshot" env;
       timestamp := now env;
       type := workspace_snapshot;
       source := agentId;
       target := None;
       priority := medium;
       payload := SnapshotPayload snapshot (now env);
       metadata :=
         {| agentId := agentId; workspaceId := workspaceId;
            sessionId := Some sessionId; filePath := None;
            sequenceNumber := seq;
            correlationId := Some ("snapshot_" ++ workspaceId ++ "_" ++ pretty (now env));
            requiresResponse := None; consensusRound := None |} |} in
  publishMessage env Topics.WORKSPACE_SNAPSHOTS message o.

Definition logConsensusDecision (env : Env) (agentId workspaceId sessionId : string)
    (decision : Decision) (o : Orchestrator) : Reply unit * Orchestrator :=
  let (seq, o) := getNextSequence o in
  let message :=
    {| id := messageId "consensus" env;
       timestamp := now env;
       type := consensus_decision;
       source := agentId;
       target := None;
       priority := high;
       payload := DecisionPayload decision (now env);
       metadata :=
         {| agentId := agentId; workspaceId := workspaceId;
            sessionId := Some sessionId; filePath := None;
            sequenceNumber := seq;
            correlationId := Some ("consensus_" ++ proposalId decision);
            requiresResponse := None;
            consensusRound := Some (extractConsensusRound (proposalId decision)) |} |} in
  publishMessage env Topics.CONSENSUS_DECISIONS message o.

Definition logAgentCoordination (env : Env) (agentId workspaceId sessionId : string)
    (coordination : Coordination) (o : Orchestrator) : Reply unit * Orchestrator :=
  let (seq, o) := getNextSequence o in
  let message :=
    {| id := messageId "coord" env;
       timestamp := now env;
       type := agent_coordination;
       source := agentId;
       target := targetAgent coordination;
       priority := coordinationPriority coordination;
       payload :=
         CoordinationPayload (coordinationType coordination) (task coordination)
           (default [] (dependencies coordination)) (expectedDuration coordination)
           (now env);
       metadata :=
         {| agentId := agentId; workspaceId := workspaceId;
            sessionId := Some sessionId; filePath := None;
            sequenceNumber := seq;
            correlationId := Some ("coord_" ++ workspaceId ++ "_" ++ pretty (now env));
            requiresResponse := Some (isDelegation (coordinationType coordination));
            consensusRound := None |} |} in
  publishMessage env Topics.AGENT_COORDINATION message o.

Definition logConflictResolution (env : Env) (agentId workspaceId sessionId : string)
    (conflict : Conflict) (o : Orchestrator) : Reply unit * Orchestrator :=
  let (seq, o) := getNextSequence o in
  let message :=
    {| id := messageId "conflict" env;
       timestamp := now env;
       type := conflict_resolution;
       source := agentId;
       target := None;
       priority := high;
       payload := ConflictPayload conflict (now env);
       metadata :=
         {| agentId := agentId; workspaceId := workspaceId;
            sessionId := Some sessionId; filePath := None;
            sequenceNumber := seq;
            correlationId := Some (conflictId conflict);
            requiresResponse := None; consensusRound := None |} |} in
  publishMessage env Topics.CONFLICT_RESOLUTION message o.

Definition startWorkspaceSession (env : Env) (agentId workspaceId sessionId : string)
    (sessionData : SessionData) (o : Orchestrator) : Reply unit * Orchestrator :=
  let (seq, o) := getNextSequence o in
  let message :=
    {| id := messageId "session_start" env;
       timestamp := now env;
       type := workspace_snapshot;
       source := agentId;
       target := None;
       priority := high;
       payload := SessionStartPayload sessionData (now env);
       metadata :=
         {| agentId := agentId; workspaceId := workspaceId;
            sessionId := Some sessionId; filePath := None;
            sequenceNumber := seq;
            correlationId := Some ("session_" ++ sessionId);
            requiresResponse := None; consensusRound := None |} |} in
  publishMessage env Topics.SESSION_MANAGEMENT message o.

Definition endWorkspaceSession (env : Env) (agentId workspaceId sessionId : string)
    (sessionResult : SessionResult) (o : Orchestrator) : Reply unit * Orchestrator :=
  let (seq, o) := getNextSequence o in
  let message :=
    {| id := messageId "session_end" env;
       timestamp := now env;
       type := workspace_snapshot;
       source := agentId;
       target := None;
       priority := high;
       payload := SessionEndPayload sessionResult (now env);
       metadata :=
         {| agentId := agentId; workspaceId := workspaceId;
            sessionId := Some sessionId; filePath := None;
            sequenceNumber := seq;
            correlationId := Some ("session_" ++ sessionId);
            requiresResponse := None; consensusRound := None |} |} in
  publishMessage env Topics.SESSION_MANAGEMENT message o.

(** A call of one of the seven logging methods. *)
Inductive Call :=
| LogFileEdit (agentId workspaceId sessionId filePath : string) (editData : EditData)
| SaveWorkspaceSnapshot (agentId workspaceId sessionId : string) (snapshot : Snapshot)
| LogConsensusDecision (agentId workspaceId sessionId : string) (decision : Decision)
| LogAgentCoordination (agentId workspaceId sessionId : string) (coordination : Coordination)
| LogConflictResolution (agentId workspaceId sessionId : string) (conflict : Conflict)
| StartWorkspaceSession (agentId workspaceId sessionId : string) (sessionData : SessionData)
| EndWorkspaceSession (agentId workspaceId sessionId : string) (sessionResult : SessionResult).

Definition call (env : Env) (c : Call) (o : Orchestrator) : Reply unit * Orchestrator :=
  match c with
  | LogFileEdit a w s f d => logFileEdit env a w s f d o
  | SaveWorkspaceSnapshot a w s d => saveWorkspaceSnapshot env a w s d o
  | LogConsensusDecision a w s d => logConsensusDecision env a w s d o
  | LogAgentCoordination a w s d => logAgentCoordination env a w s d o
  | LogConflictResolution a w s d => logConflictResolution env a w s d o
  | StartWorkspaceSession a w s d => startWorkspaceSession env a w s d o
  | EndWorkspaceSession a w s d => endWorkspaceSession env a w s d o
  end.

(** The life of an instance: calls in the order they are made, each with
    what the environment decided for it. *)
Fixpoint run (calls : list (Env * Call)) (o : Orchestrator) : Orchestrator :=
  match calls with
  | [] => o
  | (env, c) :: rest => run rest (snd (call env c o))
  end.

Definition sequenceOf (r : ProducerRecord) : N := sequenceNumber (metadata (value r)).

(** The records a call sent: those of [o'] beyond those of [o]. *)
Definition sentBy (o o' : Orchestrator) : list ProducerRecord :=
  skipn (length (produced o)) (produced o').



(** The records sent so far are numbered in increasing order, none above
    the counter. *)
Definition numbered (o : Orchestrator) : Prop :=
  (forall i r, produced o !! i = Some r -> (sequenceOf r <= counter o)%N) /\
  (forall i j r1 r2, (i < j)%nat ->
     produced o !! i = Some r1 -> produced o !! j = Some r2 ->
     (sequenceOf r1 < sequenceOf r2)%N).

End Kafka.

(** ** Fast-store orchestrator ([RedisWorkspaceOrchestrator]): file locks *)

Module Redis.

Inductive LockType := read | write | exclusive.

Definition isRead (t : LockType) : bool :=
  match t with read => true | _ => false end.

(** The object [{agentId, lockType, timestamp, workspaceId, filePath}] that
    [requestFileLock] stores at the lock key and [queueLockRequest] pushes on
    the waiters list, both through [JSON.stringify]. *)
Record LockRequest := {
  agentId : string;
  lockType : LockType;
  timestamp : Z;
  workspaceId : string;
  filePath : string
}.

(** A string value, read back through [JSON.parse]: a lock object, or the
    number of a heartbeat key. *)
Inductive StringValue :=
| LockJson (lock : LockRequest)
| Stamp (t : Z).

(** The server's keyspace, restricted to the kinds of value the orchestrator
    writes: strings (with the [PX] time to live, if any), the readers sets,
    the waiters lists and the agent hashes. The server keeps no empty set and
    no empty list. *)
Inductive Value :=
| VString (s : StringValue) (px : option Z)
| VSet (members : gset string)
| VList (items : list LockRequest)
| VHash (fields : list (string * string)).

Inductive LockEvent := lock_acquired | lock_released.

Inductive StreamMessageType :=
  file_lock | file_edit | agent_status | workspace_event | consensus_vote.

Inductive Priority := high | medium | low.

Record LockPayload := { eventType : LockEvent; payloadLockType : LockType }.

Record StreamMetadata := {
  m_agentId : string;
  m_workspaceId : string;
  m_filePath : option string;
  m_lockType : option LockType;
  m_correlationId : option string;
  m_retryCount : option Z
}.

Record WorkspaceStreamMessage := {
  id : string;
  msgTimestamp : Z;
  type : StreamMessageType;
  source : string;
  target : option string;
  priority : Priority;
  payload : LockPayload;
  metadata : StreamMetadata
}.

Module Patterns.
Definition FILE_LOCKS := "autogen:locks".
Definition ACTIVE_LOCKS := "autogen:state:locks".
Definition EDIT_QUEUE := "autogen:state:edit_queue".
End Patterns.

Inductive Event :=
| EvError (message : string)
| EvLockRetry (request : LockRequest).

(** The server state the orchestrator acts on, the entries it has appended
    to streams ([xadd], oldest first) and the events it has emitted. *)
Record Store := {
  keyspace : gmap string Value;
  streams : list (string * WorkspaceStreamMessage);
  emitted : list Event
}.

Definition empty : Store := {| keyspace := ∅; streams := []; emitted := [] |}.

Inductive Reply (A : Type) :=
| Returned (a : A)
| Thrown (error : string).
Arguments Returned {A} a.
Arguments Thrown {A} error.

(** Commands and methods: state passing with exceptions. *)
Definition M (A : Type) : Type := Store -> Reply A * Store.

Definition ret {A} (a : A) : M A := fun st => (Returned a, st).

Definition bind {A B} (c : M A) (k : A -> M B) : M B :=
  fun st =>
    match c st with
    | (Returned a, st') => k a st'
    | (Thrown e, st') => (Thrown e, st')
    end.

Definition throw {A} (e : string) : M A := fun st => (Thrown e, st).

(** [try { body } catch (error) { handler }] *)
Definition tryCatch {A} (body : M A) (handler : string -> M A) : M A :=
  fun st =>
    match body st with
    | (Returned a, st') => (Returned a, st')
    | (Thrown e, st') => handler e st'
    end.

Notation "'do' x <- c ; k" := (bind c (fun x => k))
  (at level 10, x name, c at level 100, k at level 200).

Definition withKeyspace (f : gmap string Value -> gmap string Value) : M unit :=
  fun st => (Returned tt,
             {| keyspace := f (keyspace st); streams := streams st; emitted := emitted st |}).

Definition lookupKey (k : string) : M (option Value) :=
  fun st => (Returned (keyspace st !! k), st).

Definition emit (e : Event) : M unit :=
  fun st => (Returned tt,
             {| keyspace := keyspace st; streams := streams st;
                emitted := emitted st ++ [e] |}).

Definition WRONGTYPE : string :=
  "ReplyError: WRONGTYPE Operation against a key holding the wrong kind of value".

(** *** The commands of the server *)

Definition get (k : string) : M (option StringValue) :=
  do v <- lookupKey k;
  match v with
  | None => ret None
  | Some (VString s _) => ret (Some s)
  | Some _ => throw WRONGTYPE
  end.

(** [SET k v PX px] *)
Definition setPX (k : string) (v : StringValue) (px : Z) : M unit :=
  withKeyspace (insert k (VString v (Some px))).

(** [SET k v PX px NX]: [true] stands for the reply ['OK']. *)
Definition setPXNX (k : string) (v : StringValue) (px : Z) : M bool :=
  do old <- lookupKey k;
  match old with
  | None => do _ <- withKeyspace (insert k (VString v (Some px))); ret true
  | Some _ => ret false
  end.

Definition sadd (k member : string) : M nat :=
  do v <- lookupKey k;
  match v with
  | None => do _ <- withKeyspace (insert k (VSet {[ member ]})); ret 1%nat
  | Some (VSet s) =>
      if decide (member ∈ s) then ret 0%nat
      else do _ <- withKeyspace (insert k (VSet ({[ member ]} ∪ s))); ret 1%nat
  | Some _ => throw WRONGTYPE
  end.

Definition srem (k member : string) : M nat :=
  do v <- lookupKey k;
  match v with
  | None => ret 0%nat
  | Some (VSet s) =>
      if decide (member ∈ s) then
        do _ <- withKeyspace
                  (if decide (s ∖ {[ member ]} = ∅) then delete k
                   else insert k (VSet (s ∖ {[ member ]})));
        ret 1%nat
      else ret 0%nat
  | Some _ => throw WRONGTYPE
  end.

Definition scard (k : string) : M nat :=
  do v <- lookupKey k;
  match v with
  | None => ret 0%nat
  | Some (VSet s) => ret (size s)
  | Some _ => throw WRONGTYPE
  end.

Definition del (k : string) : M nat :=
  do v <- lookupKey k;
  match v with
  | None => ret 0%nat
  | Some _ => do _ <- withKeyspace (delete k); ret 1%nat
  end.

(** [LPUSH]: the new item becomes the head of the list. *)
Definition lpush (k : string) (item : LockRequest) : M nat :=
  do v <- lookupKey k;
  match v with
  | None => do _ <- withKeyspace (insert k (VList [item])); ret 1%nat
  | Some (VList l) =>
      do _ <- withKeyspace (insert k (VList (item :: l))); ret (S (length l))
  | Some _ => throw WRONGTYPE
  end.

(** [RPOP]: takes the last item of the list. *)
Definition rpop (k : string) : M (option LockRequest) :=
  do v <- lookupKey k;
  match v with
  | None => ret None
  | Some (VList l) =>
      match last l with
      | None => ret None
      | Some item =>
          do _ <- withKeyspace
                    (match removelast l with
                     | [] => delete k
                     | l' => insert k (VList l')
                     end);
          ret (Some item)
      end
  | Some _ => throw WRONGTYPE
  end.

Definition xadd (stream : string) (message : WorkspaceStreamMessage) : M unit :=
  fun st => (Returned tt,
             {| keyspace := keyspace st;
                streams := streams st ++ [(stream, message)];
                emitted := emitted st |}).

(** *** The orchestrator's methods *)

(** What a call reads from its environment: the clock, the random suffix of
    message ids, and [config.lockTimeoutMs]. *)
Record Env := { now : Z; rnd : string; lockTimeoutMs : Z }.

Definition lockKeyOf (workspaceId filePath : string) : string :=
  Patterns.ACTIVE_LOCKS ++ ":" ++ workspaceId ++ ":" ++ filePath.

Definition queueKeyOf (workspaceId filePath : string) : string :=
  Patterns.EDIT_QUEUE ++ ":" ++ workspaceId ++ ":" ++ filePath.

(** [lock.lockType] of a parsed string value; a number has no such
    property. *)
Definition parsedLockType (v : StringValue) : option LockType :=
  match v with LockJson l => Some (lockType l) | Stamp _ => None end.

Definition holdsReadLock (v : StringValue) : bool :=
  match parsedLockType v with Some read => true | _ => false end.

(** [xadd] never fails in this model, so the [catch] of [publishToStream]
    is not reached. *)
Definition publishToStream (streamName : string) (message : WorkspaceStreamMessage)
  : M unit :=
  xadd streamName message.

Definition publishLockEvent (env : Env) (eventType : LockEvent)
    (agentId workspaceId filePath : string) (lockType : LockType) : M unit :=
  publishToStream Patterns.FILE_LOCKS
    {| id := "lock_" ++ pretty (now env) ++ "_" ++ rnd env;
       msgTimestamp := now env;
       type := file_lock;
       source := agentId;
       target := None;
       priority := high;
       payload := {| eventType := eventType; payloadLockType := lockType |};
       metadata := {| m_agentId := agentId;
                      m_workspaceId := workspaceId;
                      m_filePath := Some filePath;
                      m_lockType := Some lockType;
                      m_correlationId := None;
                      m_retryCount := None |} |}.

Definition queueLockRequest (env : Env) (agentId workspaceId filePath : string)
    (lockType : LockType) : M unit :=
  let queueKey := queueKeyOf workspaceId filePath in
  let request :=
    {| agentId := agentId; lockType := lockType; timestamp := now env;
       workspaceId := workspaceId; filePath := filePath |} in
  do _ <- lpush queueKey request;
  ret tt.

Definition processLockQueue (lockKey : string) : M unit :=
  let parts := JsString.split ":" lockKey in
  if (length parts <? 4)%nat then ret tt
  else
    let workspaceId := default "" (JsString.at_ parts 2) in
    let filePath := JsString.join ":" (JsString.slice 3 parts) in
    let queueKey := Patterns.EDIT_QUEUE ++ ":" ++ workspaceId ++ ":" ++ filePath in
    do nextRequest <- rpop queueKey;
    match nextRequest with
    | Some request => emit (EvLockRetry request)
    | None => ret tt
    end.

Definition requestFileLock (env : Env) (agentId workspaceId filePath : string)
    (lockType : LockType) : M (option string) :=
  let lockKey := lockKeyOf workspaceId filePath in
  let lockValue :=
    LockJson {| agentId := agentId; lockType := lockType; timestamp := now env;
                workspaceId := workspaceId; filePath := filePath |} in
  tryCatch
    (do existingLock <- get lockKey;
     match existingLock with
     | Some lock =>
         do granted <-
           (if isRead lockType && holdsReadLock lock then
              do readLocks <- sadd (lockKey ++ ":readers") agentId;
              if (0 <? readLocks)%nat then
                do _ <- publishLockEvent env lock_acquired agentId workspaceId filePath
                          lockType;
                ret true
              else ret false
            else ret false);
         if (granted : bool) then ret (Some (lockKey ++ ":readers:" ++ agentId))
         else
           do _ <- queueLockRequest env agentId workspaceId filePath lockType;
           ret None
     | None =>
         if isRead lockType then
           do _ <- sadd (lockKey ++ ":readers") agentId;
           do _ <- setPX lockKey lockValue (lockTimeoutMs env);
           do _ <- publishLockEvent env lock_acquired agentId workspaceId filePath lockType;
           ret (Some (lockKey ++ ":readers:" ++ agentId))
         else
           do acquired <- setPXNX lockKey lockValue (lockTimeoutMs env);
           if (acquired : bool) then
             do _ <- publishLockEvent env lock_acquired agentId workspaceId filePath
                       lockType;
             ret (Some lockKey)
           else ret None
     end)
    (fun error =>
       do _ <- emit (EvError ("Lock request failed: " ++ error));
       ret None).

Definition releaseFileLock (env : Env) (lockId agentId : string) : M bool :=
  tryCatch
    (if JsString.includes ":readers:" lockId then
       let baseKey := JsString.stripReaders lockId in
       do removed <- srem (baseKey ++ ":readers") agentId;
       do remainingReaders <- scard (baseKey ++ ":readers");
       do _ <- (if (remainingReaders =? 0)%nat then
                  do _ <- del (baseKey ++ ":readers");
                  do _ <- del baseKey;
                  ret tt
                else ret tt);
       do _ <- (if (0 <? removed)%nat then
                  do _ <- publishLockEvent env lock_released agentId "" "" read;
                  processLockQueue baseKey
                else ret tt);
       ret (0 <? removed)%nat
     else
       do lockInfo <- get lockId;
       match lockInfo with
       | Some (LockJson lock) =>
           if String.eqb (Redis.agentId lock) agentId then
             do _ <- del lockId;
             do _ <- publishLockEvent env lock_released agentId (workspaceId lock)
                       (filePath lock) (lockType lock);
             do _ <- processLockQueue lockId;
             ret true
           else ret false
       | Some (Stamp _) => ret false
       | None => ret false
       end)
    (fun error =>
       do _ <- emit (EvError ("Lock release failed: " ++ error));
       ret false).

(** The waiters queue of a file, oldest request first (the list is pushed
    at its head and popped at its tail). *)
Definition waiters (st : Store) (workspaceId filePath : string) : list LockRequest :=
  match keyspace st !! queueKeyOf workspaceId filePath with
  | Some (VList l) => rev l
  | _ => []
  end.

(** The members of the readers set of a file. *)
Definition readers (st : Store) (workspaceId filePath : string) : gset string :=
  match keyspace st !! (lockKeyOf workspaceId filePath ++ ":readers") with
  | Some (VSet s) => s
  | _ => ∅
  end.

(** The stream entries a call appended: those of [st'] beyond those of [st]. *)
Definition published (st st' : Store) : list (string * WorkspaceStreamMessage) :=
  skipn (length (streams st)) (streams st').

(** The events a call emitted. *)
Definition retries (st st' : Store) : list Event :=
  skipn (length (emitted st)) (emitted st').

(** A computation is quiet when it appends nothing to a stream. *)
Definition quiet {A} (c : M A) : Prop :=
  forall st, streams (snd (c st)) = streams st.

(** A computation keeps the key [q] when it leaves what the keyspace holds
    at [q] as it was. *)
Definition keeps (q : string) {A} (c : M A) : Prop :=
  forall st, keyspace (snd (c st)) !! q = keyspace st !! q.

End Redis.

(** ** Coordination bridge ([WorkspaceInfrastructureBridge]) *)

Module Bridge.

Inductive Service := redis | kafka.

Definition Service_eqb (a b : Service) : bool :=
  match a, b with
  | redis, redis | kafka, kafka => true
  | _, _ => false
  end.

Inductive Overall := healthy | degraded | offline.

Record BackendHealth := {
  connected : bool;
  lastHealthCheck : Z;
  errorCount : nat;
  lastError : option string
}.

Record InfrastructureHealthStatus := {
  redisHealth : BackendHealth;
  kafkaHealth : BackendHealth;
  overall : Overall
}.

(** The supervisor's part of [WorkspaceInfrastructureConfig]. *)
Record Config := {
  healthCheckIntervalMs : Z;
  reconnectAttempts : nat;
  reconnectDelayMs : nat
}.

Inductive Event :=
| redis_connected
| redis_disconnected
| redis_error (message : string)
| kafka_connected
| kafka_disconnected
| kafka_error (message : string)
| health_changed (status : InfrastructureHealthStatus)
| reconnect_attempt_failed (service : Service) (attempts : nat) (error : string)
| reconnect_failed (service : Service).

(** What the bridge does to the outside: events it emits, timers it sets
    and [connect()] calls it makes on an orchestrator. *)
Inductive Effect :=
| Emit (e : Event)
| SetTimeout (service : Service) (delay : nat)
| Connect (service : Service).

(** The closure passed to [setTimeout] by [attemptReconnect]: it captures
    [service] and the local constant [attempts]. *)
Record Timer := {
  timerService : Service;
  timerAttempts : nat;
  timerDelay : nat
}.

Record State := {
  healthStatus : InfrastructureHealthStatus;
  reconnectAttemptsMap : Service -> option nat;   (* [Map<string, number>] *)
  reconnectInProgress : Service -> bool;          (* [Set<string>] *)
  timers : list Timer;      (* callbacks set and not yet started *)
  awaiting : list Timer;    (* callbacks suspended at [await connect()] *)
  trace : list Effect       (* oldest first *)
}.

Definition disconnectedBackend : BackendHealth :=
  {| connected := false; lastHealthCheck := 0; errorCount := 0; lastError := None |}.

(** The state the constructor leaves. *)
Definition new : State :=
  {| healthStatus := {| redisHealth := disconnectedBackend;
                        kafkaHealth := disconnectedBackend;
                        overall := offline |};
     reconnectAttemptsMap := fun _ => None;
     reconnectInProgress := fun _ => false;
     timers := [];
     awaiting := [];
     trace := [] |}.

Definition setHealth (h : InfrastructureHealthStatus) (s : State) : State :=
  {| healthStatus := h; reconnectAttemptsMap := reconnectAttemptsMap s;
     reconnectInProgress := reconnectInProgress s; timers := timers s;
     awaiting := awaiting s; trace := trace s |}.

Definition setAttempts (service : Service) (n : nat) (s : State) : State :=
  {| healthStatus := healthStatus s;
     reconnectAttemptsMap :=
       fun x => if Service_eqb x service then Some n else reconnectAttemptsMap s x;
     reconnectInProgress := reconnectInProgress s; timers := timers s;
     awaiting := awaiting s; trace := trace s |}.

Definition setInProgress (service : Service) (b : bool) (s : State) : State :=
  {| healthStatus := healthStatus s; reconnectAttemptsMap := reconnectAttemptsMap s;
     reconnectInProgress :=
       fun x => if Service_eqb x service then b else reconnectInProgress s x;
     timers := timers s; awaiting := awaiting s; trace := trace s |}.

Definition setTimers (pending suspended : list Timer) (s : State) : State :=
  {| healthStatus := healthStatus s; reconnectAttemptsMap := reconnectAttemptsMap s;
     reconnectInProgress := reconnectInProgress s; timers := pending;
     awaiting := suspended; trace := trace s |}.

Definition effect (e : Effect) (s : State) : State :=
  {| healthStatus := healthStatus s; reconnectAttemptsMap := reconnectAttemptsMap s;
     reconnectInProgress := reconnectInProgress s; timers := timers s;
     awaiting := awaiting s; trace := trace s ++ [e] |}.

Definition emit (e : Event) (s : State) : State := effect (Emit e) s.

Definition backend (service : Service) (h : InfrastructureHealthStatus) : BackendHealth :=
  match service with redis => redisHealth h | kafka => kafkaHealth h end.

Definition setBackend (service : Service) (b : BackendHealth)
    (h : InfrastructureHealthStatus) : InfrastructureHealthStatus :=
  match service with
  | redis => {| redisHealth := b; kafkaHealth := kafkaHealth h; overall := overall h |}
  | kafka => {| redisHealth := redisHealth h; kafkaHealth := b; overall := overall h |}
  end.

Definition updateOverallHealth (s : State) : State :=
  let h := healthStatus s in
  let redisHealthy := connected (redisHealth h) in
  let kafkaHealthy := connected (kafkaHealth h) in
  let h' :=
    {| redisHealth := redisHealth h; kafkaHealth := kafkaHealth h;
       overall := if redisHealthy && kafkaHealthy then healthy
                  else if redisHealthy || kafkaHealthy then degraded
                  else offline |} in
  emit (health_changed h') (setHealth h' s).

(** [setTimeout(callback, delay)] as called by [attemptReconnect]. *)
Definition setTimeout (t : Timer) (s : State) : State :=
  effect (SetTimeout (timerService t) (timerDelay t))
         (setTimers (timers s ++ [t]) (awaiting s) s).

Definition attemptReconnect (cfg : Config) (service : Service) (s : State) : State :=
  if reconnectInProgress s service then s
  else
    let attempts := default 0%nat (reconnectAttemptsMap s service) in
    if (reconnectAttempts cfg <=? attempts)%nat then emit (reconnect_failed service) s
    else
      let s := setAttempts service (attempts + 1) s in
      let s := setInProgress service true s in
      setTimeout {| timerService := service; timerAttempts := attempts;
                    timerDelay := reconnectDelayMs cfg * (attempts + 1) |} s.

Definition connectedEvent (service : Service) : Event :=
  match service with redis => redis_connected | kafka => kafka_connected end.

Definition disconnectedEvent (service : Service) : Event :=
  match service with redis => redis_disconnected | kafka => kafka_disconnected end.

Definition errorEvent (service : Service) (message : string) : Event :=
  match service with redis => redis_error message | kafka => kafka_error message end.

(** The listener of the orchestrator's ['connected'] event. *)
Definition onConnected (service : Service) (s : State) : State :=
  let h := healthStatus s in
  let b := backend service h in
  let s := setHealth (setBackend service
                        {| connected := true; lastHealthCheck := lastHealthCheck b;
                           errorCount := 0; lastError := lastError b |} h) s in
  let s := setAttempts service 0 s in
  let s := updateOverallHealth s in
  emit (connectedEvent service) s.

(** The listener of the orchestrator's ['disconnected'] event. *)
Definition onDisconnected (service : Service) (s : State) : State :=
  let h := healthStatus s in
  let b := backend service h in
  let s := setHealth (setBackend service
                        {| connected := false; lastHealthCheck := lastHealthCheck b;
                           errorCount := errorCount b; lastError := lastError b |} h) s in
  let s := updateOverallHealth s in
  emit (disconnectedEvent service) s.

(** [handleRedisError] and [handleKafkaError]: the listeners of the
    orchestrators' ['error'] events, also called by the [catch] blocks of the
    bridge's own operations. *)
Definition handleError (cfg : Config) (service : Service) (message : string)
    (s : State) : State :=
  let h := healthStatus s in
  let b := backend service h in
  let s := setHealth (setBackend service
                        {| connected := false; lastHealthCheck := lastHealthCheck b;
                           errorCount := errorCount b + 1;
                           lastError := Some message |} h) s in
  let s := updateOverallHealth s in
  let s := emit (errorEvent service message) s in
  attemptReconnect cfg service s.

Definition handleRedisError (cfg : Config) (message : string) : State -> State :=
  handleError cfg redis message.

Definition handleKafkaError (cfg : Config) (message : string) : State -> State :=
  handleError cfg kafka message.

Definition performHealthCheck (now : Z) (s : State) : State :=
  let h := healthStatus s in
  let stamp (b : BackendHealth) :=
    {| connected := connected b; lastHealthCheck := now;
       errorCount := errorCount b; lastError := lastError b |} in
  setHealth {| redisHealth := stamp (redisHealth h);
               kafkaHealth := stamp (kafkaHealth h);
               overall := overall h |} s.

(** [l] without its [i]-th element. *)
Definition removeAt {A} (i : nat) (l : list A) : list A :=
  firstn i l ++ skipn (S i) l.

(** The timer's callback starts: it calls [connect()] on the orchestrator
    and is suspended at the [await]. *)
Definition timerFires (i : nat) (s : State) : State :=
  match nth_error (timers s) i with
  | None => s
  | Some t =>
      effect (Connect (timerService t))
             (setTimers (removeAt i (timers s)) (awaiting s ++ [t]) s)
  end.

(** The awaited [connect()] returned: only the [finally] block runs. *)
Definition connectReturns (i : nat) (s : State) : State :=
  match nth_error (awaiting s) i with
  | None => s
  | Some t =>
      let s := setTimers (timers s) (removeAt i (awaiting s)) s in
      setInProgress (timerService t) false s
  end.

(** The awaited [connect()] threw: the [catch] block, then [finally]. *)
Definition connectThrows (cfg : Config) (i : nat) (error : string) (s : State) : State :=
  match nth_error (awaiting s) i with
  | None => s
  | Some t =>
      let service := timerService t in
      let attempts := timerAttempts t in
      let s := setTimers (timers s) (removeAt i (awaiting s)) s in
      let s := emit (reconnect_attempt_failed service (attempts + 1) error) s in
      let s :=
        if (attempts + 1 <? reconnectAttempts cfg)%nat then
          attemptReconnect cfg service (setInProgress service false s)
        else s in
      setInProgress service false s
  end.

(** What can happen to the bridge once constructed: an orchestrator event
    reaches its listener (or a [catch] block of [initialize] or of an
    operation calls the error handler), a timer comes due, a suspended
    [connect()] settles, the health timer ticks. Any timer set may fire and
    any suspended call may settle, in any order. The start-up method
    [initialize] itself is not modelled. *)
Inductive Input :=
| Connected (service : Service)
| Disconnected (service : Service)
| Error (service : Service) (message : string)
| TimerFires (i : nat)
| ConnectReturns (i : nat)
| ConnectThrows (i : nat) (error : string)
| HealthCheck (now : Z).

Definition step (cfg : Config) (s : State) (input : Input) : State :=
  match input with
  | Connected service => onConnected service s
  | Disconnected service => onDisconnected service s
  | Error redis message => handleRedisError cfg message s
  | Error kafka message => handleKafkaError cfg message s
  | TimerFires i => timerFires i s
  | ConnectReturns i => connectReturns i s
  | ConnectThrows i error => connectThrows cfg i error s
  | HealthCheck now => performHealthCheck now s
  end.

Definition run (cfg : Config) (inputs : list Input) (s : State) : State :=
  fold_left (step cfg) inputs s.

(** *** Observations on a run, used to state the reconnect policy *)

(** [this.reconnectAttempts.get(service) || 0] *)
Definition attemptsOf (s : State) (service : Service) : nat :=
  default 0%nat (reconnectAttemptsMap s service).

(** The delays of the reconnect timers set for [service], in order. *)
Fixpoint scheduledDelays (service : Service) (tr : list Effect) : list nat :=
  match tr with
  | [] => []
  | SetTimeout x d :: rest =>
      if Service_eqb x service then d :: scheduledDelays service rest
      else scheduledDelays service rest
  | _ :: rest => scheduledDelays service rest
  end.

(** The only reset of the attempt counter: the ['connected'] listener. *)
Definition isReset (service : Service) (input : Input) : bool :=
  match input with
  | Connected x => Service_eqb x service
  | _ => false
  end.

Definition resetFree (service : Service) (inputs : list Input) : bool :=
  forallb (fun i => negb (isReset service i)) inputs.


Definition isReconnectFailed (service : Service) (e : Effect) : bool :=
  match e with
  | Emit (reconnect_failed x) => Service_eqb x service
  | _ => false
  end.

Definition isAttemptFailed (service : Service) (e : Effect) : bool :=
  match e with
  | Emit (reconnect_attempt_failed x _ _) => Service_eqb x service
  | _ => false
  end.

(** The failed reconnect attempts of [service] that the trace reports. *)
Definition failedAttempts (service : Service) (tr : list Effect) : nat :=
  length (List.filter (isAttemptFailed service) tr).





(** *** Fallback lock manager ([this.fallbackStorage]) *)

Record FallbackLock := {
  agentId : string;
  lockType : Redis.LockType;
  timestamp : Z;
  workspaceId : string;
  filePath : string;
  readers : option (list string)       (* [None]: the property is absent *)
}.

Definition setReaders (rs : list string) (l : FallbackLock) : FallbackLock :=
  {| agentId := agentId l; lockType := lockType l; timestamp := timestamp l;
     workspaceId := workspaceId l; filePath := filePath l; readers := Some rs |}.

Definition fallbackFileLock (now : Z) (agentId workspaceId filePath : string)
    (lockType : Redis.LockType) (storage : gmap string FallbackLock)
  : option string * gmap string FallbackLock :=
  let lockKey := workspaceId ++ ":" ++ filePath in
  match storage !! lockKey with
  | Some existingLock =>
      if Redis.isRead lockType && Redis.isRead (Bridge.lockType existingLock) then
        let existingLock :=
          setReaders (default [] (readers existingLock) ++ [agentId]) existingLock in
        (Some (lockKey ++ ":readers:" ++ agentId), <[lockKey := existingLock]> storage)
      else (None, storage)
  | None =>
      let lock :=
        {| agentId := agentId; lockType := lockType; timestamp := now;
           workspaceId := workspaceId; filePath := filePath; readers := None |} in
      (Some lockKey, <[lockKey := lock]> storage)
  end.

Definition fallbackLockRelease (lockId agentId : string)
    (storage : gmap string FallbackLock) : bool * gmap string FallbackLock :=
  if JsString.includes ":readers:" lockId then
    let baseKey := JsString.stripReaders lockId in
    match storage !! baseKey with
    | Some lock =>
        match readers lock with
        | Some rs =>
            let rs' := List.filter (fun id => negb (String.eqb id agentId)) rs in
            if (length rs' =? 0)%nat then (true, delete baseKey storage)
            else (true, <[baseKey := setReaders rs' lock]> storage)
        | None => (false, storage)
        end
    | None => (false, storage)
    end
  else
    match storage !! lockId with
    | Some lock =>
        if String.eqb (Bridge.agentId lock) agentId then (true, delete lockId storage)
        else (false, storage)
    | None => (false, storage)
    end.

(** [agent] is in the readers list of the record at [key]. *)
Definition isFallbackReader (storage : gmap string FallbackLock) (key agent : string)
  : bool :=
  match storage !! key with
  | Some lock => existsb (String.eqb agent) (default [] (readers lock))
  | None => false
  end.

End Bridge.

(** ** Concrete runs *)

Module Scenarios.

(** *** Durable store *)

Definition kafkaEnv : Kafka.Env :=
  {| Kafka.now := 1700000000000; Kafka.rnd := "k3j2h1g0f"; Kafka.sendError := None |}.

Definition decisionFor (proposalId : string) : Kafka.Decision :=
  {| Kafka.proposalId := proposalId;
     Kafka.description := "Adopt the architecture";
     Kafka.votes := [("agent1", (Consensus.agree, Some "fits"))];
     Kafka.finalDecision := Kafka.fd_approved;
     Kafka.consensusMethod := Kafka.majority;
     Kafka.implementation := None;
     Kafka.deadline := None |}.

Definition createFile : Kafka.EditData :=
  {| Kafka.operation := Kafka.create; Kafka.previousContent := None;
     Kafka.newContent := Some "content1"; Kafka.patch := None;
     Kafka.startLine := None; Kafka.endLine := None; Kafka.reason := None |}.

(** An edit followed by a decision, on two topics. *)
Definition editThenDecision : list (Kafka.Env * Kafka.Call) :=
  [(kafkaEnv, Kafka.LogFileEdit "agent" "workspace" "session" "/test1.txt" createFile);
   (kafkaEnv, Kafka.LogConsensusDecision "agent" "workspace" "session"
                (decisionFor "proposal_round_3_architecture"))].

(** *** Fast store *)

Definition redisEnv : Redis.Env :=
  {| Redis.now := 1700000000000; Redis.rnd := "x7c9v2b4n"; Redis.lockTimeoutMs := 30000 |}.

Definition lockKey : string := Redis.lockKeyOf "ws1" "/f".

Definition request (agent : string) (lockType : Redis.LockType) (st : Redis.Store)
  : Redis.Reply (option string) * Redis.Store :=
  Redis.requestFileLock redisEnv agent "ws1" "/f" lockType st.

(** agent1 holds the write lock on (ws1, /f). *)
Definition writeHeld : Redis.Store := snd (request "agent1" Redis.write Redis.empty).

(** ... and agent2 has asked for it and waits. *)
Definition writerWaiting : Redis.Store := snd (request "agent2" Redis.write writeHeld).

(** agent1 holds a read lock on (ws1, /f). *)
Definition readHeld : Redis.Store := snd (request "agent1" Redis.read Redis.empty).

Definition requestOf (agent : string) (lockType : Redis.LockType) : Redis.LockRequest :=
  {| Redis.agentId := agent; Redis.lockType := lockType;
     Redis.timestamp := 1700000000000;
     Redis.workspaceId := "ws1"; Redis.filePath := "/f" |}.

(** *** Bridge *)


Definition threeAttempts : Bridge.Config :=
  {| Bridge.healthCheckIntervalMs := 30000%Z;
     Bridge.reconnectAttempts := 3;
     Bridge.reconnectDelayMs := 100 |}.


(** Three attempts, all failing, each preceded by the orchestrator's
    ['error'] event. *)
Definition threeFailures : list Bridge.Input :=
  [Bridge.Error Bridge.redis "connect ECONNREFUSED";
   Bridge.TimerFires 0;
   Bridge.Error Bridge.redis "Redis connection failed";
   Bridge.ConnectThrows 0 "ECONNREFUSED";
   Bridge.TimerFires 0;
   Bridge.Error Bridge.redis "Redis connection failed";
   Bridge.ConnectThrows 0 "ECONNREFUSED";
   Bridge.TimerFires 0;
   Bridge.Error Bridge.redis "Redis connection failed";
   Bridge.ConnectThrows 0 "ECONNREFUSED"].

(** Fallback storage after agentA, then agentB, took a read lock on
    (ws1, /f). *)
Definition twoFallbackReaders : gmap string Bridge.FallbackLock :=
  snd (Bridge.fallbackFileLock 2 "agentB" "ws1" "/f" Redis.read
         (snd (Bridge.fallbackFileLock 1 "agentA" "ws1" "/f" Redis.read ∅))).

End Scenarios.

(** ** Observations on the fast-store lock protocol *)

Module Locks.
Import Redis.

(** The envelope [publishLockEvent] appends to the lock stream. *)
Definition lockEventMessage (env : Env) (eventType : LockEvent)
    (agentId workspaceId filePath : string) (lockType : LockType)
  : WorkspaceStreamMessage :=
  {| id := "lock_" ++ pretty (now env) ++ "_" ++ rnd env;
     msgTimestamp := now env;
     type := file_lock;
     source := agentId;
     target := None;
     priority := high;
     payload := {| eventType := eventType; payloadLockType := lockType |};
     metadata := {| m_agentId := agentId;
                    m_workspaceId := workspaceId;
                    m_filePath := Some filePath;
                    m_lockType := Some lockType;
                    m_correlationId := None;
                    m_retryCount := None |} |}.

(** The object a request stores or queues. *)
Definition lockRecord (env : Env) (agentId workspaceId filePath : string)
    (lockType : LockType) : LockRequest :=
  {| agentId := agentId; lockType := lockType; timestamp := now env;
     workspaceId := workspaceId; filePath := filePath |}.

(** The key holds a list, or nothing. *)
Definition listOrAbsent (st : Store) (k : string) : bool :=
  match keyspace st !! k with
  | None | Some (VList _) => true
  | Some _ => false
  end.

(** The key holds a set, or nothing. *)
Definition setOrAbsent (st : Store) (k : string) : bool :=
  match keyspace st !! k with
  | None | Some (VSet _) => true
  | Some _ => false
  end.

(** A call of [requestFileLock]. *)
Record LockCall := {
  callEnv : Env;
  caller : string;
  callWorkspace : string;
  callFile : string;
  callType : LockType
}.

Definition request (c : LockCall) : M (option string) :=
  requestFileLock (callEnv c) (caller c) (callWorkspace c) (callFile c) (callType c).

Definition keyOf (c : LockCall) : string := lockKeyOf (callWorkspace c) (callFile c).

(** Calls made one after the other, with no release in between, and what
    each returned. *)
Fixpoint requestAll (calls : list LockCall) (st : Store)
  : list (Reply (option string)) * Store :=
  match calls with
  | [] => ([], st)
  | c :: rest =>
      let (reply, st1) := request c st in
      let (replies, st2) := requestAll rest st1 in
      (reply :: replies, st2)
  end.

(** The call returned a lock id. *)
Definition granted (reply : Reply (option string)) : bool :=
  match reply with
  | Returned (Some _) => true
  | _ => false
  end.


(** A computation is mute when it emits no event. *)
Definition mute {A} (c : M A) : Prop :=
  forall st, emitted (snd (c st)) = emitted st.

(** A computation is calm when the only events it emits are [lock_retry]
    events. *)
Definition calm {A} (c : M A) : Prop :=
  forall st, exists requests,
    emitted (snd (c st)) = (emitted st ++ map EvLockRetry requests)%list.

(** Whatever a computation returns satisfies [P]. *)
Definition returns {A} (P : A -> Prop) (c : M A) : Prop :=
  forall st a st', c st = (Returned a, st') -> P a.

(** The value is a string (a lock record or a heartbeat stamp). *)
Definition isStringValue (v : Value) : bool :=
  match v with VString _ _ => true | _ => false end.

End Locks.

Module LockCases.
Import Redis Locks Scenarios.



(** agent1 holds the write lock on (ws1, /f), and agent4 waits on the list
    that a release on (ws1, /f) pops: the waiters list of file [ws1:/f] in
    workspace [locks]. *)
Definition waiterOnPoppedList : Store :=
  let st1 := snd (requestFileLock redisEnv "agent3" "locks" "ws1:/f" write empty) in
  let st2 := snd (requestFileLock redisEnv "agent4" "locks" "ws1:/f" write st1) in
  snd (requestFileLock redisEnv "agent1" "ws1" "/f" write st2).

End LockCases.

(** ** The durable-store orchestrator: call arguments and life cycle
    ([connect], [disconnect]) *)

Module Producer.
Import Kafka.

(** The arguments every logging method takes first. *)
Definition callAgent (c : Call) : string :=
  match c with
  | LogFileEdit a _ _ _ _ | SaveWorkspaceSnapshot a _ _ _ | LogConsensusDecision a _ _ _
  | LogAgentCoordination a _ _ _ | LogConflictResolution a _ _ _
  | StartWorkspaceSession a _ _ _ | EndWorkspaceSession a _ _ _ => a
  end.

Definition callWorkspace (c : Call) : string :=
  match c with
  | LogFileEdit _ w _ _ _ | SaveWorkspaceSnapshot _ w _ _ | LogConsensusDecision _ w _ _
  | LogAgentCoordination _ w _ _ | LogConflictResolution _ w _ _
  | StartWorkspaceSession _ w _ _ | EndWorkspaceSession _ w _ _ => w
  end.

Definition callSession (c : Call) : string :=
  match c with
  | LogFileEdit _ _ s _ _ | SaveWorkspaceSnapshot _ _ s _ | LogConsensusDecision _ _ s _
  | LogAgentCoordination _ _ s _ | LogConflictResolution _ _ s _
  | StartWorkspaceSession _ _ s _ | EndWorkspaceSession _ _ s _ => s
  end.

(** The sequence numbers of the records that [calls] send when the counter
    stands at [counter]: a call whose send fails uses up a number. *)
Fixpoint numbersSent (calls : list (Env * Call)) (counter : N) : list N :=
  match calls with
  | [] => []
  | (env, _) :: rest =>
      match sendError env with
      | None => (counter + 1)%N :: numbersSent rest (counter + 1)
      | Some _ => numbersSent rest (counter + 1)
      end
  end.

(** [connect()]: [failure] is the error that one of [producer.connect],
    [consumer.connect], [consumer.subscribe] and [consumer.run] throws, if
    any does. *)
Definition connect (failure : option string) (o : Orchestrator)
  : Reply unit * Orchestrator :=
  if isConnected o then (Returned tt, o)
  else
    match failure with
    | None =>
        (Returned tt,
         emit EvConnected
           {| isConnected := true; counter := counter o;
              produced := produced o; emitted := emitted o |})
    | Some error =>
        (Thrown error, emit (EvError ("Kafka connection failed: " ++ error)) o)
    end.

(** [disconnect()]: [failure] is the error that [consumer.disconnect] or
    [producer.disconnect] throws, if any does. *)
Definition disconnect (failure : option string) (o : Orchestrator)
  : Reply unit * Orchestrator :=
  let o := {| isConnected := false; counter := counter o;
              produced := produced o; emitted := emitted o |} in
  match failure with
  | None => (Returned tt, emit EvDisconnected o)
  | Some error =>
      (Returned tt, emit (EvError ("Kafka disconnection failed: " ++ error)) o)
  end.

(** What a client does with an instance. *)
Inductive Operation :=
| Connect (failure : option string)
| Disconnect (failure : option string)
| Log (env : Env) (c : Call).

Definition perform (op : Operation) (o : Orchestrator) : Orchestrator :=
  match op with
  | Connect failure => snd (connect failure o)
  | Disconnect failure => snd (disconnect failure o)
  | Log env c => snd (call env c o)
  end.

Definition performAll (ops : list Operation) (o : Orchestrator) : Orchestrator :=
  fold_left (fun o op => perform op o) ops o.

Definition isConnectedEvent (e : Event) : bool :=
  match e with EvConnected => true | _ => false end.

Definition isDisconnect (op : Operation) : bool :=
  match op with Disconnect _ => true | _ => false end.

(** The number of ['connected'] events emitted so far. *)
Definition connectedEvents (o : Orchestrator) : nat :=
  length (List.filter isConnectedEvent (emitted o)).

Definition disconnects (ops : list Operation) : nat :=
  length (List.filter isDisconnect ops).

(** The optional metadata a record carries, by message type. *)
Definition typed (r : ProducerRecord) : Prop :=
  let m := metadata (value r) in
  (is_Some (filePath m) <-> type (value r) = edit_history) /\
  (is_Some (consensusRound m) <-> type (value r) = consensus_decision) /\
  (is_Some (requiresResponse m) <-> type (value r) = agent_coordination) /\
  (topic r = Topics.SESSION_MANAGEMENT -> type (value r) = workspace_snapshot) /\
  (topic r = Topics.EDIT_HISTORY <-> type (value r) = edit_history) /\
  (topic r = Topics.CONSENSUS_DECISIONS <-> type (value r) = consensus_decision) /\
  (topic r = Topics.AGENT_COORDINATION <-> type (value r) = agent_coordination) /\
  (topic r = Topics.CONFLICT_RESOLUTION <-> type (value r) = conflict_resolution).

End Producer.

Module ProducerCases.
Import Kafka Scenarios.

(** The broker refuses the send. *)
Definition brokerDown : Env :=
  {| now := 1700000000001; rnd := "a1b2c3d4e"; sendError := Some "Error: broker down" |}.

Definition editCall : Call := LogFileEdit "agent" "workspace" "session" "/test1.txt" createFile.

End ProducerCases.

(** ** The bridge's lock ids and runs of fallback requests
    ([extractWorkspaceFromLock]) *)

Module Fallback.
Import Bridge.

(** [extractWorkspaceFromLock]: [parts[1]] of the lock id split at [":"]. *)
Definition extractWorkspaceFromLock (lockId : string) : string :=
  let parts := JsString.split ":" lockId in
  if (1 <? length parts)%nat then default "unknown" (JsString.at_ parts 1)
  else "unknown".

(** A call of [fallbackFileLock]. *)
Record LockCall := {
  callNow : Z;
  caller : string;
  callWorkspace : string;
  callFile : string;
  callType : Redis.LockType
}.

Definition request (c : LockCall) (storage : gmap string FallbackLock)
  : option string * gmap string FallbackLock :=
  fallbackFileLock (callNow c) (caller c) (callWorkspace c) (callFile c) (callType c)
    storage.

Definition keyOf (c : LockCall) : string := callWorkspace c ++ ":" ++ callFile c.

(** Calls made one after the other, with no release in between, and what
    each returned. *)
Fixpoint requestAll (calls : list LockCall) (storage : gmap string FallbackLock)
  : list (option string) * gmap string FallbackLock :=
  match calls with
  | [] => ([], storage)
  | c :: rest =>
      let (reply, storage1) := request c storage in
      let (replies, storage2) := requestAll rest storage1 in
      (reply :: replies, storage2)
  end.

End Fallback.

Module FallbackCases.
Import Fallback.

Definition readByA : LockCall :=
  {| callNow := 1; caller := "agentA"; callWorkspace := "ws1"; callFile := "/f";
     callType := Redis.read |}.

Definition readByB : LockCall :=
  {| callNow := 2; caller := "agentB"; callWorkspace := "ws1"; callFile := "/f";
     callType := Redis.read |}.

End FallbackCases.

(** ** The bridge's error bookkeeping and start-up ([initialize]) *)

Module Supervision.
Import Bridge.

(** The input is an ['error'] event of [service]. *)
Definition isErrorOf (service : Service) (input : Input) : bool :=
  match input with
  | Error x _ => Service_eqb x service
  | _ => false
  end.

Definition errorCountOf (service : Service) (s : State) : nat :=
  errorCount (backend service (healthStatus s)).

Definition lastErrorOf (service : Service) (s : State) : option string :=
  lastError (backend service (healthStatus s)).

(** An event of an orchestrator that a listener of the bridge hears: the
    orchestrator's ['connected'], ['disconnected'] and ['error'] events, the
    last with the [message] of the error. *)
Inductive OrchestratorEvent :=
| Connects
| Disconnects
| Fails (message : string).

Definition heard (service : Service) (e : OrchestratorEvent) : Input :=
  match e with
  | Connects => Connected service
  | Disconnects => Disconnected service
  | Fails message => Error service message
  end.

(** What a [connect()] call of an orchestrator does, as the bridge sees it:
    the events the orchestrator emits before the call settles, and the
    [message] of the value thrown when it throws. Both orchestrators return
    at once without an event when they are connected; otherwise they emit
    ['connected'] and return, or emit ['error'] and throw; the client of
    the fast store may add ['error'] events of its own, and a call that
    finds the client connecting waits and may throw without an event. *)
Record ConnectOutcome := {
  during : list OrchestratorEvent;
  thrown : option string
}.

Definition succeeded (outcome : ConnectOutcome) : bool :=
  match thrown outcome with None => true | Some _ => false end.

(** [this.healthStatus.<service>.connected = true] *)
Definition setConnected (service : Service) (s : State) : State :=
  let h := healthStatus s in
  let b := backend service h in
  setHealth (setBackend service
               {| connected := true; lastHealthCheck := lastHealthCheck b;
                  errorCount := errorCount b; lastError := lastError b |} h) s.

(** One of the two [try] blocks of [initialize()]: the [connect()] call with
    what the listeners do during it, then the statements after the [await],
    or the [catch] block. *)
Definition initializeService (cfg : Config) (service : Service)
    (outcome : ConnectOutcome) (s : State) : State :=
  let s := effect (Connect service) s in
  let s := run cfg (map (heard service) (during outcome)) s in
  match thrown outcome with
  | None => emit (connectedEvent service) (setConnected service s)
  | Some message => handleError cfg service message s
  end.

(** [initialize()], up to the ['initialized'] event it ends with: the
    result is the state and the status that event carries. *)
Definition initialize (cfg : Config) (redisOutcome kafkaOutcome : ConnectOutcome)
    (s : State) : State * InfrastructureHealthStatus :=
  let s := initializeService cfg redis redisOutcome s in
  let s := initializeService cfg kafka kafkaOutcome s in
  let s := updateOverallHealth s in
  (s, healthStatus s).

(** The number of [<service>_connected] events in a trace. *)
Definition connectedEvents (service : Service) (tr : list Effect) : nat :=
  length (List.filter
            (fun e => match e, service with
                      | Emit redis_connected, redis => true
                      | Emit kafka_connected, kafka => true
                      | _, _ => false
                      end) tr).

(** The number of ['connected'] events among those of an orchestrator. *)
Definition connects (events : list OrchestratorEvent) : nat :=
  length (List.filter (fun e => match e with Connects => true | _ => false end) events).

(** The errors among the events of an orchestrator since its last
    ['connected'] event, added to [n] when there is none. *)
Definition errorsAfter (events : list OrchestratorEvent) (n : nat) : nat :=
  fold_left (fun n e => match e with
                        | Connects => 0%nat
                        | Disconnects => n
                        | Fails _ => S n
                        end) events n.

End Supervision.

(** ** The bridge's operations over both orchestrators
    ([requestFileLock], [releaseFileLock], [logConsensusDecision] and the
    reconnect callback of [WorkspaceInfrastructureBridge]) *)

Module Workspace.

Inductive OperationType :=
  file_operation | agent_coordination | consensus_action | session_management.

(** [operation.data] of the two lock operations. *)
Inductive OperationData :=
| RequestLockData (filePath : string) (lockType : Redis.LockType)
| ReleaseLockData (lockId : string)
| LogDecisionData (decision : Kafka.Decision).

Record WorkspaceOperation := {
  id : string;
  timestamp : Z;
  type : OperationType;
  agentId : string;
  workspaceId : string;
  data : OperationData;
  requiresPersistence : bool;
  requiresRealtime : bool
}.

(** The bridge with its two orchestrators (both constructed), its fallback
    storage, and the ['workspace_operation'] and ['lock_retry'] events it
    has emitted, oldest first. *)
Record System := {
  bridge : Bridge.State;
  redisOrchestrator : Redis.Store;
  kafkaOrchestrator : Kafka.Orchestrator;
  fallbackStorage : gmap string Bridge.FallbackLock;
  operations : list WorkspaceOperation;
  lockRetries : list Redis.LockRequest
}.

(** What one call of a bridge method reads from its environment: the clock
    and random suffixes of the bridge's own ids, the environments of the
    orchestrator calls it makes, and the [message] property of the value a
    failed producer call throws. *)
Record Env := {
  now : Z;
  operationRnd : string;
  sessionRnd : string;
  redisEnv : Redis.Env;
  kafkaEnv : Kafka.Env;
  thrownMessage : string
}.

Definition withBridge (f : Bridge.State -> Bridge.State) (sys : System) : System :=
  {| bridge := f (bridge sys); redisOrchestrator := redisOrchestrator sys;
     kafkaOrchestrator := kafkaOrchestrator sys; fallbackStorage := fallbackStorage sys;
     operations := operations sys; lockRetries := lockRetries sys |}.

Definition withRedis (st : Redis.Store) (sys : System) : System :=
  {| bridge := bridge sys; redisOrchestrator := st;
     kafkaOrchestrator := kafkaOrchestrator sys; fallbackStorage := fallbackStorage sys;
     operations := operations sys; lockRetries := lockRetries sys |}.

Definition withKafka (o : Kafka.Orchestrator) (sys : System) : System :=
  {| bridge := bridge sys; redisOrchestrator := redisOrchestrator sys;
     kafkaOrchestrator := o; fallbackStorage := fallbackStorage sys;
     operations := operations sys; lockRetries := lockRetries sys |}.

Definition withFallback (storage : gmap string Bridge.FallbackLock) (sys : System)
  : System :=
  {| bridge := bridge sys; redisOrchestrator := redisOrchestrator sys;
     kafkaOrchestrator := kafkaOrchestrator sys; fallbackStorage := storage;
     operations := operations sys; lockRetries := lockRetries sys |}.

(** [emitOperation] *)
Definition emitOperation (operation : WorkspaceOperation) (sys : System) : System :=
  {| bridge := bridge sys; redisOrchestrator := redisOrchestrator sys;
     kafkaOrchestrator := kafkaOrchestrator sys; fallbackStorage := fallbackStorage sys;
     operations := operations sys ++ [operation]; lockRetries := lockRetries sys |}.

(** The listeners that [setupRedisEventHandlers] puts on the fast-store
    orchestrator. *)
Definition onRedisEvent (cfg : Bridge.Config) (sys : System) (e : Redis.Event) : System :=
  match e with
  | Redis.EvError message => withBridge (Bridge.handleRedisError cfg message) sys
  | Redis.EvLockRetry request =>
      {| bridge := bridge sys; redisOrchestrator := redisOrchestrator sys;
         kafkaOrchestrator := kafkaOrchestrator sys;
         fallbackStorage := fallbackStorage sys;
         operations := operations sys; lockRetries := lockRetries sys ++ [request] |}
  end.

(** The listeners that [setupKafkaEventHandlers] puts on the durable-store
    orchestrator. *)
Definition onKafkaEvent (cfg : Bridge.Config) (sys : System) (e : Kafka.Event) : System :=
  match e with
  | Kafka.EvConnected => withBridge (Bridge.onConnected Bridge.kafka) sys
  | Kafka.EvDisconnected => withBridge (Bridge.onDisconnected Bridge.kafka) sys
  | Kafka.EvError message => withBridge (Bridge.handleKafkaError cfg message) sys
  end.

(** A method of the fast-store orchestrator runs; the events it emits reach
    the bridge's listeners. *)
Definition callRedis {A} (cfg : Bridge.Config) (method : Redis.M A) (sys : System)
  : Redis.Reply A * System :=
  let (reply, st') := method (redisOrchestrator sys) in
  (reply,
   fold_left (onRedisEvent cfg) (Redis.retries (redisOrchestrator sys) st')
     (withRedis st' sys)).

(** The same for the durable-store orchestrator. *)
Definition callKafka {A} (cfg : Bridge.Config)
    (method : Kafka.Orchestrator -> Kafka.Reply A * Kafka.Orchestrator) (sys : System)
  : Kafka.Reply A * System :=
  let (reply, o') := method (kafkaOrchestrator sys) in
  (reply,
   fold_left (onKafkaEvent cfg)
     (skipn (length (Kafka.emitted (kafkaOrchestrator sys))) (Kafka.emitted o'))
     (withKafka o' sys)).

Definition redisConnected (sys : System) : bool :=
  Bridge.connected (Bridge.redisHealth (Bridge.healthStatus (bridge sys))).

Definition kafkaConnected (sys : System) : bool :=
  Bridge.connected (Bridge.kafkaHealth (Bridge.healthStatus (bridge sys))).

(** [lockId && ...]: a string is truthy when it is not empty. *)
Definition truthy (lockId : option string) : bool :=
  match lockId with
  | Some s => negb (String.eqb s "")
  | None => false
  end.

Definition generateOperationId (env : Env) : string :=
  "op_" ++ pretty (now env) ++ "_" ++ operationRnd env.

Definition generateSessionId (env : Env) : string :=
  "session_" ++ pretty (now env) ++ "_" ++ sessionRnd env.

(** The lock type as it appears in a template literal. *)
Definition lockTypeName (t : Redis.LockType) : string :=
  match t with
  | Redis.read => "read"
  | Redis.write => "write"
  | Redis.exclusive => "exclusive"
  end.

(** The audit entry of a lock operation: [{operation: 'update', reason}]. *)
Definition auditEdit (reason : string) : Kafka.EditData :=
  {| Kafka.operation := Kafka.update; Kafka.previousContent := None;
     Kafka.newContent := None; Kafka.patch := None; Kafka.startLine := None;
     Kafka.endLine := None; Kafka.reason := Some reason |}.

Definition fallbackFileLock (env : Env) (agentId workspaceId filePath : string)
    (lockType : Redis.LockType) (sys : System) : option string * System :=
  let (lockId, storage) :=
    Bridge.fallbackFileLock (now env) agentId workspaceId filePath lockType
      (fallbackStorage sys) in
  (lockId, withFallback storage sys).

Definition fallbackLockRelease (lockId agentId : string) (sys : System) : bool * System :=
  let (released, storage) :=
    Bridge.fallbackLockRelease lockId agentId (fallbackStorage sys) in
  (released, withFallback storage sys).

(** [WorkspaceInfrastructureBridge.requestFileLock] *)
Definition requestFileLock (cfg : Bridge.Config) (env : Env)
    (agentId workspaceId filePath : string) (lockType : Redis.LockType) (sys : System)
  : option string * System :=
  let operation :=
    {| id := generateOperationId env; timestamp := now env; type := file_operation;
       agentId := agentId; workspaceId := workspaceId;
       data := RequestLockData filePath lockType;
       requiresPersistence := true; requiresRealtime := true |} in
  if redisConnected sys then
    match callRedis cfg
            (Redis.requestFileLock (redisEnv env) agentId workspaceId filePath lockType)
            sys with
    | (Redis.Returned lockId, sys) =>
        if truthy lockId && kafkaConnected sys then
          match callKafka cfg
                  (Kafka.logFileEdit (kafkaEnv env) agentId workspaceId
                     (generateSessionId env) filePath
                     (auditEdit ("Lock acquired: " ++ lockTypeName lockType)))
                  sys with
          | (Kafka.Returned _, sys) => (lockId, emitOperation operation sys)
          | (Kafka.Thrown _, sys) =>
              fallbackFileLock env agentId workspaceId filePath lockType
                (withBridge (Bridge.handleRedisError cfg (thrownMessage env)) sys)
          end
        else (lockId, emitOperation operation sys)
    | (Redis.Thrown _, sys) =>
        fallbackFileLock env agentId workspaceId filePath lockType
          (withBridge (Bridge.handleRedisError cfg (thrownMessage env)) sys)
    end
  else fallbackFileLock env agentId workspaceId filePath lockType sys.

(** [WorkspaceInfrastructureBridge.releaseFileLock] *)
Definition releaseFileLock (cfg : Bridge.Config) (env : Env) (lockId agentId : string)
    (sys : System) : bool * System :=
  let operation :=
    {| id := generateOperationId env; timestamp := now env; type := file_operation;
       agentId := agentId;
       workspaceId := Fallback.extractWorkspaceFromLock lockId;
       data := ReleaseLockData lockId;
       requiresPersistence := true; requiresRealtime := true |} in
  if redisConnected sys then
    match callRedis cfg (Redis.releaseFileLock (redisEnv env) lockId agentId) sys with
    | (Redis.Returned released, sys) =>
        if (released : bool) && kafkaConnected sys then
          match callKafka cfg
                  (Kafka.logFileEdit (kafkaEnv env) agentId (workspaceId operation)
                     (generateSessionId env) "" (auditEdit "Lock released"))
                  sys with
          | (Kafka.Returned _, sys) => (released, emitOperation operation sys)
          | (Kafka.Thrown _, sys) =>
              fallbackLockRelease lockId agentId
                (withBridge (Bridge.handleRedisError cfg (thrownMessage env)) sys)
          end
        else (released, emitOperation operation sys)
    | (Redis.Thrown _, sys) =>
        fallbackLockRelease lockId agentId
          (withBridge (Bridge.handleRedisError cfg (thrownMessage env)) sys)
    end
  else fallbackLockRelease lockId agentId sys.

(** [WorkspaceInfrastructureBridge.logConsensusDecision] *)
Definition logConsensusDecision (cfg : Bridge.Config) (env : Env)
    (agentId workspaceId : string) (decision : Kafka.Decision) (sys : System) : System :=
  let operation :=
    {| id := generateOperationId env; timestamp := now env; type := consensus_action;
       agentId := agentId; workspaceId := workspaceId;
       data := LogDecisionData decision;
       requiresPersistence := true; requiresRealtime := false |} in
  let sys :=
    if kafkaConnected sys then
      match callKafka cfg
              (Kafka.logConsensusDecision (kafkaEnv env) agentId workspaceId
                 (generateSessionId env) decision)
              sys with
      | (Kafka.Returned _, sys) => sys
      | (Kafka.Thrown _, sys) =>
          withBridge (Bridge.handleKafkaError cfg (thrownMessage env)) sys
      end
    else sys in
  emitOperation operation sys.

(** The callback that [attemptReconnect] passes to [setTimeout], run to its
    end: the [i]-th pending timer comes due, [connect()] is called on the
    orchestrator of its service and settles, and the [catch] and [finally]
    blocks run. The durable-store orchestrator's [connect()] is
    [Producer.connect]; the fast-store orchestrator's is given by its
    outcome. *)
Definition reconnectTimer (cfg : Bridge.Config) (i : nat)
    (redisOutcome : Supervision.ConnectOutcome) (kafkaFailure : option string)
    (sys : System) : System :=
  match nth_error (Bridge.timers (bridge sys)) i with
  | None => sys
  | Some t =>
      let sys := withBridge (Bridge.timerFires i) sys in
      let j := (length (Bridge.awaiting (bridge sys)) - 1)%nat in
      match Bridge.timerService t with
      | Bridge.kafka =>
          match callKafka cfg (Producer.connect kafkaFailure) sys with
          | (Kafka.Returned _, sys) => withBridge (Bridge.connectReturns j) sys
          | (Kafka.Thrown error, sys) => withBridge (Bridge.connectThrows cfg j error) sys
          end
      | Bridge.redis =>
          let sys :=
            withBridge
              (Bridge.run cfg
                 (map (Supervision.heard Bridge.redis) (Supervision.during redisOutcome)))
              sys in
          match Supervision.thrown redisOutcome with
          | None => withBridge (Bridge.connectReturns j) sys
          | Some error => withBridge (Bridge.connectThrows cfg j error) sys
          end
      end
  end.

(** What happens to the bridge after a failure: decisions are logged and
    reconnect timers come due. *)
Inductive Step :=
| RequestLock (env : Env) (agentId workspaceId filePath : string) (lockType : Redis.LockType)
| ReleaseLock (env : Env) (lockId agentId : string)
| LogDecision (env : Env) (agentId workspaceId : string) (decision : Kafka.Decision)
| ReconnectTimer (i : nat) (redisOutcome : Supervision.ConnectOutcome)
    (kafkaFailure : option string).

Definition perform (cfg : Bridge.Config) (sys : System) (step : Step) : System :=
  match step with
  | RequestLock env agentId workspaceId filePath lockType =>
      snd (requestFileLock cfg env agentId workspaceId filePath lockType sys)
  | ReleaseLock env lockId agentId =>
      snd (releaseFileLock cfg env lockId agentId sys)
  | LogDecision env agentId workspaceId decision =>
      logConsensusDecision cfg env agentId workspaceId decision sys
  | ReconnectTimer i redisOutcome kafkaFailure =>
      reconnectTimer cfg i redisOutcome kafkaFailure sys
  end.

End Workspace.

Module WorkspaceCases.
Import Workspace.

(** Both orchestrators have reported ['connected']. *)
Definition bothConnected : Bridge.State :=
  Bridge.run Scenarios.threeAttempts [Bridge.Connected Bridge.redis; Bridge.Connected Bridge.kafka]
    Bridge.new.

Definition healthySystem : System :=
  {| bridge := bothConnected; redisOrchestrator := Redis.empty;
     kafkaOrchestrator := Kafka.new; fallbackStorage := ∅;
     operations := []; lockRetries := [] |}.

(** ... and agent1 holds the write lock on (ws1, /f) in the fast store. *)
Definition lockHeldSystem : System :=
  {| bridge := bothConnected; redisOrchestrator := Scenarios.writeHeld;
     kafkaOrchestrator := Kafka.new; fallbackStorage := ∅;
     operations := []; lockRetries := [] |}.

Definition strayValue : Redis.Value := Redis.VSet {[ "agent9" ]}.

(** ... or the lock key of (ws1, /f) holds a set. *)
Definition wrongTypeSystem : System :=
  {| bridge := bothConnected;
     redisOrchestrator :=
       {| Redis.keyspace := {[ Scenarios.lockKey := strayValue ]};
          Redis.streams := []; Redis.emitted := [] |};
     kafkaOrchestrator := Kafka.new; fallbackStorage := ∅;
     operations := []; lockRetries := [] |}.

(** Both orchestrators are connected and the bridge has heard of it. *)
Definition runningSystem : System :=
  {| bridge := bothConnected; redisOrchestrator := Redis.empty;
     kafkaOrchestrator := snd (Producer.connect None Kafka.new); fallbackStorage := ∅;
     operations := []; lockRetries := [] |}.

Definition auditUp : Env :=
  {| now := 1700000000002; operationRnd := "q1w2e3r4t"; sessionRnd := "z9y8x7w6v";
     redisEnv := Scenarios.redisEnv; kafkaEnv := Scenarios.kafkaEnv;
     thrownMessage := "" |}.

Definition auditDown : Env :=
  {| now := 1700000000002; operationRnd := "q1w2e3r4t"; sessionRnd := "z9y8x7w6v";
     redisEnv := Scenarios.redisEnv; kafkaEnv := ProducerCases.brokerDown;
     thrownMessage := "broker down" |}.

(** After a failed write: the reconnect timer comes due and [connect()]
    would succeed, a decision is logged and a lock is requested, both with
    a broker that accepts every send. *)
Definition afterFailure : list Step :=
  [ReconnectTimer 0 {| Supervision.during := []; Supervision.thrown := None |} None;
   LogDecision auditUp "agent1" "ws1" (Scenarios.decisionFor "p2");
   RequestLock auditUp "agent1" "ws1" "/f" Redis.write].

End WorkspaceCases.

(** ** Workspace configuration ([WorkspaceConfigBuilder],
    [WorkspaceConfigPresets], [WorkspaceConfigValidator]) *)

Module Config.

(** [x || d] on the kinds of value the builder defaults. A number is falsy
    when it is 0, a string when it is empty; an array or an object never is.
    [None] is [undefined]. *)
Definition orNumber (x : option Z) (d : Z) : Z :=
  match x with
  | Some n => if (n =? 0)%Z then d else n
  | None => d
  end.

Definition orFraction (x : option Q) (d : Q) : Q :=
  match x with
  | Some q => if Qeq_bool q 0 then d else q
  | None => d
  end.

Definition orString (x : option string) (d : string) : string :=
  match x with
  | Some s => if String.eqb s "" then d else s
  | None => d
  end.

Definition orObject {A} (x : option A) (d : A) : A := default d x.

(** [x || false] *)
Definition orFalse (x : option bool) : bool :=
  match x with Some true => true | _ => false end.

(** [x !== false] *)
Definition notFalse (x : option bool) : bool :=
  match x with Some false => false | _ => true end.

Record RedisWorkspaceConfig := {
  host : string;
  port : Z;
  db : Z;
  streamPrefix : string;
  consumerGroup : string;
  consumerName : string;
  maxPendingMessages : Z;
  redisHeartbeatIntervalMs : Z;
  redisLockTimeoutMs : Z;
  messageRetentionMs : Z;
  password : option string
}.

Record PartialRedis := {
  p_host : option string;
  p_port : option Z;
  p_db : option Z;
  p_streamPrefix : option string;
  p_consumerGroup : option string;
  p_consumerName : option string;
  p_maxPendingMessages : option Z;
  p_redisHeartbeatIntervalMs : option Z;
  p_redisLockTimeoutMs : option Z;
  p_messageRetentionMs : option Z;
  p_password : option string
}.

Inductive SaslMechanism := plain | scram_sha_256 | scram_sha_512.

Record Sasl := { mechanism : SaslMechanism; username : string; saslPassword : string }.

Record RetrySettings := { initialRetryTime : Z; retries : Z; maxRetryTime : Z }.

Record BatchSettings := { batchSize : Z; lingerMs : Z }.

Record KafkaWorkspaceConfig := {
  clientId : string;
  brokers : list string;
  ssl : bool;
  groupId : string;
  sessionTimeoutMs : Z;
  kafkaHeartbeatIntervalMs : Z;
  retrySettings : RetrySettings;
  batchSettings : BatchSettings;
  sasl : option Sasl
}.

Record PartialKafka := {
  p_clientId : option string;
  p_brokers : option (list string);
  p_ssl : option bool;
  p_groupId : option string;
  p_sessionTimeoutMs : option Z;
  p_kafkaHeartbeatIntervalMs : option Z;
  p_retrySettings : option RetrySettings;
  p_batchSettings : option BatchSettings;
  p_sasl : option Sasl
}.

Inductive FallbackMode := memory | file | disabled.

(** [config.infrastructure]: an object that starts as [{}] and is filled by
    the three infrastructure methods. *)
Record Infrastructure := {
  redis : option RedisWorkspaceConfig;
  kafka : option KafkaWorkspaceConfig;
  fallbackMode : option FallbackMode;
  healthCheckIntervalMs : option Z;
  reconnectAttempts : option Z;
  reconnectDelayMs : option Z
}.

Record WorkspaceLimits := {
  maxAgentsPerWorkspace : Z;
  maxFilesPerWorkspace : Z;
  maxFileSizeBytes : Z;
  maxConcurrentEdits : Z;
  maxSessionDurationMs : Z;
  lockTimeoutMs : Z;
  consensusTimeoutMs : Z
}.

Record PartialLimits := {
  p_maxAgentsPerWorkspace : option Z;
  p_maxFilesPerWorkspace : option Z;
  p_maxFileSizeBytes : option Z;
  p_maxConcurrentEdits : option Z;
  p_maxSessionDurationMs : option Z;
  p_lockTimeoutMs : option Z;
  p_consensusTimeoutMs : option Z
}.

Record WorkspaceSecurityConfig := {
  enableFileLocking : bool;
  enableEditHistory : bool;
  enableAuditLogging : bool;
  maxLockDurationMs : Z;
  allowConcurrentReads : bool;
  requireAgentAuthentication : bool
}.

Record PartialSecurity := {
  p_enableFileLocking : option bool;
  p_enableEditHistory : option bool;
  p_enableAuditLogging : option bool;
  p_maxLockDurationMs : option Z;
  p_allowConcurrentReads : option bool;
  p_requireAgentAuthentication : option bool
}.

Inductive CoordinationStrategy := round_robin | capability_based | load_balanced.
Inductive ConflictResolutionStrategy := queue | priority | negotiate.

Record AgentCoordinationConfig := {
  heartbeatIntervalMs : Z;
  taskTimeoutMs : Z;
  maxRetryAttempts : Z;
  coordinationStrategy : CoordinationStrategy;
  conflictResolutionStrategy : ConflictResolutionStrategy
}.

Record PartialAgentCoordination := {
  p_heartbeatIntervalMs : option Z;
  p_taskTimeoutMs : option Z;
  p_maxRetryAttempts : option Z;
  p_coordinationStrategy : option CoordinationStrategy;
  p_conflictResolutionStrategy : option ConflictResolutionStrategy
}.

Inductive ConsensusMethod := majority | weighted | unanimous | delegate.
Inductive WeightingStrategy := equal | capability | model_based | experience.
Inductive DeadlockResolution := escalate | random | delegate_to_human.

Record ConsensusConfig := {
  defaultMethod : ConsensusMethod;
  majorityThreshold : Q;
  weightingStrategy : WeightingStrategy;
  voteTimeoutMs : Z;
  maxConsensusRounds : Z;
  deadlockResolution : DeadlockResolution
}.

Record PartialConsensus := {
  p_defaultMethod : option ConsensusMethod;
  p_majorityThreshold : option Q;
  p_weightingStrategy : option WeightingStrategy;
  p_voteTimeoutMs : option Z;
  p_maxConsensusRounds : option Z;
  p_deadlockResolution : option DeadlockResolution
}.

(** The four properties that [withStorage] writes together. *)
Record Storage := {
  workspaceRoot : string;
  tempDirectory : string;
  exportDirectory : string;
  snapshotIntervalMs : Z
}.

(** The three properties that [withDebug] writes together. *)
Record Debug := {
  enableDebugLogging : bool;
  enableMetrics : bool;
  metricsPort : option Z
}.

(** [WorkspaceConfigBuilder]: its private [config], a
    [Partial<WorkspaceConfiguration>]. *)
Record Builder := {
  b_infrastructure : option Infrastructure;
  b_limits : option WorkspaceLimits;
  b_security : option WorkspaceSecurityConfig;
  b_agentCoordination : option AgentCoordinationConfig;
  b_consensus : option ConsensusConfig;
  b_storage : option Storage;
  b_debug : option Debug
}.

(** [new WorkspaceConfigBuilder()] *)
Definition newBuilder : Builder :=
  {| b_infrastructure := None; b_limits := None; b_security := None;
     b_agentCoordination := None; b_consensus := None; b_storage := None;
     b_debug := None |}.

(** What [build()] returns. The four supervisor settings of
    [infrastructure] are present only if [withInfrastructureDefaults] was
    called. *)
Record WorkspaceConfiguration := {
  infrastructure : Infrastructure;
  limits : WorkspaceLimits;
  security : WorkspaceSecurityConfig;
  agentCoordination : AgentCoordinationConfig;
  consensus : ConsensusConfig;
  storage : Storage;
  debug : Debug
}.

Definition emptyInfrastructure : Infrastructure :=
  {| redis := None; kafka := None; fallbackMode := None;
     healthCheckIntervalMs := None; reconnectAttempts := None;
     reconnectDelayMs := None |}.

Definition setInfrastructure (i : Infrastructure) (b : Builder) : Builder :=
  {| b_infrastructure := Some i; b_limits := b_limits b; b_security := b_security b;
     b_agentCoordination := b_agentCoordination b; b_consensus := b_consensus b;
     b_storage := b_storage b; b_debug := b_debug b |}.

Definition withRedis (now : Z) (redisConfig : PartialRedis) (b : Builder) : Builder :=
  let i := default emptyInfrastructure (b_infrastructure b) in
  setInfrastructure
    {| redis :=
         Some {| host := orString (p_host redisConfig) "localhost";
                 port := orNumber (p_port redisConfig) 6379;
                 db := orNumber (p_db redisConfig) 0;
                 streamPrefix := orString (p_streamPrefix redisConfig) "autogen";
                 consumerGroup :=
                   orString (p_consumerGroup redisConfig) "autogen-workspace";
                 consumerName :=
                   orString (p_consumerName redisConfig) ("autogen-" ++ pretty now);
                 maxPendingMessages := orNumber (p_maxPendingMessages redisConfig) 1000;
                 redisHeartbeatIntervalMs :=
                   orNumber (p_redisHeartbeatIntervalMs redisConfig) 5000;
                 redisLockTimeoutMs := orNumber (p_redisLockTimeoutMs redisConfig) 30000;
                 messageRetentionMs :=
                   orNumber (p_messageRetentionMs redisConfig) 3600000;
                 password := p_password redisConfig |};
       kafka := kafka i; fallbackMode := fallbackMode i;
       healthCheckIntervalMs := healthCheckIntervalMs i;
       reconnectAttempts := reconnectAttempts i;
       reconnectDelayMs := reconnectDelayMs i |} b.

Definition withKafka (kafkaConfig : PartialKafka) (b : Builder) : Builder :=
  let i := default emptyInfrastructure (b_infrastructure b) in
  setInfrastructure
    {| redis := redis i;
       kafka :=
         Some {| clientId := orString (p_clientId kafkaConfig) "autogen-workspace";
                 brokers := orObject (p_brokers kafkaConfig) ["localhost:9092"];
                 ssl := orFalse (p_ssl kafkaConfig);
                 groupId := orString (p_groupId kafkaConfig) "autogen-workspace-group";
                 sessionTimeoutMs := orNumber (p_sessionTimeoutMs kafkaConfig) 30000;
                 kafkaHeartbeatIntervalMs :=
                   orNumber (p_kafkaHeartbeatIntervalMs kafkaConfig) 3000;
                 retrySettings :=
                   orObject (p_retrySettings kafkaConfig)
                     {| initialRetryTime := 100; retries := 8; maxRetryTime := 30000 |};
                 batchSettings :=
                   orObject (p_batchSettings kafkaConfig)
                     {| batchSize := 16384; lingerMs := 5 |};
                 sasl := p_sasl kafkaConfig |};
       fallbackMode := fallbackMode i;
       healthCheckIntervalMs := healthCheckIntervalMs i;
       reconnectAttempts := reconnectAttempts i;
       reconnectDelayMs := reconnectDelayMs i |} b.

Definition withInfrastructureDefaults (b : Builder) : Builder :=
  let i := default emptyInfrastructure (b_infrastructure b) in
  setInfrastructure
    {| redis := redis i; kafka := kafka i; fallbackMode := Some memory;
       healthCheckIntervalMs := Some 10000%Z; reconnectAttempts := Some 5%Z;
       reconnectDelayMs := Some 1000%Z |} b.

Definition limitsOf (l : PartialLimits) : WorkspaceLimits :=
  {| maxAgentsPerWorkspace := orNumber (p_maxAgentsPerWorkspace l) 10;
     maxFilesPerWorkspace := orNumber (p_maxFilesPerWorkspace l) 100;
     maxFileSizeBytes := orNumber (p_maxFileSizeBytes l) (10 * 1024 * 1024);
     maxConcurrentEdits := orNumber (p_maxConcurrentEdits l) 5;
     maxSessionDurationMs := orNumber (p_maxSessionDurationMs l) (2 * 60 * 60 * 1000);
     lockTimeoutMs := orNumber (p_lockTimeoutMs l) 30000;
     consensusTimeoutMs := orNumber (p_consensusTimeoutMs l) 60000 |}.

Definition withLimits (l : PartialLimits) (b : Builder) : Builder :=
  {| b_infrastructure := b_infrastructure b; b_limits := Some (limitsOf l);
     b_security := b_security b; b_agentCoordination := b_agentCoordination b;
     b_consensus := b_consensus b; b_storage := b_storage b; b_debug := b_debug b |}.

Definition securityOf (s : PartialSecurity) : WorkspaceSecurityConfig :=
  {| enableFileLocking := notFalse (p_enableFileLocking s);
     enableEditHistory := notFalse (p_enableEditHistory s);
     enableAuditLogging := notFalse (p_enableAuditLogging s);
     maxLockDurationMs := orNumber (p_maxLockDurationMs s) 300000;
     allowConcurrentReads := notFalse (p_allowConcurrentReads s);
     requireAgentAuthentication := orFalse (p_requireAgentAuthentication s) |}.

Definition withSecurity (s : PartialSecurity) (b : Builder) : Builder :=
  {| b_infrastructure := b_infrastructure b; b_limits := b_limits b;
     b_security := Some (securityOf s); b_agentCoordination := b_agentCoordination b;
     b_consensus := b_consensus b; b_storage := b_storage b; b_debug := b_debug b |}.

Definition agentCoordinationOf (c : PartialAgentCoordination) : AgentCoordinationConfig :=
  {| heartbeatIntervalMs := orNumber (p_heartbeatIntervalMs c) 5000;
     taskTimeoutMs := orNumber (p_taskTimeoutMs c) 120000;
     maxRetryAttempts := orNumber (p_maxRetryAttempts c) 3;
     coordinationStrategy := orObject (p_coordinationStrategy c) capability_based;
     conflictResolutionStrategy := orObject (p_conflictResolutionStrategy c) queue |}.

Definition withAgentCoordination (c : PartialAgentCoordination) (b : Builder) : Builder :=
  {| b_infrastructure := b_infrastructure b; b_limits := b_limits b;
     b_security := b_security b; b_agentCoordination := Some (agentCoordinationOf c);
     b_consensus := b_consensus b; b_storage := b_storage b; b_debug := b_debug b |}.

Definition consensusOf (c : PartialConsensus) : ConsensusConfig :=
  {| defaultMethod := orObject (p_defaultMethod c) majority;
     majorityThreshold := orFraction (p_majorityThreshold c) (6 # 10);
     weightingStrategy := orObject (p_weightingStrategy c) capability;
     voteTimeoutMs := orNumber (p_voteTimeoutMs c) 30000;
     maxConsensusRounds := orNumber (p_maxConsensusRounds c) 3;
     deadlockResolution := orObject (p_deadlockResolution c) escalate |}.

Definition withConsensus (c : PartialConsensus) (b : Builder) : Builder :=
  {| b_infrastructure := b_infrastructure b; b_limits := b_limits b;
     b_security := b_security b; b_agentCoordination := b_agentCoordination b;
     b_consensus := Some (consensusOf c); b_storage := b_storage b;
     b_debug := b_debug b |}.

Definition storageOf (workspaceRoot : string) (tempDirectory exportDirectory : option string)
  : Storage :=
  {| workspaceRoot := workspaceRoot;
     tempDirectory := orString tempDirectory (workspaceRoot ++ "/temp");
     exportDirectory := orString exportDirectory (workspaceRoot ++ "/exports");
     snapshotIntervalMs := 60000 |}.

Definition withStorage (workspaceRoot : string) (tempDirectory exportDirectory : option string)
    (b : Builder) : Builder :=
  {| b_infrastructure := b_infrastructure b; b_limits := b_limits b;
     b_security := b_security b; b_agentCoordination := b_agentCoordination b;
     b_consensus := b_consensus b;
     b_storage := Some (storageOf workspaceRoot tempDirectory exportDirectory);
     b_debug := b_debug b |}.

(** The first two parameters default to [true]. *)
Definition withDebug (enableDebugLogging enableMetrics : option bool)
    (metricsPort : option Z) (b : Builder) : Builder :=
  {| b_infrastructure := b_infrastructure b; b_limits := b_limits b;
     b_security := b_security b; b_agentCoordination := b_agentCoordination b;
     b_consensus := b_consensus b; b_storage := b_storage b;
     b_debug := Some {| enableDebugLogging := default true enableDebugLogging;
                        enableMetrics := default true enableMetrics;
                        metricsPort := metricsPort |} |}.

Definition emptyLimits : PartialLimits :=
  {| p_maxAgentsPerWorkspace := None; p_maxFilesPerWorkspace := None;
     p_maxFileSizeBytes := None; p_maxConcurrentEdits := None;
     p_maxSessionDurationMs := None; p_lockTimeoutMs := None;
     p_consensusTimeoutMs := None |}.

Definition emptySecurity : PartialSecurity :=
  {| p_enableFileLocking := None; p_enableEditHistory := None;
     p_enableAuditLogging := None; p_maxLockDurationMs := None;
     p_allowConcurrentReads := None; p_requireAgentAuthentication := None |}.

Definition emptyAgentCoordination : PartialAgentCoordination :=
  {| p_heartbeatIntervalMs := None; p_taskTimeoutMs := None; p_maxRetryAttempts := None;
     p_coordinationStrategy := None; p_conflictResolutionStrategy := None |}.

Definition emptyConsensus : PartialConsensus :=
  {| p_defaultMethod := None; p_majorityThreshold := None; p_weightingStrategy := None;
     p_voteTimeoutMs := None; p_maxConsensusRounds := None;
     p_deadlockResolution := None |}.

(** [build()]: [inl message] is the error thrown. *)
Definition build (b : Builder) : string + WorkspaceConfiguration :=
  match b_infrastructure b with
  | None => inl "Infrastructure configuration is required"
  | Some i =>
      match redis i with
      | None => inl "Redis configuration is required"
      | Some _ =>
          match kafka i with
          | None => inl "Kafka configuration is required"
          | Some _ =>
              inr {| infrastructure := i;
                     limits := default (limitsOf emptyLimits) (b_limits b);
                     security := default (securityOf emptySecurity) (b_security b);
                     agentCoordination :=
                       default (agentCoordinationOf emptyAgentCoordination)
                         (b_agentCoordination b);
                     consensus := default (consensusOf emptyConsensus) (b_consensus b);
                     storage :=
                       match b_storage b with
                       | Some s =>
                           if String.eqb (workspaceRoot s) ""
                           then storageOf "./workspace" None None
                           else s
                       | None => storageOf "./workspace" None None
                       end;
                     debug :=
                       default {| enableDebugLogging := false; enableMetrics := false;
                                  metricsPort := None |} (b_debug b) |}
          end
      end
  end.

Definition ifTrue (condition : bool) (message : string) : list string :=
  if condition then [message] else [].

(** [WorkspaceConfigValidator.validate] on a configuration whose [redis] and
    [kafka] sections are present ([None] otherwise: the property access
    throws a [TypeError]). *)
Definition validate (config : WorkspaceConfiguration) : option (list string) :=
  match redis (infrastructure config), kafka (infrastructure config) with
  | Some r, Some k =>
      Some
        (ifTrue (String.eqb (host r) "") "Redis host is required"
         ++ ifTrue (length (brokers k) =? 0)%nat "At least one Kafka broker is required"
         ++ ifTrue (maxAgentsPerWorkspace (limits config) <? 1)%Z
              "maxAgentsPerWorkspace must be at least 1"
         ++ ifTrue
              (negb (Qeq_bool (majorityThreshold (consensus config)) 0)
               && (negb (Qle_bool 0 (majorityThreshold (consensus config)))
                   || negb (Qle_bool (majorityThreshold (consensus config)) 1)))
              "majorityThreshold must be between 0 and 1"
         ++ ifTrue (String.eqb (workspaceRoot (storage config)) "")
              "workspaceRoot is required")%list
  | _, _ => None
  end.

(** A method call on the builder. *)
Inductive Call :=
| WithRedis (now : Z) (redisConfig : PartialRedis)
| WithKafka (kafkaConfig : PartialKafka)
| WithInfrastructureDefaults
| WithLimits (l : PartialLimits)
| WithSecurity (s : PartialSecurity)
| WithAgentCoordination (c : PartialAgentCoordination)
| WithConsensus (c : PartialConsensus)
| WithStorage (workspaceRoot : string) (tempDirectory exportDirectory : option string)
| WithDebug (enableDebugLogging enableMetrics : option bool) (metricsPort : option Z).

Definition call (b : Builder) (c : Call) : Builder :=
  match c with
  | WithRedis now r => withRedis now r b
  | WithKafka k => withKafka k b
  | WithInfrastructureDefaults => withInfrastructureDefaults b
  | WithLimits l => withLimits l b
  | WithSecurity s => withSecurity s b
  | WithAgentCoordination c => withAgentCoordination c b
  | WithConsensus c => withConsensus c b
  | WithStorage root temp export => withStorage root temp export b
  | WithDebug d m p => withDebug d m p b
  end.

(** A chain of calls on a new builder. *)
Definition configure (calls : list Call) : Builder := fold_left call calls newBuilder.

Definition isWithRedis (c : Call) : bool :=
  match c with WithRedis _ _ => true | _ => false end.

Definition isWithKafka (c : Call) : bool :=
  match c with WithKafka _ => true | _ => false end.

Definition isWithInfrastructureDefaults (c : Call) : bool :=
  match c with WithInfrastructureDefaults => true | _ => false end.

(** The property is present. *)
Definition present {A} (x : option A) : bool :=
  match x with Some _ => true | None => false end.

(** What the builder has been told so far about the fast store, the durable
    store and the supervisor. *)
Definition redisOf (b : Builder) : option RedisWorkspaceConfig :=
  match b_infrastructure b with Some i => redis i | None => None end.

Definition kafkaOf (b : Builder) : option KafkaWorkspaceConfig :=
  match b_infrastructure b with Some i => kafka i | None => None end.

Definition reconnectAttemptsOf (b : Builder) : option Z :=
  match b_infrastructure b with Some i => reconnectAttempts i | None => None end.

(** The defaults have filled every field that [||] guards. *)
Definition defaulted (b : Builder) : Prop :=
  (forall r, redisOf b = Some r -> host r <> "") /\
  (forall l, b_limits b = Some l -> maxAgentsPerWorkspace l <> 0%Z) /\
  (forall c, b_consensus b = Some c -> Qeq_bool (majorityThreshold c) 0 = false).

(** [WorkspaceConfigPresets.localDevelopment()]: the chain of calls, and what
    [build()] returns for it. *)
Definition localDevelopmentCalls (now : Z) : list Call :=
  [WithRedis now
     {| p_host := Some "localhost"; p_port := Some 6379%Z; p_db := Some 1%Z;
        p_streamPrefix := None; p_consumerGroup := None; p_consumerName := None;
        p_maxPendingMessages := None; p_redisHeartbeatIntervalMs := None;
        p_redisLockTimeoutMs := None; p_messageRetentionMs := None;
        p_password := None |};
   WithKafka
     {| p_clientId := Some "autogen-dev"; p_brokers := Some ["localhost:9092"];
        p_ssl := None; p_groupId := None; p_sessionTimeoutMs := None;
        p_kafkaHeartbeatIntervalMs := None; p_retrySettings := None;
        p_batchSettings := None; p_sasl := None |};
   WithInfrastructureDefaults;
   WithLimits
     {| p_maxAgentsPerWorkspace := Some 5%Z; p_maxFilesPerWorkspace := Some 50%Z;
        p_maxFileSizeBytes := None; p_maxConcurrentEdits := None;
        p_maxSessionDurationMs := Some (30 * 60 * 1000)%Z; p_lockTimeoutMs := None;
        p_consensusTimeoutMs := None |};
   WithSecurity
     {| p_enableFileLocking := None; p_enableEditHistory := None;
        p_enableAuditLogging := None; p_maxLockDurationMs := None;
        p_allowConcurrentReads := None; p_requireAgentAuthentication := Some false |};
   WithStorage "./workspace-dev" None None;
   WithDebug (Some true) (Some true) (Some 3001%Z)].

Definition localDevelopment (now : Z) : string + WorkspaceConfiguration :=
  build (configure (localDevelopmentCalls now)).

End Config.

(** * Properties *)

(** ** Facts on the string operations *)

Module JsStringFacts.
Import JsString.

Lemma app_cons (x : ascii) (a b : string) : String x a ++ b = String x (a ++ b).
Proof. reflexivity. Qed.

Lemma app_nil_l (a : string) : "" ++ a = a.
Proof. reflexivity. Qed.

(** [simpl], also through [++] on strings. *)
Ltac ssimpl := simpl; rewrite ?app_cons, ?app_nil_l; simpl.
Ltac ssimpl_in H := simpl in H; rewrite ?app_cons, ?app_nil_l in H; simpl in H.

Lemma app_assoc (a b c : string) : (a ++ b) ++ c = a ++ b ++ c.
Proof. induction a as [| x a IH]; ssimpl; [reflexivity | now rewrite IH]. Qed.

Lemma app_nil_r (a : string) : a ++ "" = a.
Proof. induction a as [| x a IH]; ssimpl; [reflexivity | now rewrite IH]. Qed.

Lemma length_app (a b : string) :
  String.length (a ++ b) = (String.length a + String.length b)%nat.
Proof. induction a as [| x a IH]; ssimpl; [reflexivity | now rewrite IH]. Qed.



Lemma stripPrefix_Some (p s r : string) : stripPrefix p s = Some r <-> s = p ++ r.
Proof.
  revert s. induction p as [| a p IH]; intros s; ssimpl.
  - split; [intros [= ->] | intros ->]; reflexivity.
  - destruct s as [| b s].
    + split; discriminate.
    + destruct (Ascii.eqb a b) eqn:E.
      * apply Ascii.eqb_eq in E. subst b. rewrite IH.
        split; [intros -> | intros [= ->]]; reflexivity.
      * apply Ascii.eqb_neq in E. split; [discriminate | intros [= -> _]; congruence].
Qed.

Lemma stripPrefix_app (p r : string) : stripPrefix p (p ++ r) = Some r.
Proof. now apply stripPrefix_Some. Qed.






(** [split] and [join] on the separator [":"]. *)
Lemma split_not_nil (sep : ascii) (s : string) : split sep s <> [].
Proof.
  induction s as [| c s IH]; simpl; [discriminate |].
  destruct (Ascii.eqb c sep); [discriminate |].
  destruct (split sep s); [congruence | discriminate].
Qed.

Lemma join_cons (sep p : string) (rest : list string) :
  rest <> [] -> join sep (p :: rest) = p ++ sep ++ join sep rest.
Proof. destruct rest; [congruence | reflexivity]. Qed.

Lemma join_cons_head (sep : string) (c : ascii) (h : string) (t : list string) :
  join sep (String c h :: t) = String c (join sep (h :: t)).
Proof. destruct t; reflexivity. Qed.

Lemma join_split (sep : ascii) (s : string) :
  join (String sep "") (split sep s) = s.
Proof.
  induction s as [| c s IH]; simpl; [reflexivity |].
  destruct (Ascii.eqb c sep) eqn:E.
  - apply Ascii.eqb_eq in E. subst c.
    rewrite join_cons by apply split_not_nil. ssimpl. now rewrite IH.
  - pose proof (split_not_nil sep s) as Hn.
    destruct (split sep s) as [| h t]; [congruence |].
    rewrite join_cons_head. now rewrite IH.
Qed.

(** Splitting [word ++ sep ++ s] when [word] has no separator. *)
Lemma split_word (sep : ascii) (word s : string) :
  noSep sep word = true ->
  split sep (word ++ String sep s) = word :: split sep s.
Proof.
  induction word as [| c w IH]; ssimpl; intros H.
  - now rewrite Ascii.eqb_refl.
  - apply andb_true_iff in H as [Hc Hw]. apply negb_true_iff in Hc.
    rewrite Hc, IH by exact Hw. reflexivity.
Qed.

End JsStringFacts.

(** ** The tally law of [calculateConsensus] *)

Module ConsensusLaws.
Import Consensus.

Lemma Vote_eqb_eq (a b : Vote) : Vote_eqb a b = true <-> a = b.
Proof. destruct a, b; simpl; split; congruence. Qed.

Lemma count_cons (v : Vote) (e : string * VoteEntry) (vs : Votes) :
  count v (e :: vs) =
  ((if Vote_eqb (vote (snd e)) v then 1 else 0) + count v vs)%nat.
Proof.
  unfold count. simpl. destruct (Vote_eqb (vote (snd e)) v); reflexivity.
Qed.

(** The [reduce] computes [count]: the accumulator gains, for each vote
    value, the number of entries that carry it. *)
Lemma reduce_counts (vs : Votes) (acc : VoteCount) (v : Vote) :
  orZero (fold_left countVote (values vs) acc v) = (orZero (acc v) + count v vs)%nat.
Proof.
  revert acc. induction vs as [| e vs IH]; intros acc.
  - simpl. unfold count. simpl. lia.
  - simpl. rewrite IH, count_cons. unfold countVote.
    destruct (Vote_eqb v (vote (snd e))) eqn:E.
    + apply Vote_eqb_eq in E. subst v.
      assert (Vote_eqb (vote (snd e)) (vote (snd e)) = true) as -> by (now apply Vote_eqb_eq).
      simpl. lia.
    + assert (Vote_eqb (vote (snd e)) v = false) as ->.
      { destruct (Vote_eqb (vote (snd e)) v) eqn:E'; [| reflexivity].
        apply Vote_eqb_eq in E'. subst v.
        assert (Vote_eqb (vote (snd e)) (vote (snd e)) = true) by (now apply Vote_eqb_eq).
        congruence. }
      simpl. lia.
Qed.

Lemma count_le_length (v : Vote) (vs : Votes) : (count v vs <= length vs)%nat.
Proof.
  induction vs as [| e vs IH]; [unfold count; simpl; lia |].
  rewrite count_cons. simpl. destruct (Vote_eqb _ _); lia.
Qed.

Lemma agree_disagree_le_length (vs : Votes) :
  (count agree vs + count disagree vs <= length vs)%nat.
Proof.
  induction vs as [| e vs IH]; [unfold count; simpl; lia |].
  rewrite !count_cons. simpl. destruct (vote (snd e)); simpl; lia.
Qed.

(** The comparison [x > total / 2] on counts. *)
Lemma gt_half (a n : nat) : gt (num a) (num n / 2) = true <-> (n < 2 * a)%nat.
Proof.
  unfold gt. rewrite negb_true_iff.
  destruct (Qle_bool (num a) (num n / 2)) eqn:E.
  - apply Qle_bool_iff in E. unfold Qle, num, Qdiv, Qmult, Qinv, inject_Z in E.
    simpl in E. split; [discriminate | lia].
  - split; [intros _ | reflexivity].
    assert (~ (num a <= num n / 2)%Q) as H.
    { intros H. apply Qle_bool_iff in H. congruence. }
    unfold Qle, num, Qdiv, Qmult, Qinv, inject_Z in H. simpl in H. lia.
Qed.

Lemma half_lt (a n : nat) : (num n / 2 < num a)%Q <-> (n < 2 * a)%nat.
Proof.
  unfold Qlt, num, Qdiv, Qmult, Qinv, inject_Z. simpl. lia.
Qed.

Lemma ratio_bounds (a n : nat) :
  (n < 2 * a)%nat -> (a <= n)%nat -> (1 # 2 <= num a / num n)%Q /\ (num a / num n <= 1)%Q.
Proof.
  intros H1 H2.
  assert (0 < num n)%Q as Hn.
  { unfold Qlt, num, inject_Z. simpl. lia. }
  split.
  - apply Qle_shift_div_l; [exact Hn |].
    unfold Qle, num, Qmult, inject_Z. simpl. lia.
  - apply Qle_shift_div_r; [exact Hn |].
    unfold Qle, num, Qmult, inject_Z. simpl. lia.
Qed.

Lemma length_withReasoning (f : nat -> string) (vs : Votes) :
  length (withReasoning f vs) = length vs.
Proof. unfold withReasoning. apply length_imap. Qed.

Lemma count_withReasoning (v : Vote) (f : nat -> string) (vs : Votes) :
  count v (withReasoning f vs) = count v vs.
Proof.
  unfold withReasoning. revert f.
  induction vs as [| e vs IH]; intros f; [reflexivity |].
  rewrite imap_cons, !count_cons. simpl. f_equal. apply IH.
Qed.

(** The three branches of [calculateConsensus], on counts. *)
Lemma calculateConsensus_cases (idPrefix : string) (now : Z) (vs : Votes) :
  let n := length vs in
  let a := count agree vs in
  let d := count disagree vs in
  let r := calculateConsensus idPrefix now vs in
  ((n < 2 * a)%nat /\ result r = approved /\ confidence r = (num a / num n)%Q) \/
  (~ (n < 2 * a)%nat /\ (n < 2 * d)%nat /\
     result r = rejected /\ confidence r = (num d / num n)%Q) \/
  (~ (n < 2 * a)%nat /\ ~ (n < 2 * d)%nat /\
     result r = deadlock /\ confidence r = (1 # 2)%Q).
Proof.
  intros n a d r. subst r. unfold calculateConsensus, keys.
  rewrite !reduce_counts, length_map. simpl orZero. rewrite !Nat.add_0_l.
  fold n a d.
  destruct (gt (num a) (num n / 2)) eqn:Ea.
  - left. apply gt_half in Ea. auto.
  - assert (~ (n < 2 * a)%nat) as Ha.
    { intros H. apply gt_half in H. congruence. }
    destruct (gt (num d) (num n / 2)) eqn:Ed.
    + right; left. apply gt_half in Ed. auto.
    + right; right. repeat split; auto.
      intros H. apply gt_half in H. congruence.
Qed.

(** C4. For every vote map with N entries, [calculateConsensus] returns
    approved iff count(agree) > N/2 (then confidence = agree/N), rejected iff
    count(disagree) > N/2 (then confidence = disagree/N), deadlock otherwise
    (then confidence = 1/2); the confidence always lies in [1/2, 1]; and
    replacing the reasoning strings changes neither result nor confidence. *)
Theorem tally_law (idPrefix : string) (now : Z) (vs : Votes) (f : nat -> string) :
  let N := num (length vs) in
  let a := num (count agree vs) in
  let d := num (count disagree vs) in
  let r := calculateConsensus idPrefix now vs in
  (result r = approved <-> (N / 2 < a)%Q) /\
  (result r = approved -> (confidence r == a / N)%Q) /\
  (result r = rejected <-> (N / 2 < d)%Q) /\
  (result r = rejected -> (confidence r == d / N)%Q) /\
  (result r = deadlock <-> ~ (N / 2 < a)%Q /\ ~ (N / 2 < d)%Q) /\
  (result r = deadlock -> (confidence r == 1 # 2)%Q) /\
  (1 # 2 <= confidence r)%Q /\ (confidence r <= 1)%Q /\
  result (calculateConsensus idPrefix now (withReasoning f vs)) = result r /\
  confidence (calculateConsensus idPrefix now (withReasoning f vs)) = confidence r.
Proof.
  intros N a d r.
  pose proof (calculateConsensus_cases idPrefix now vs) as Hc.
  pose proof (calculateConsensus_cases idPrefix now (withReasoning f vs)) as Hf.
  cbv zeta in Hc, Hf.
  rewrite length_withReasoning, !count_withReasoning in Hf.
  fold r in Hc.
  pose proof (agree_disagree_le_length vs) as Hsum.
  pose proof (count_le_length agree vs) as Hale.
  pose proof (count_le_length disagree vs) as Hdle.
  pose proof (half_lt (count agree vs) (length vs)) as Hqa.
  pose proof (half_lt (count disagree vs) (length vs)) as Hqd.
  fold N a in Hqa. fold N d in Hqd.
  assert (result (calculateConsensus idPrefix now (withReasoning f vs)) = result r /\
          confidence (calculateConsensus idPrefix now (withReasoning f vs)) = confidence r)
    as [Hres Hconf].
  { destruct Hc as [(H1 & H2 & H3) | [(H0 & H1 & H2 & H3) | (H0 & H1 & H2 & H3)]];
    destruct Hf as [(G1 & G2 & G3) | [(G0 & G1 & G2 & G3) | (G0 & G1 & G2 & G3)]];
    try lia; split; congruence. }
  destruct Hc as [(H1 & H2 & H3) | [(H0 & H1 & H2 & H3) | (H0 & H1 & H2 & H3)]];
    rewrite Hres, Hconf, H2, H3; rewrite ?Hqa, ?Hqd;
    [ destruct (ratio_bounds _ _ H1 Hale) as [Hlo Hhi]
    | destruct (ratio_bounds _ _ H1 Hdle) as [Hlo Hhi]
    | ];
    repeat split; intros;
    try congruence; try reflexivity; try assumption; try tauto; try lia;
    try (unfold Qle; simpl; lia).
Qed.

Example scenario_approved :
  let r := calculateConsensus "consensus_" 0
    [("a1", Build_VoteEntry agree ""); ("a2", Build_VoteEntry agree "");
     ("a3", Build_VoteEntry agree ""); ("a4", Build_VoteEntry abstain "")] in
  result r = approved /\ (confidence r == 3 # 4)%Q.
Proof. split; reflexivity. Qed.

Example scenario_rejected :
  let r := calculateConsensus "consensus_" 0
    [("a1", Build_VoteEntry disagree ""); ("a2", Build_VoteEntry disagree "");
     ("a3", Build_VoteEntry agree "")] in
  result r = rejected /\ (confidence r == 2 # 3)%Q.
Proof. split; reflexivity. Qed.

Example scenario_tie :
  let r := calculateConsensus "ollama_consensus_" 0
    [("a1", Build_VoteEntry agree ""); ("a2", Build_VoteEntry disagree "")] in
  result r = deadlock /\ confidence r = (1 # 2)%Q.
Proof. split; reflexivity. Qed.

End ConsensusLaws.

(** ** The durable-store producer: sequence numbers and consensus rounds *)

Module KafkaLaws.
Import Kafka.

(** Every logging method takes the next sequence number, and sends at most
    one record, which carries that number. *)
Lemma call_effect (env : Env) (c : Call) (o : Orchestrator) :
  let o' := snd (call env c o) in
  counter o' = (counter o + 1)%N /\
  (produced o' = produced o \/
   exists r, produced o' = (produced o ++ [r])%list /\
             sequenceOf r = (counter o + 1)%N).
Proof.
  destruct c; simpl;
    unfold logFileEdit, saveWorkspaceSnapshot, logConsensusDecision,
      logAgentCoordination, logConflictResolution, startWorkspaceSession,
      endWorkspaceSession, publishMessage; simpl;
    destruct (sendError env); simpl; split; try reflexivity;
    try (left; reflexivity); right; eexists; split; reflexivity.
Qed.

Lemma numbered_new : numbered new.
Proof.
  split; intros *; cbn [new produced]; [| intros _]; rewrite lookup_nil; discriminate.
Qed.

Lemma numbered_call (env : Env) (c : Call) (o : Orchestrator) :
  numbered o -> numbered (snd (call env c o)).
Proof.
  intros [Hb Hs].
  destruct (call_effect env c o) as [Hc [Hp | (r & Hp & Hr)]];
    unfold numbered; rewrite Hc, Hp.
  - split.
    + intros i r0 H. apply Hb in H. lia.
    + exact Hs.
  - split.
    + intros i r0 H. apply lookup_app_Some in H as [H | [_ H]].
      * apply Hb in H. lia.
      * apply list_lookup_singleton_Some in H as [_ <-]. lia.
    + intros i j r1 r2 Hij H1 H2.
      apply lookup_app_Some in H2 as [H2 | [Hj H2]].
      * apply lookup_app_Some in H1 as [H1 | [Hi _]].
        -- eapply Hs; eauto.
        -- apply lookup_lt_Some in H2. lia.
      * apply list_lookup_singleton_Some in H2 as [Hj' <-].
        apply lookup_app_Some in H1 as [H1 | [Hi H1]].
        -- apply Hb in H1. lia.
        -- apply lookup_lt_Some in H1. simpl in H1. lia.
Qed.

Lemma numbered_run (calls : list (Env * Call)) (o : Orchestrator) :
  numbered o -> numbered (run calls o).
Proof.
  revert o. induction calls as [| [env c] calls IH]; intros o H; simpl.
  - exact H.
  - apply IH, numbered_call, H.
Qed.

(** C5. Of any two records that one orchestrator instance has produced
    through its seven logging methods, whatever their topics, the one
    produced later carries the strictly greater [metadata.sequenceNumber]. *)
Theorem sequence_strictly_increasing
    (calls : list (Env * Call)) (i j : nat) (earlier later : ProducerRecord) :
  (i < j)%nat ->
  produced (run calls new) !! i = Some earlier ->
  produced (run calls new) !! j = Some later ->
  (sequenceNumber (metadata (value earlier)) <
   sequenceNumber (metadata (value later)))%N.
Proof.
  intros Hij H1 H2.
  destruct (numbered_run calls new numbered_new) as [_ Hs].
  exact (Hs i j earlier later Hij H1 H2).
Qed.

Import JsString JsStringFacts.











Import Scenarios.

Lemma sequence_strictly_increasing_witness :
  exists earlier later,
    produced (run editThenDecision new) !! 0%nat = Some earlier /\
    produced (run editThenDecision new) !! 1%nat = Some later /\
    topic earlier <> topic later /\
    (sequenceNumber (metadata (value earlier)) <
     sequenceNumber (metadata (value later)))%N.
Proof.
  eexists. eexists.
  split; [reflexivity |]. split; [reflexivity |]. split; [discriminate |].
  apply (sequence_strictly_increasing editThenDecision 0 1);
    [apply Nat.lt_0_1 | reflexivity | reflexivity].
Defined.

Example round_3_extracted :
  extractConsensusRound "proposal_round_3_architecture" = 3%N /\
  extractConsensusRound "simple-proposal" = 1%N /\
  extractConsensusRound "round_007x" = 7%N /\
  extractConsensusRound "round_x_round_12" = 12%N.
Proof. repeat split; reflexivity. Qed.



End KafkaLaws.

(** ** The fast-store lock protocol *)

Module RedisLaws.
Import Redis JsString JsStringFacts.

(** *** Reasoning about computations in [M] *)

Lemma bind_Returned {A B} (c : M A) (k : A -> M B) (st st' : Store) (b : B) :
  bind c k st = (Returned b, st') ->
  exists a st1, c st = (Returned a, st1) /\ k a st1 = (Returned b, st').
Proof.
  unfold bind. destruct (c st) as [[a | e] st1]; [eauto | discriminate].
Qed.

Lemma tryCatch_true (body : M bool) (message : string -> string) (st st' : Store) :
  tryCatch body (fun error => do _ <- emit (EvError (message error)); ret false) st
    = (Returned true, st') ->
  body st = (Returned true, st').
Proof.
  unfold tryCatch. destruct (body st) as [[a | e] st1]; [auto |].
  unfold bind, emit, ret. discriminate.
Qed.

Lemma quiet_ret {A} (a : A) : quiet (ret a).
Proof. intros st. reflexivity. Qed.

Lemma quiet_throw {A} (e : string) : quiet (@throw A e).
Proof. intros st. reflexivity. Qed.

Lemma quiet_lookupKey (k : string) : quiet (lookupKey k).
Proof. intros st. reflexivity. Qed.

Lemma quiet_withKeyspace (f : gmap string Value -> gmap string Value) :
  quiet (withKeyspace f).
Proof. intros st. reflexivity. Qed.

Lemma quiet_emit (e : Event) : quiet (emit e).
Proof. intros st. reflexivity. Qed.

Lemma quiet_bind {A B} (c : M A) (k : A -> M B) :
  quiet c -> (forall a, quiet (k a)) -> quiet (bind c k).
Proof.
  intros Hc Hk st. unfold bind. specialize (Hc st).
  destruct (c st) as [[a | e] st1]; simpl in *.
  - rewrite Hk. exact Hc.
  - exact Hc.
Qed.

Ltac quiet_step :=
  first
    [ apply quiet_ret | apply quiet_throw | apply quiet_lookupKey
    | apply quiet_withKeyspace | apply quiet_emit
    | apply quiet_bind
    | match goal with
      | |- forall _, _ => intro
      | |- quiet (match ?x with _ => _ end) => destruct x
      end ].

Ltac quiet_tac := repeat quiet_step.

Lemma quiet_srem (k member : string) : quiet (srem k member).
Proof. unfold srem. quiet_tac. Qed.

Lemma quiet_scard (k : string) : quiet (scard k).
Proof. unfold scard. quiet_tac. Qed.

Lemma quiet_del (k : string) : quiet (del k).
Proof. unfold del. quiet_tac. Qed.

Lemma quiet_rpop (k : string) : quiet (rpop k).
Proof. unfold rpop. quiet_tac. Qed.

Lemma quiet_processLockQueue (lockKey : string) : quiet (processLockQueue lockKey).
Proof.
  unfold processLockQueue. quiet_tac; try apply quiet_rpop; quiet_tac.
Qed.

Lemma quiet_streams {A} (c : M A) (st st' : Store) (r : Reply A) :
  quiet c -> c st = (r, st') -> streams st' = streams st.
Proof. intros H E. specialize (H st). now rewrite E in H. Qed.

Lemma published_one (st st' : Store) (entry : string * WorkspaceStreamMessage) :
  streams st' = (streams st ++ [entry])%list -> published st st' = [entry].
Proof.
  intros H. unfold published. rewrite H, skipn_app, skipn_all, Nat.sub_diag.
  reflexivity.
Qed.

(** C10. A successful release publishes exactly one envelope, a [file_lock]
    message with [eventType = lock_released]. For a reader-scoped lock id
    (one that contains [":readers:"]) its [metadata.workspaceId] and
    [metadata.filePath] are the empty string; for an exclusive or write lock
    they are the [workspaceId] and [filePath] stored in the lock record. *)
Theorem lock_released_envelope (env : Env) (lockId agent : string) (st st' : Store) :
  releaseFileLock env lockId agent st = (Returned true, st') ->
  exists msg,
    published st st' = [(Patterns.FILE_LOCKS, msg)] /\
    type msg = file_lock /\
    eventType (payload msg) = lock_released /\
    if includes ":readers:" lockId then
      m_workspaceId (metadata msg) = "" /\ m_filePath (metadata msg) = Some ""
    else
      exists lock px,
        keyspace st !! lockId = Some (VString (LockJson lock) px) /\
        m_workspaceId (metadata msg) = workspaceId lock /\
        m_filePath (metadata msg) = Some (filePath lock).
Proof.
  intros Hrel. unfold releaseFileLock in Hrel. apply tryCatch_true in Hrel.
  destruct (includes ":readers:" lockId) eqn:Hi.
  - apply bind_Returned in Hrel as (removed & st1 & H1 & Hrel).
    apply bind_Returned in Hrel as (remaining & st2 & H2 & Hrel).
    apply bind_Returned in Hrel as (u3 & st3 & H3 & Hrel).
    apply bind_Returned in Hrel as (u4 & st4 & H4 & Hrel).
    unfold ret in Hrel. injection Hrel as Hpos <-.
    rewrite Hpos in H4.
    apply bind_Returned in H4 as (u5 & st5 & H5 & H6).
    apply quiet_streams in H1; [| apply quiet_srem].
    apply quiet_streams in H2; [| apply quiet_scard].
    apply quiet_streams in H3;
      [| destruct (remaining =? 0)%nat; quiet_tac; try apply quiet_del; quiet_tac].
    apply quiet_streams in H6; [| apply quiet_processLockQueue].
    unfold publishLockEvent, publishToStream, xadd in H5.
    injection H5 as _ <-. simpl in H6.
    eexists. split; [apply published_one; rewrite H6, H3, H2, H1; reflexivity |].
    simpl. auto.
  - apply bind_Returned in Hrel as (lockInfo & st1 & H1 & Hrel).
    assert (st1 = st /\
            match lockInfo with
            | Some v => exists px, keyspace st !! lockId = Some (VString v px)
            | None => True
            end) as [-> Hget].
    { unfold get, bind, lookupKey, ret, throw in H1.
      destruct (keyspace st !! lockId) as [[v px | | |] |]; try discriminate;
        injection H1 as <- <-; eauto. }
    destruct lockInfo as [[lock | t] |]; try discriminate.
    destruct Hget as [px Hget].
    destruct (String.eqb (agentId lock) agent); [| discriminate].
    apply bind_Returned in Hrel as (u2 & st2 & H2 & Hrel).
    apply bind_Returned in Hrel as (u3 & st3 & H3 & Hrel).
    apply bind_Returned in Hrel as (u4 & st4 & H4 & Hrel).
    unfold ret in Hrel. injection Hrel as <-.
    apply quiet_streams in H2; [| apply quiet_del].
    apply quiet_streams in H4; [| apply quiet_processLockQueue].
    unfold publishLockEvent, publishToStream, xadd in H3.
    injection H3 as _ <-. simpl in H4.
    eexists. split; [apply published_one; rewrite H4, H2; reflexivity |].
    simpl. eauto 10.
Qed.

(** *** Release by an agent that is not the holder *)

(** Exclusive path: the record is kept and the call returns false. *)
Lemma release_exclusive_unauthorized (env : Env) (lockId agent : string) (st : Store)
    (lock : LockRequest) (px : option Z) :
  includes ":readers:" lockId = false ->
  keyspace st !! lockId = Some (VString (LockJson lock) px) ->
  agentId lock <> agent ->
  releaseFileLock env lockId agent st = (Returned false, st).
Proof.
  intros Hi Hk Hne. apply String.eqb_neq in Hne.
  unfold releaseFileLock, tryCatch. rewrite Hi.
  unfold bind, get, bind, lookupKey. rewrite Hk. simpl. rewrite Hne. reflexivity.
Qed.

(** Reader path, while the readers set has members: nothing changes and
    the call returns false. *)
Lemma release_reader_nonmember (env : Env) (lockId agent : string) (st : Store)
    (s : gset string) :
  includes ":readers:" lockId = true ->
  keyspace st !! (stripReaders lockId ++ ":readers") = Some (VSet s) ->
  agent ∉ s -> s <> ∅ ->
  releaseFileLock env lockId agent st = (Returned false, st).
Proof.
  intros Hi Hk Hnot Hne.
  assert ((size s =? 0)%nat = false) as Hsize.
  { apply Nat.eqb_neq. intros H. now apply size_empty_iff, leibniz_equiv in H. }
  unfold releaseFileLock, tryCatch. rewrite Hi.
  unfold bind, srem, scard, bind, lookupKey. rewrite Hk. simpl.
  destruct (decide (agent ∈ s)) as [Hin | _]; [contradiction |].
  simpl. rewrite Hk. simpl. rewrite Hsize. reflexivity.
Qed.

(** Reader path, when no readers set exists: the call returns false, and
    whatever record [baseKey] holds is deleted. *)
Lemma release_reader_scoped_deletes (env : Env) (lockId agent : string) (st : Store) :
  includes ":readers:" lockId = true ->
  keyspace st !! (stripReaders lockId ++ ":readers") = None ->
  fst (releaseFileLock env lockId agent st) = Returned false /\
  keyspace (snd (releaseFileLock env lockId agent st)) !! stripReaders lockId = None.
Proof.
  intros Hi Hk.
  unfold releaseFileLock, tryCatch. rewrite Hi.
  unfold bind, srem, scard, del, bind, lookupKey. rewrite Hk. simpl.
  rewrite Hk. simpl. rewrite Hk. simpl.
  destruct (keyspace st !! stripReaders lockId) eqn:Hb; simpl.
  - split; [reflexivity | apply lookup_delete_eq].
  - split; [reflexivity | exact Hb].
Qed.

Import Scenarios.

(** C1 (evaluated at the failing input). agent1 holds the write lock on
    (ws1, /f). agent2, who holds nothing, calls [releaseFileLock] with the
    reader-scoped id of that file: the call returns false, and agent1's lock
    record is gone. *)
Theorem reader_scoped_release_frees_write_lock :
  let lockId := lockKey ++ ":readers:agent2" in
  let outcome := releaseFileLock redisEnv lockId "agent2" writeHeld in
  keyspace writeHeld !! lockKey
    = Some (VString (LockJson (requestOf "agent1" write)) (Some 30000%Z)) /\
  bool_decide ("agent2" ∈ readers writeHeld "ws1" "/f") = false /\
  fst outcome = Returned false /\
  keyspace (snd outcome) !! lockKey = None.
Proof. vm_compute. auto. Qed.

(** *** Waking a waiter *)

Lemma split_lockKey (workspaceId filePath : string) :
  split ":" (lockKeyOf workspaceId filePath) =
  "autogen" :: "state" :: "locks" :: split ":" (workspaceId ++ ":" ++ filePath).
Proof.
  unfold lockKeyOf, Patterns.ACTIVE_LOCKS.
  change ("autogen:state:locks" ++ ":" ++ workspaceId ++ ":" ++ filePath)
    with ("autogen" ++ String ":" ("state" ++ String ":"
            ("locks" ++ String ":" (workspaceId ++ ":" ++ filePath)))).
  now rewrite !split_word by reflexivity.
Qed.

(** The list that [processLockQueue] pops after a release on
    (workspaceId, filePath): [parts[2]] is the word ["locks"] of the key
    prefix, so the key is that of workspace ["locks"] and file
    [workspaceId:filePath]. *)
Lemma processLockQueue_lockKey (workspaceId filePath : string) :
  processLockQueue (lockKeyOf workspaceId filePath) =
  (do nextRequest <- rpop (queueKeyOf "locks" (workspaceId ++ ":" ++ filePath));
   match nextRequest with
   | Some request => emit (EvLockRetry request)
   | None => ret tt
   end).
Proof.
  unfold processLockQueue. rewrite split_lockKey.
  pose proof (split_not_nil ":" (workspaceId ++ ":" ++ filePath)) as Hn.
  pose proof (join_split ":" (workspaceId ++ ":" ++ filePath)) as Hj.
  destruct (split ":" (workspaceId ++ ":" ++ filePath)) as [| h t]; [congruence |].
  cbn [length Nat.ltb Nat.leb at_ nth_error slice skipn default from_option id].
  rewrite Hj. reflexivity.
Qed.

(** It is never the list on which [queueLockRequest] put the waiters of
    (workspaceId, filePath). *)
Lemma drained_key_differs (workspaceId filePath : string) :
  queueKeyOf "locks" (workspaceId ++ ":" ++ filePath) <> queueKeyOf workspaceId filePath.
Proof.
  unfold queueKeyOf. intros H. apply (f_equal String.length) in H.
  rewrite !length_app in H. simpl in H. lia.
Qed.

Lemma queueKey_not_lockKey (workspaceId filePath w f : string) :
  queueKeyOf workspaceId filePath <> lockKeyOf w f.
Proof.
  unfold queueKeyOf, lockKeyOf, Patterns.EDIT_QUEUE, Patterns.ACTIVE_LOCKS.
  rewrite !app_cons. discriminate.
Qed.

Lemma queueKey_not_readersKey (workspaceId filePath w f : string) :
  queueKeyOf workspaceId filePath <> lockKeyOf w f ++ ":readers".
Proof.
  unfold queueKeyOf, lockKeyOf, Patterns.EDIT_QUEUE, Patterns.ACTIVE_LOCKS.
  rewrite !app_cons. discriminate.
Qed.

Lemma keeps_ret (q : string) {A} (a : A) : keeps q (ret a).
Proof. intros st. reflexivity. Qed.

Lemma keeps_throw (q : string) {A} (e : string) : keeps q (@throw A e).
Proof. intros st. reflexivity. Qed.

Lemma keeps_lookupKey (q : string) (k : string) : keeps q (lookupKey k).
Proof. intros st. reflexivity. Qed.

Lemma keeps_emit (q : string) (e : Event) : keeps q (emit e).
Proof. intros st. reflexivity. Qed.

Lemma keeps_xadd (q : string) (stream : string) (m : WorkspaceStreamMessage) :
  keeps q (xadd stream m).
Proof. intros st. reflexivity. Qed.

Lemma keeps_insert (q : string) (k : string) (v : Value) :
  k <> q -> keeps q (withKeyspace (insert k v)).
Proof. intros H st. simpl. now apply lookup_insert_ne. Qed.

Lemma keeps_delete (q : string) (k : string) : k <> q -> keeps q (withKeyspace (delete k)).
Proof. intros H st. simpl. now apply lookup_delete_ne. Qed.

Lemma keeps_bind (q : string) {A B} (c : M A) (k : A -> M B) :
  keeps q c -> (forall a, keeps q (k a)) -> keeps q (bind c k).
Proof.
  intros Hc Hk st. unfold bind. specialize (Hc st).
  destruct (c st) as [[a | e] st1]; simpl in *.
  - rewrite Hk. exact Hc.
  - exact Hc.
Qed.

Lemma keeps_tryCatch (q : string) {A} (body : M A) (handler : string -> M A) :
  keeps q body -> (forall e, keeps q (handler e)) -> keeps q (tryCatch body handler).
Proof.
  intros Hc Hk st. unfold tryCatch. specialize (Hc st).
  destruct (body st) as [[a | e] st1]; simpl in *.
  - exact Hc.
  - rewrite Hk. exact Hc.
Qed.

Ltac keeps_step :=
  first
    [ apply keeps_ret | apply keeps_throw | apply keeps_lookupKey
    | apply keeps_emit | apply keeps_xadd
    | apply keeps_insert; assumption
    | apply keeps_delete; assumption
    | apply keeps_bind | apply keeps_tryCatch
    | match goal with
      | |- forall _, _ => intro
      | |- keeps _ (match ?x with _ => _ end) => destruct x
      | |- keeps _ (withKeyspace (match ?x with _ => _ end)) => destruct x
      end ].

Ltac keeps_tac := repeat keeps_step.

Lemma keeps_get (q : string) (k : string) : keeps q (get k).
Proof. unfold get. keeps_tac. Qed.

Lemma keeps_del (q : string) (k : string) : k <> q -> keeps q (del k).
Proof. intros H. unfold del. keeps_tac. Qed.

Lemma keeps_rpop (q : string) (k : string) : k <> q -> keeps q (rpop k).
Proof. intros H. unfold rpop. keeps_tac. Qed.

Lemma keeps_lpush (q : string) (k : string) (item : LockRequest) : k <> q -> keeps q (lpush k item).
Proof. intros H. unfold lpush. keeps_tac. Qed.

Lemma sadd_member (k member : string) (st : Store) (s : gset string) :
  keyspace st !! k = Some (VSet s) -> member ∈ s -> sadd k member st = (Returned 0%nat, st).
Proof.
  intros Hk Hin. unfold sadd, bind, lookupKey. rewrite Hk.
  destruct (decide (member ∈ s)); [reflexivity | contradiction].
Qed.

Lemma keeps_publishLockEvent (q : string) (env : Env) (e : LockEvent) (a w f : string)
    (t : LockType) : keeps q (publishLockEvent env e a w f t).
Proof. unfold publishLockEvent, publishToStream. keeps_tac. Qed.

(** An exclusive release on (workspaceId, filePath) leaves the waiters of
    (workspaceId, filePath) where they are, whoever calls it. *)
Lemma release_keeps_waiters (env : Env) (workspaceId filePath agent : string)
    (st : Store) :
  includes ":readers:" (lockKeyOf workspaceId filePath) = false ->
  waiters (snd (releaseFileLock env (lockKeyOf workspaceId filePath) agent st))
          workspaceId filePath
  = waiters st workspaceId filePath.
Proof.
  intros Hi. unfold waiters.
  pose proof (drained_key_differs workspaceId filePath) as Hd.
  pose proof (queueKey_not_lockKey workspaceId filePath workspaceId filePath) as Hl.
  apply not_eq_sym in Hl.
  assert (keeps (queueKeyOf workspaceId filePath)
            (releaseFileLock env (lockKeyOf workspaceId filePath) agent)) as Hk.
  { unfold releaseFileLock. rewrite Hi, processLockQueue_lockKey.
    keeps_tac;
      first [ apply keeps_get | apply keeps_del; assumption
            | apply keeps_publishLockEvent | apply keeps_rpop; assumption
            | idtac ];
      keeps_tac. }
  now rewrite Hk.
Qed.

(** C3 (evaluated at the failing input). agent1 holds the write lock on
    (ws1, /f) and agent2 waits in the queue of (ws1, /f). agent1 releases:
    the call succeeds and publishes the [lock_released] envelope, but the
    queue still holds agent2's request and no [lock_retry] was emitted. *)
Theorem release_leaves_waiter_queued :
  let outcome := releaseFileLock redisEnv lockKey "agent1" writerWaiting in
  waiters writerWaiting "ws1" "/f" = [requestOf "agent2" write] /\
  fst outcome = Returned true /\
  map (fun entry => eventType (payload (snd entry)))
      (published writerWaiting (snd outcome)) = [lock_released] /\
  retries writerWaiting (snd outcome) = [] /\
  waiters (snd outcome) "ws1" "/f" = [requestOf "agent2" write].
Proof. vm_compute. auto. Qed.

(** *** A reader asks again *)

Lemma quiet_lpush (k : string) (item : LockRequest) : quiet (lpush k item).
Proof. unfold lpush. quiet_tac. Qed.

(** An agent that is in the readers set of a read-locked file and requests
    a read lock on it again is treated as a conflict: the call returns null;
    the readers set is as before and nothing is published. *)
Lemma reentrant_read_refused (env : Env) (agent workspaceId filePath : string)
    (st : Store) (lock : LockRequest) (px : option Z) (s : gset string) :
  keyspace st !! lockKeyOf workspaceId filePath = Some (VString (LockJson lock) px) ->
  lockType lock = read ->
  keyspace st !! (lockKeyOf workspaceId filePath ++ ":readers") = Some (VSet s) ->
  agent ∈ s ->
  let outcome := requestFileLock env agent workspaceId filePath read st in
  fst outcome = Returned None /\
  readers (snd outcome) workspaceId filePath = readers st workspaceId filePath /\
  published st (snd outcome) = [].
Proof.
  intros Hlock Hread Hset Hin outcome. subst outcome.
  pose proof (queueKey_not_readersKey workspaceId filePath workspaceId filePath) as Hne.
  assert (get (lockKeyOf workspaceId filePath) st = (Returned (Some (LockJson lock)), st))
    as Hget.
  { unfold get, bind, lookupKey. now rewrite Hlock. }
  pose proof (sadd_member _ _ _ _ Hset Hin) as Hsadd.
  set (item := {| agentId := agent; lockType := read; timestamp := now env;
                  workspaceId := workspaceId; filePath := filePath |}).
  pose proof (keeps_lpush (lockKeyOf workspaceId filePath ++ ":readers")
                (queueKeyOf workspaceId filePath) item Hne st) as Hkeep.
  pose proof (quiet_lpush (queueKeyOf workspaceId filePath) item st) as Hquiet.
  unfold requestFileLock, tryCatch, queueLockRequest, bind.
  rewrite Hget. unfold holdsReadLock. simpl. rewrite Hread. rewrite Hsadd. simpl.
  fold item. unfold readers, published.
  destruct (lpush (queueKeyOf workspaceId filePath) item st) as [[n | e] st2];
    simpl in *; rewrite ?Hkeep, ?Hquiet, skipn_all; auto.
Qed.

(** C2 (evaluated at the failing input). agent1 holds a read lock on
    (ws1, /f) and requests a read lock on it again: the call returns null
    and agent1 is put on the waiters queue of the file; the readers set is
    unchanged and no acquisition is published. *)
Theorem reentrant_read_is_queued :
  let outcome := request "agent1" read readHeld in
  bool_decide ("agent1" ∈ readers readHeld "ws1" "/f") = true /\
  waiters readHeld "ws1" "/f" = [] /\
  fst outcome = Returned None /\
  waiters (snd outcome) "ws1" "/f" = [requestOf "agent1" read] /\
  readers (snd outcome) "ws1" "/f" = readers readHeld "ws1" "/f" /\
  published readHeld (snd outcome) = [].
Proof. vm_compute. auto 10. Qed.

(** Releasing a read lock, then a write lock, each by its holder. *)
Lemma lock_released_envelope_witness :
  exists st' msg,
    releaseFileLock redisEnv (lockKey ++ ":readers:agent1") "agent1" readHeld
      = (Returned true, st') /\
    published readHeld st' = [(Patterns.FILE_LOCKS, msg)] /\
    type msg = file_lock /\
    eventType (payload msg) = lock_released /\
    m_workspaceId (metadata msg) = "" /\ m_filePath (metadata msg) = Some "".
Proof.
  eexists.
  destruct (lock_released_envelope redisEnv (lockKey ++ ":readers:agent1") "agent1"
              readHeld _ eq_refl) as (msg & H1 & H2 & H3 & H4).
  exists msg. split; [reflexivity |]. auto.
Defined.

End RedisLaws.

(** ** The bridge: health rollup, reconnect policy, fallback locks *)

Module BridgeLaws.
Import Bridge.

(** *** Health rollup *)


Lemma healthStatus_attemptReconnect (cfg : Config) (service : Service) (s : State) :
  healthStatus (attemptReconnect cfg service s) = healthStatus s.
Proof.
  unfold attemptReconnect.
  destruct (reconnectInProgress s service); [reflexivity |].
  destruct (reconnectAttempts cfg <=? _)%nat; reflexivity.
Qed.



(** *** Reconnect policy *)





















Import Scenarios.


(** With three attempts allowed and every attempt failing, the timers are
    set with delays 100, 200 and 300, and [reconnect_failed] is emitted
    twice, the first time while the third attempt is still pending. *)
Example three_failures :
  let s := run threeAttempts threeFailures new in
  scheduledDelays redis (trace s) = [100; 200; 300]%nat /\
  attemptsOf s redis = 3%nat /\
  length (List.filter (isReconnectFailed redis) (trace s)) = 2%nat /\
  failedAttempts redis (trace s) = 3%nat.
Proof. vm_compute. auto. Qed.


(** *** Fallback lock manager *)

(** Exclusive path: a caller that is not the record's agent gets false
    and the storage is unchanged. *)
Lemma fallback_release_exclusive_unauthorized (lockId agent : string)
    (storage : gmap string FallbackLock) (lock : FallbackLock) :
  JsString.includes ":readers:" lockId = false ->
  storage !! lockId = Some lock ->
  agentId lock <> agent ->
  fallbackLockRelease lockId agent storage = (false, storage).
Proof.
  intros Hi Hk Hne. apply String.eqb_neq in Hne.
  unfold fallbackLockRelease. now rewrite Hi, Hk, Hne.
Qed.

Lemma filter_nonmember (agent : string) (rs : list string) :
  existsb (String.eqb agent) rs = false ->
  List.filter (fun id => negb (String.eqb id agent)) rs = rs.
Proof.
  induction rs as [| r rs IH]; simpl; [reflexivity |].
  intros H. apply orb_false_iff in H as [H1 H2].
  rewrite String.eqb_sym in H1. rewrite H1. simpl. now rewrite IH.
Qed.

(** Reader path: a caller that is not in the readers list leaves the
    storage unchanged, and the call returns true all the same. *)
Lemma fallback_release_reader_nonmember (lockId agent : string)
    (storage : gmap string FallbackLock) (lock : FallbackLock) (rs : list string) :
  JsString.includes ":readers:" lockId = true ->
  storage !! JsString.stripReaders lockId = Some lock ->
  readers lock = Some rs -> rs <> [] ->
  existsb (String.eqb agent) rs = false ->
  fallbackLockRelease lockId agent storage = (true, storage).
Proof.
  intros Hi Hk Hr Hne Hnot.
  unfold fallbackLockRelease. rewrite Hi, Hk, Hr, filter_nonmember by exact Hnot.
  destruct rs as [| r rs]; [congruence |]. simpl. f_equal.
  apply insert_id. rewrite Hk. f_equal.
  destruct lock. simpl in Hr. subst. reflexivity.
Qed.

(** C8 (evaluated at the failing input). agentA, then agentB, took a read
    lock on (ws1, /f) from the fallback manager. agentC, who holds nothing,
    releases with its reader-scoped id: the call returns true; the record is
    unchanged. *)
Theorem fallback_release_by_stranger_returns_true :
  let outcome := fallbackLockRelease "ws1:/f:readers:agentC" "agentC" twoFallbackReaders in
  twoFallbackReaders !! "ws1:/f"
    = Some {| agentId := "agentA"; lockType := Redis.read; timestamp := 1;
              workspaceId := "ws1"; filePath := "/f";
              readers := Some ["agentB"] |} /\
  isFallbackReader twoFallbackReaders "ws1:/f" "agentC" = false /\
  fst outcome = true /\
  snd outcome !! "ws1:/f" = twoFallbackReaders !! "ws1:/f".
Proof. vm_compute. auto. Qed.

End BridgeLaws.

(** ** The fast-store lock protocol: grants, exclusion, round trips *)

Module LockLaws.
Import Redis JsString JsStringFacts RedisLaws Locks.

Lemma publishLockEvent_run (env : Env) (e : LockEvent) (a w f : string) (t : LockType)
    (st : Store) :
  publishLockEvent env e a w f t st =
  (Returned tt, {| keyspace := keyspace st;
                   streams := (streams st ++ [(Patterns.FILE_LOCKS, lockEventMessage env e a w f t)])%list;
                   emitted := emitted st |}).
Proof. reflexivity. Qed.

Lemma get_absent (k : string) (st : Store) :
  keyspace st !! k = None -> get k st = (Returned None, st).
Proof. intros H. unfold get, bind, lookupKey. now rewrite H. Qed.

Lemma get_string (k : string) (st : Store) (v : StringValue) (px : option Z) :
  keyspace st !! k = Some (VString v px) -> get k st = (Returned (Some v), st).
Proof. intros H. unfold get, bind, lookupKey. now rewrite H. Qed.

Lemma get_Returned (k : string) (st st' : Store) (o : option StringValue) :
  get k st = (Returned o, st') ->
  st' = st /\
  match o with
  | Some v => exists px, keyspace st !! k = Some (VString v px)
  | None => keyspace st !! k = None
  end.
Proof.
  unfold get, bind, lookupKey, ret, throw.
  destruct (keyspace st !! k) as [[v px | | |] |]; try discriminate;
    intros H; injection H as <- <-; eauto.
Qed.

(** A write or exclusive request on a free key. *)
Lemma request_write_free (env : Env) (agent workspaceId filePath : string)
    (lockType : LockType) (st : Store) :
  isRead lockType = false ->
  keyspace st !! lockKeyOf workspaceId filePath = None ->
  requestFileLock env agent workspaceId filePath lockType st =
  (Returned (Some (lockKeyOf workspaceId filePath)),
   {| keyspace :=
        <[lockKeyOf workspaceId filePath :=
            VString (LockJson (lockRecord env agent workspaceId filePath lockType))
              (Some (lockTimeoutMs env))]> (keyspace st);
      streams :=
        (streams st
           ++ [(Patterns.FILE_LOCKS,
                lockEventMessage env lock_acquired agent workspaceId filePath lockType)])%list;
      emitted := emitted st |}).
Proof.
  intros Hw Hk. unfold requestFileLock, tryCatch, bind at 1.
  rewrite (get_absent _ _ Hk), Hw.
  unfold setPXNX, bind, lookupKey. rewrite Hk. reflexivity.
Qed.

(** X1. A write or exclusive request is granted exactly when the lock key of
    the file is free. When it is free, the call returns the lock key, stores
    the caller's record under it with the configured time to live, publishes
    one [lock_acquired] envelope that carries the workspace, the file and the
    lock type, and emits no event. *)
Theorem write_lock_granted_iff_free (env : Env) (agent workspaceId filePath : string)
    (lockType : LockType) (st : Store) :
  isRead lockType = false ->
  let lockKey := lockKeyOf workspaceId filePath in
  let outcome := requestFileLock env agent workspaceId filePath lockType st in
  ((exists lockId, fst outcome = Returned (Some lockId)) <-> keyspace st !! lockKey = None) /\
  (keyspace st !! lockKey = None ->
   fst outcome = Returned (Some lockKey) /\
   keyspace (snd outcome) =
     <[lockKey := VString (LockJson (lockRecord env agent workspaceId filePath lockType))
                    (Some (lockTimeoutMs env))]> (keyspace st) /\
   published st (snd outcome) =
     [(Patterns.FILE_LOCKS,
       lockEventMessage env lock_acquired agent workspaceId filePath lockType)] /\
   emitted (snd outcome) = emitted st).
Proof.
  intros Hw lockKey outcome.
  pose proof (request_write_free env agent workspaceId filePath lockType st Hw) as Hfree.
  fold lockKey outcome in Hfree.
  split.
  - split.
    + intros [lockId Hid]. subst outcome.
      destruct (keyspace st !! lockKey) as [v |] eqn:Hk; [| reflexivity].
      exfalso. revert Hid. unfold requestFileLock, tryCatch, bind at 1. fold lockKey.
      unfold get, bind at 1, lookupKey. rewrite Hk, Hw.
      destruct v as [v px | s | l | h]; simpl; try discriminate.
      unfold queueLockRequest, bind, ret.
      match goal with |- context [lpush ?k ?i st] => destruct (lpush k i st) as [[n | e] st1] end;
        simpl; discriminate.
    + intros Hk. rewrite (Hfree Hk). eauto.
  - intros Hk. rewrite (Hfree Hk). simpl. repeat split.
    now apply published_one.
Qed.

Lemma readersKey_ne (k : string) : k ++ ":readers" <> k.
Proof.
  intros H. apply (f_equal String.length) in H. rewrite length_app in H. simpl in H. lia.
Qed.

Lemma sadd_run (k member : string) (st : Store) :
  setOrAbsent st k = true ->
  let s := match keyspace st !! k with Some (VSet s) => s | _ => ∅ end in
  exists n : nat,
    sadd k member st =
    (Returned n, {| keyspace := <[k := VSet ({[ member ]} ∪ s)]> (keyspace st);
                    streams := streams st; emitted := emitted st |}) /\
    (member ∉ s -> n = 1%nat).
Proof.
  unfold setOrAbsent, sadd, bind, lookupKey.
  destruct (keyspace st !! k) as [[v px | s | l | h] |] eqn:Hk; try discriminate; intros _; simpl.
  - destruct (decide (member ∈ s)) as [Hin | Hin].
    + exists 0%nat. split; [| contradiction].
      unfold ret. f_equal. destruct st; simpl in *. f_equal.
      apply map_eq. intros i. destruct (decide (k = i)) as [<- | Hne].
      * rewrite lookup_insert_eq, Hk. do 2 f_equal. symmetry.
        now apply subseteq_union_1_L, singleton_subseteq_l.
      * now rewrite lookup_insert_ne.
    + exists 1%nat. split; [reflexivity | auto].
  - exists 1%nat. split; [| auto]. unfold ret. do 4 f_equal.
    symmetry. apply union_empty_r_L.
Qed.

(** X2. A read request on a file that is free, or that is read-locked while
    the caller is not among its readers, is granted (the readers key holding
    a set or nothing): the call returns the reader-scoped id
    [key:readers:agent], the caller joins the readers set, a lock record that
    exists is left as it was (the first reader's record and time to live), a
    free key receives the caller's record, and one [lock_acquired] envelope
    is published. *)
Theorem read_lock_is_shared (env : Env) (agent workspaceId filePath : string) (st : Store) :
  let lockKey := lockKeyOf workspaceId filePath in
  let outcome := requestFileLock env agent workspaceId filePath read st in
  setOrAbsent st (lockKey ++ ":readers") = true ->
  (keyspace st !! lockKey = None \/
   exists lock px,
     keyspace st !! lockKey = Some (VString (LockJson lock) px) /\
     Redis.lockType lock = read /\
     agent ∉ readers st workspaceId filePath) ->
  fst outcome = Returned (Some (lockKey ++ ":readers:" ++ agent)) /\
  readers (snd outcome) workspaceId filePath = {[ agent ]} ∪ readers st workspaceId filePath /\
  keyspace (snd outcome) !! lockKey =
    match keyspace st !! lockKey with
    | Some held => Some held
    | None => Some (VString (LockJson (lockRecord env agent workspaceId filePath read))
                      (Some (lockTimeoutMs env)))
    end /\
  published st (snd outcome) =
    [(Patterns.FILE_LOCKS, lockEventMessage env lock_acquired agent workspaceId filePath read)].
Proof.
  intros lockKey outcome Hset Hcase.
  pose proof (readersKey_ne lockKey) as Hne.
  destruct (sadd_run (lockKey ++ ":readers") agent st Hset) as (n & Hsadd & Hn).
  set (message := lockEventMessage env lock_acquired agent workspaceId filePath read).
  set (joined := <[lockKey ++ ":readers" :=
                    VSet ({[ agent ]} ∪ readers st workspaceId filePath)]> (keyspace st)).
  assert (outcome =
          (Returned (Some (lockKey ++ ":readers:" ++ agent)),
           {| keyspace :=
                match keyspace st !! lockKey with
                | Some _ => joined
                | None =>
                    <[lockKey := VString (LockJson (lockRecord env agent workspaceId filePath read))
                                   (Some (lockTimeoutMs env))]> joined
                end;
              streams := (streams st ++ [(Patterns.FILE_LOCKS, message)])%list;
              emitted := emitted st |})) as ->.
  { subst outcome. unfold requestFileLock, tryCatch, bind at 1. fold lockKey.
    destruct Hcase as [Hk | (lock & px & Hk & Hread & Hnot)].
    - rewrite (get_absent _ _ Hk), Hk. cbn [isRead].
      unfold bind at 1. rewrite Hsadd. reflexivity.
    - rewrite (get_string _ _ _ _ Hk), Hk. unfold holdsReadLock.
      cbn [isRead parsedLockType andb]. rewrite Hread.
      unfold bind at 1. unfold bind at 1. rewrite Hsadd.
      rewrite (Hn Hnot). reflexivity. }
  cbn [fst snd]. unfold readers. fold lockKey. cbn [keyspace].
  split; [reflexivity |]. split; [| split; [| now apply published_one]].
  - destruct (keyspace st !! lockKey); subst joined;
      rewrite ?(lookup_insert_ne _ lockKey) by auto; now rewrite lookup_insert_eq.
  - destruct (keyspace st !! lockKey) eqn:Hk; subst joined.
    + now rewrite lookup_insert_ne.
    + now rewrite lookup_insert_eq.
Qed.

(** X3. A request that conflicts with what the lock key holds (any request
    against a write or exclusive record, a write or exclusive request against
    a read record) returns null, leaves the record and the readers set as
    they were and publishes nothing. When the waiters key holds a list or
    nothing, the request is appended at the tail of the waiters queue of the
    file and no event is emitted. *)
Theorem conflicting_request_is_queued (env : Env) (agent workspaceId filePath : string)
    (lockType : LockType) (st : Store) (held : StringValue) (px : option Z) :
  let lockKey := lockKeyOf workspaceId filePath in
  let outcome := requestFileLock env agent workspaceId filePath lockType st in
  keyspace st !! lockKey = Some (VString held px) ->
  isRead lockType && holdsReadLock held = false ->
  fst outcome = Returned None /\
  keyspace (snd outcome) !! lockKey = Some (VString held px) /\
  readers (snd outcome) workspaceId filePath = readers st workspaceId filePath /\
  published st (snd outcome) = [] /\
  (listOrAbsent st (queueKeyOf workspaceId filePath) = true ->
   waiters (snd outcome) workspaceId filePath =
     (waiters st workspaceId filePath
        ++ [lockRecord env agent workspaceId filePath lockType])%list /\
   emitted (snd outcome) = emitted st).
Proof.
  intros lockKey outcome Hk Hconflict.
  pose proof (queueKey_not_lockKey workspaceId filePath workspaceId filePath) as Hq1.
  pose proof (queueKey_not_readersKey workspaceId filePath workspaceId filePath) as Hq2.
  set (item := lockRecord env agent workspaceId filePath lockType).
  set (queueKey := queueKeyOf workspaceId filePath) in *.
  assert (outcome =
          match keyspace st !! queueKey with
          | None =>
              (Returned None,
               {| keyspace := <[queueKey := VList [item]]> (keyspace st);
                  streams := streams st; emitted := emitted st |})
          | Some (VList l) =>
              (Returned None,
               {| keyspace := <[queueKey := VList (item :: l)]> (keyspace st);
                  streams := streams st; emitted := emitted st |})
          | Some _ =>
              (Returned None,
               {| keyspace := keyspace st; streams := streams st;
                  emitted := (emitted st
                                ++ [EvError ("Lock request failed: " ++ WRONGTYPE)])%list |})
          end) as ->.
  { subst outcome. unfold requestFileLock, tryCatch, bind at 1. fold lockKey.
    rewrite (get_string _ _ _ _ Hk), Hconflict.
    unfold queueLockRequest, lpush, bind, lookupKey, ret. cbn beta iota.
    fold queueKey. fold item.
    destruct (keyspace st !! queueKey) as [[v pv | s | l | h] |]; reflexivity. }
  unfold readers, waiters, listOrAbsent, published. fold lockKey queueKey.
  destruct (keyspace st !! queueKey) as [[v pv | s | l | h] |] eqn:Hq;
    cbn [fst snd keyspace streams emitted];
    rewrite ?lookup_insert_eq, ?(lookup_insert_ne _ queueKey) by assumption;
    rewrite ?Hq, skipn_all;
    repeat split; try discriminate; auto.
Qed.

(** *** Mutual exclusion over a run of requests *)















(** *** Releasing a reader-scoped lock *)

Lemma srem_removed (k member : string) (st st' : Store) (n : nat) :
  srem k member st = (Returned n, st') ->
  (0 <? n)%nat = true ->
  exists s,
    keyspace st !! k = Some (VSet s) /\ member ∈ s /\
    st' = {| keyspace := (if decide (s ∖ {[ member ]} = ∅) then delete k (keyspace st)
                          else <[k := VSet (s ∖ {[ member ]})]> (keyspace st));
             streams := streams st; emitted := emitted st |}.
Proof.
  unfold srem, bind, lookupKey.
  destruct (keyspace st !! k) as [[? ? | s | ? | ?] |]; simpl; try discriminate.
  - destruct (decide (member ∈ s)) as [Hin | Hin]; simpl.
    + intros H _. injection H as <- <-. exists s. repeat split; auto.
      destruct (decide (s ∖ {[ member ]} = ∅)); reflexivity.
    + intros H. injection H as <- <-. discriminate.
  - intros H. injection H as <- <-. discriminate.
Qed.

Lemma scard_Returned (k : string) (st st' : Store) (n : nat) :
  scard k st = (Returned n, st') ->
  st' = st /\
  n = match keyspace st !! k with Some (VSet s) => size s | _ => 0%nat end.
Proof.
  unfold scard, bind, lookupKey.
  destruct (keyspace st !! k) as [[? ? | s | ? | ?] |]; simpl; try discriminate;
    intros H; injection H as <- <-; auto.
Qed.

(** [RPOP] creates no key and changes no set. *)
Lemma rpop_Returned (q key : string) (st st' : Store) (o : option LockRequest) :
  rpop q st = (Returned o, st') ->
  (keyspace st !! key = None -> keyspace st' !! key = None) /\
  (forall s, keyspace st !! key = Some (VSet s) -> keyspace st' !! key = Some (VSet s)).
Proof.
  unfold rpop, bind, lookupKey.
  destruct (keyspace st !! q) as [[? ? | ? | l | ?] |] eqn:Hq; simpl; try discriminate.
  - destruct (last l); simpl.
    + intros H. injection H as _ <-. simpl.
      destruct (decide (q = key)) as [<- | Hne].
      * rewrite Hq. split; [discriminate | intros s; discriminate].
      * destruct (removelast l); rewrite ?lookup_delete_ne, ?lookup_insert_ne by auto; auto.
    + intros H. injection H as _ <-. auto.
  - intros H. injection H as _ <-. auto.
Qed.

Lemma processLockQueue_Returned (lockKey key : string) (st st' : Store) (u : unit) :
  processLockQueue lockKey st = (Returned u, st') ->
  (keyspace st !! key = None -> keyspace st' !! key = None) /\
  (forall s, keyspace st !! key = Some (VSet s) -> keyspace st' !! key = Some (VSet s)).
Proof.
  unfold processLockQueue.
  destruct (length (split ":" lockKey) <? 4)%nat.
  - intros H. injection H as _ <-. auto.
  - intros H. apply bind_Returned in H as (o & st1 & Hpop & H).
    apply (rpop_Returned _ key) in Hpop.
    destruct o; unfold emit, ret in H; injection H as _ <-; exact Hpop.
Qed.

(** X5. A reader-scoped release returns true only if the caller was a
    member of the readers set of the key that the lock id denotes. The caller
    is then removed from the set; when it was the last member, the readers
    set and the lock record are both gone. *)
Theorem reader_release_requires_membership (env : Env) (lockId agent : string)
    (st st' : Store) :
  includes ":readers:" lockId = true ->
  releaseFileLock env lockId agent st = (Returned true, st') ->
  let baseKey := stripReaders lockId in
  exists s,
    keyspace st !! (baseKey ++ ":readers") = Some (VSet s) /\
    agent ∈ s /\
    if decide (s ∖ {[ agent ]} = ∅) then
      keyspace st' !! (baseKey ++ ":readers") = None /\
      keyspace st' !! baseKey = None
    else
      keyspace st' !! (baseKey ++ ":readers") = Some (VSet (s ∖ {[ agent ]})).
Proof.
  intros Hi Hrel baseKey. unfold releaseFileLock in Hrel. apply tryCatch_true in Hrel.
  rewrite Hi in Hrel. fold baseKey in Hrel.
  pose proof (readersKey_ne baseKey) as Hne.
  apply bind_Returned in Hrel as (removed & st1 & H1 & Hrel).
  apply bind_Returned in Hrel as (remaining & st2 & H2 & Hrel).
  apply bind_Returned in Hrel as (u3 & st3 & H3 & Hrel).
  apply bind_Returned in Hrel as (u4 & st4 & H4 & Hrel).
  unfold ret in Hrel. injection Hrel as Hpos <-.
  rewrite Hpos in H4.
  apply bind_Returned in H4 as (u5 & st5 & H5 & H6).
  destruct (srem_removed _ _ _ _ _ H1 Hpos) as (s & Hs & Hin & ->).
  apply scard_Returned in H2 as [-> ->].
  unfold publishLockEvent, publishToStream, xadd in H5. injection H5 as _ <-.
  exists s. split; [exact Hs |]. split; [exact Hin |].
  cbn [keyspace] in H3.
  destruct (decide (s ∖ {[ agent ]} = ∅)) as [Hlast | Hmore].
  - rewrite lookup_delete_eq in H3. cbn in H3.
    assert (keyspace st3 !! (baseKey ++ ":readers") = None /\
            keyspace st3 !! baseKey = None) as [Hr Hb].
    { revert H3. unfold del, bind, lookupKey. cbn.
      rewrite lookup_delete_eq. cbn. rewrite lookup_delete_ne by auto.
      destruct (keyspace st !! baseKey) eqn:Hb0; cbn; intros H3; injection H3 as _ <-; cbn.
      - now rewrite lookup_delete_eq, lookup_delete_ne, lookup_delete_eq by auto.
      - now rewrite lookup_delete_eq, lookup_delete_ne by auto. }
    split.
    + now apply (processLockQueue_Returned _ (baseKey ++ ":readers")) in H6 as [H6 _];
        apply H6.
    + now apply (processLockQueue_Returned _ baseKey) in H6 as [H6 _]; apply H6.
  - rewrite lookup_insert_eq in H3.
    assert ((size (s ∖ {[ agent ]}) =? 0)%nat = false) as Hsize.
    { apply Nat.eqb_neq. intros H. now apply size_empty_iff, leibniz_equiv in H. }
    rewrite Hsize in H3. unfold ret in H3. injection H3 as _ <-.
    apply (processLockQueue_Returned _ (baseKey ++ ":readers")) in H6 as [_ H6].
    apply H6. cbn. now rewrite lookup_insert_eq.
Qed.

(** *** Acquire, then release *)

Lemma rpop_absent (k : string) (st : Store) :
  keyspace st !! k = None -> rpop k st = (Returned None, st).
Proof. intros H. unfold rpop, bind, lookupKey. now rewrite H. Qed.

Lemma published_two (st st' : Store) (e1 e2 : string * WorkspaceStreamMessage) :
  streams st' = ((streams st ++ [e1]) ++ [e2])%list -> published st st' = [e1; e2].
Proof.
  intros H. unfold published.
  rewrite H, <- List.app_assoc, skipn_app, skipn_all, Nat.sub_diag. reflexivity.
Qed.

Lemma bind_run {A B} (c : M A) (k : A -> M B) (st st1 : Store) (a : A) :
  c st = (Returned a, st1) -> bind c k st = k a st1.
Proof. intros H. unfold bind. now rewrite H. Qed.

Lemma del_run (k : string) (st : Store) (v : Value) :
  keyspace st !! k = Some v ->
  del k st = (Returned 1%nat,
              {| keyspace := delete k (keyspace st);
                 streams := streams st; emitted := emitted st |}).
Proof. intros H. unfold del, bind, lookupKey. now rewrite H. Qed.




(** *** Lock ids of readers *)

Lemma stripReaders_eq (s : string) :
  stripReaders s =
  if match stripPrefix ":readers:" s with
     | Some rest => noLineTerminator rest
     | None => false
     end
  then ""
  else match s with
       | "" => ""
       | String c rest => String c (stripReaders rest)
       end.
Proof. destruct s; reflexivity. Qed.

Lemma includes_eq (needle s : string) :
  includes needle s =
  match stripPrefix needle s with
  | Some _ => true
  | None => match s with
            | "" => false
            | String _ s' => includes needle s'
            end
  end.
Proof. destruct s; reflexivity. Qed.

Lemma stripPrefix_app_None (p s t : string) :
  (String.length p <= String.length s)%nat ->
  stripPrefix p s = None -> stripPrefix p (s ++ t) = None.
Proof.
  revert s. induction p as [| a p IH]; intros s Hlen; [discriminate |].
  destruct s as [| b s]; [simpl in Hlen; lia |].
  rewrite app_cons. simpl. destruct (Ascii.eqb a b); [| reflexivity].
  apply IH. simpl in Hlen. lia.
Qed.

Lemma includes_app (needle a b : string) : includes needle (a ++ needle ++ b) = true.
Proof.
  induction a as [| c a IH].
  - rewrite app_nil_l, includes_eq. now rewrite stripPrefix_app.
  - rewrite app_cons, includes_eq. rewrite IH. now destruct (stripPrefix _ _).
Qed.

(** The reader id built from a key decodes to that key. *)
Lemma stripReaders_reader_id (key agent : string) :
  includes ":readers:" (key ++ ":readers") = false ->
  noLineTerminator agent = true ->
  stripReaders (key ++ ":readers:" ++ agent) = key.
Proof.
  intros Hi Hagent. induction key as [| c key IH].
  - rewrite app_nil_l, stripReaders_eq, stripPrefix_app, Hagent. reflexivity.
  - rewrite app_cons in Hi. rewrite includes_eq in Hi.
    destruct (stripPrefix ":readers:" (String c (key ++ ":readers"))) eqn:Hp;
      [discriminate |].
    rewrite app_cons, stripReaders_eq.
    change (":readers:" ++ agent) with (":readers" ++ ":" ++ agent).
    rewrite <- app_assoc, <- app_cons.
    rewrite stripPrefix_app_None; [| simpl; rewrite length_app; simpl; lia | exact Hp].
    rewrite app_assoc. f_equal. exact (IH Hi).
Qed.

(** What [stripReaders] cuts off is at least the nine characters of
    [":readers:"]. *)
Lemma stripReaders_length (s : string) :
  stripReaders s = s \/ (String.length (stripReaders s) + 9 <= String.length s)%nat.
Proof.
  induction s as [| c s IH]; [now left |].
  rewrite stripReaders_eq.
  destruct (stripPrefix ":readers:" (String c s)) as [rest |] eqn:Hp.
  - destruct (noLineTerminator rest).
    + right. apply stripPrefix_Some in Hp. rewrite Hp, length_app. simpl. lia.
    + destruct IH as [-> | IH]; [now left | right; simpl; lia].
  - destruct IH as [-> | IH]; [now left | right; simpl; lia].
Qed.

Lemma stripReaders_cuts (a post : string) :
  noLineTerminator post = true ->
  (String.length (stripReaders (a ++ ":readers:" ++ post)) <= String.length a)%nat.
Proof.
  intros Hpost. induction a as [| c a IH].
  - rewrite app_nil_l, stripReaders_eq, stripPrefix_app, Hpost. simpl. lia.
  - rewrite app_cons, stripReaders_eq.
    destruct (match stripPrefix ":readers:" (String c (a ++ ":readers:" ++ post)) with
              | Some rest => noLineTerminator rest
              | None => false
              end); simpl; lia.
Qed.


Lemma sadd_absent (k member : string) (st : Store) :
  keyspace st !! k = None ->
  sadd k member st =
  (Returned 1%nat,
   {| keyspace := <[k := VSet {[ member ]}]> (keyspace st);
      streams := streams st; emitted := emitted st |}).
Proof. intros H. unfold sadd, bind, lookupKey. now rewrite H. Qed.

Lemma srem_last (k member : string) (st : Store) :
  keyspace st !! k = Some (VSet {[ member ]}) ->
  srem k member st =
  (Returned 1%nat,
   {| keyspace := delete k (keyspace st);
      streams := streams st; emitted := emitted st |}).
Proof.
  intros H. unfold srem, bind, lookupKey. rewrite H. cbn beta iota.
  rewrite decide_True by now apply elem_of_singleton.
  rewrite decide_True by apply difference_diag_L. reflexivity.
Qed.

Lemma scard_absent (k : string) (st : Store) :
  keyspace st !! k = None -> scard k st = (Returned 0%nat, st).
Proof. intros H. unfold scard, bind, lookupKey. now rewrite H. Qed.

Lemma del_absent (k : string) (st : Store) :
  keyspace st !! k = None -> del k st = (Returned 0%nat, st).
Proof. intros H. unfold del, bind, lookupKey. now rewrite H. Qed.

(** The first reader of a free file. *)
Lemma request_read_free (env : Env) (agent workspaceId filePath : string) (st : Store) :
  keyspace st !! lockKeyOf workspaceId filePath = None ->
  keyspace st !! (lockKeyOf workspaceId filePath ++ ":readers") = None ->
  requestFileLock env agent workspaceId filePath read st =
  (Returned (Some (lockKeyOf workspaceId filePath ++ ":readers:" ++ agent)),
   {| keyspace :=
        <[lockKeyOf workspaceId filePath :=
            VString (LockJson (lockRecord env agent workspaceId filePath read))
              (Some (lockTimeoutMs env))]>
          (<[lockKeyOf workspaceId filePath ++ ":readers" := VSet {[ agent ]}]>
             (keyspace st));
      streams :=
        (streams st
           ++ [(Patterns.FILE_LOCKS,
                lockEventMessage env lock_acquired agent workspaceId filePath read)])%list;
      emitted := emitted st |}).
Proof.
  intros Hk Hr. unfold requestFileLock, tryCatch.
  erewrite bind_run by (apply get_absent; exact Hk).
  cbn [isRead].
  erewrite bind_run by (apply sadd_absent; exact Hr).
  reflexivity.
Qed.

(** X7. The reader-scoped id round trip. When neither the lock key followed
    by [":readers"] contains [":readers:"] nor the agent id a line
    terminator, the id [key:readers:agent] that a first reader receives
    decodes to the lock key, and releasing it returns true and leaves the
    keyspace as it was before the request (no lock record, no readers set).
    The [lock_released] envelope carries empty workspace and file. *)
Theorem read_lock_round_trip (env env' : Env) (agent workspaceId filePath : string)
    (st : Store) :
  let lockKey := lockKeyOf workspaceId filePath in
  let lockId := lockKey ++ ":readers:" ++ agent in
  let acquired := requestFileLock env agent workspaceId filePath read st in
  let released := releaseFileLock env' lockId agent (snd acquired) in
  includes ":readers:" (lockKey ++ ":readers") = false ->
  noLineTerminator agent = true ->
  keyspace st !! lockKey = None ->
  keyspace st !! (lockKey ++ ":readers") = None ->
  keyspace st !! queueKeyOf "locks" (workspaceId ++ ":" ++ filePath) = None ->
  fst acquired = Returned (Some lockId) /\
  stripReaders lockId = lockKey /\
  fst released = Returned true /\
  keyspace (snd released) = keyspace st /\
  published st (snd released) =
    [(Patterns.FILE_LOCKS,
      lockEventMessage env lock_acquired agent workspaceId filePath read);
     (Patterns.FILE_LOCKS, lockEventMessage env' lock_released agent "" "" read)].
Proof.
  intros lockKey lockId acquired released Hi Hagent Hk Hr Hq.
  pose proof (queueKey_not_lockKey "locks" (workspaceId ++ ":" ++ filePath)
                workspaceId filePath) as Hne1.
  pose proof (queueKey_not_readersKey "locks" (workspaceId ++ ":" ++ filePath)
                workspaceId filePath) as Hne2.
  pose proof (readersKey_ne lockKey) as Hne3.
  pose proof (stripReaders_reader_id lockKey agent Hi Hagent) as Hbase.
  fold lockId in Hbase.
  set (record := VString (LockJson (lockRecord env agent workspaceId filePath read))
                   (Some (lockTimeoutMs env))).
  assert (released =
          (Returned true,
           {| keyspace :=
                delete lockKey
                  (delete (lockKey ++ ":readers")
                     (<[lockKey := record]>
                        (<[lockKey ++ ":readers" := VSet {[ agent ]}]> (keyspace st))));
              streams :=
                ((streams st
                    ++ [(Patterns.FILE_LOCKS,
                         lockEventMessage env lock_acquired agent workspaceId filePath
                           read)])
                   ++ [(Patterns.FILE_LOCKS,
                        lockEventMessage env' lock_released agent "" "" read)])%list;
              emitted := emitted st |})) as Hreleased.
  { subst released acquired.
    rewrite (request_read_free env agent workspaceId filePath st Hk Hr).
    fold lockKey. fold record. cbn [snd].
    unfold releaseFileLock, tryCatch.
    replace (includes ":readers:" lockId) with true
      by (symmetry; apply includes_app).
    rewrite Hbase.
    erewrite bind_run
      by (apply srem_last; cbn; rewrite lookup_insert_ne by auto; apply lookup_insert_eq).
    erewrite bind_run by (apply scard_absent; cbn; apply lookup_delete_eq).
    cbn [Nat.eqb Nat.ltb Nat.leb keyspace streams emitted].
    erewrite bind_run;
      [| erewrite bind_run by (apply del_absent; cbn; apply lookup_delete_eq);
         erewrite bind_run
           by (eapply del_run; cbn; rewrite lookup_delete_ne by auto;
               apply lookup_insert_eq);
         reflexivity].
    cbn beta iota.
    erewrite bind_run;
      [| erewrite bind_run by apply publishLockEvent_run;
         subst lockKey; rewrite processLockQueue_lockKey;
         erewrite bind_run
           by (apply rpop_absent; cbn;
               rewrite !lookup_delete_ne, !lookup_insert_ne by auto; exact Hq);
         reflexivity].
    reflexivity. }
  rewrite Hreleased. subst acquired.
  rewrite (request_read_free env agent workspaceId filePath st Hk Hr).
  cbn [fst snd keyspace streams].
  repeat split; auto.
  - apply map_eq. intros i.
    destruct (decide (i = lockKey)) as [-> | H1].
    + now rewrite lookup_delete_eq.
    + rewrite lookup_delete_ne by auto.
      destruct (decide (i = lockKey ++ ":readers")) as [-> | H2].
      * now rewrite lookup_delete_eq.
      * now rewrite lookup_delete_ne, !lookup_insert_ne by auto.
  - now apply published_two.
Qed.

(** *** A file path that contains the readers marker *)

Lemma srem_absent (k member : string) (st : Store) :
  keyspace st !! k = None -> srem k member st = (Returned 0%nat, st).
Proof. intros H. unfold srem, bind, lookupKey. now rewrite H. Qed.

Lemma del_total (k : string) (st : Store) :
  exists n : nat,
    del k st = (Returned n, {| keyspace := delete k (keyspace st);
                               streams := streams st; emitted := emitted st |}).
Proof.
  unfold del, bind, lookupKey. destruct (keyspace st !! k) eqn:Hk; simpl.
  - now exists 1%nat.
  - exists 0%nat. unfold ret. rewrite delete_id by exact Hk. now destruct st.
Qed.

(** X8. A write or exclusive lock on a file whose path contains
    [":readers:"] cannot be released by its holder: the lock id contains the
    marker, so [releaseFileLock] takes the reader branch, finds the caller in
    no readers set and returns false. The lock record stays and nothing is
    published. *)
Theorem write_lock_on_readers_path_is_stuck (env env' : Env)
    (agent workspaceId before after : string) (lockType : LockType) (st : Store) :
  let filePath := before ++ ":readers:" ++ after in
  let lockKey := lockKeyOf workspaceId filePath in
  let acquired := requestFileLock env agent workspaceId filePath lockType st in
  let released := releaseFileLock env' lockKey agent (snd acquired) in
  isRead lockType = false ->
  noLineTerminator after = true ->
  keyspace st !! lockKey = None ->
  keyspace st !! (stripReaders lockKey ++ ":readers") = None ->
  fst acquired = Returned (Some lockKey) /\
  fst released = Returned false /\
  keyspace (snd released) !! lockKey =
    Some (VString (LockJson (lockRecord env agent workspaceId filePath lockType))
            (Some (lockTimeoutMs env))) /\
  published (snd acquired) (snd released) = [].
Proof.
  intros filePath lockKey acquired released Hw Hafter Hk Hr.
  set (front := Patterns.ACTIVE_LOCKS ++ ":" ++ workspaceId ++ ":" ++ before).
  assert (lockKey = front ++ ":readers:" ++ after) as Hshape.
  { subst lockKey front filePath. unfold lockKeyOf. now rewrite !app_assoc. }
  assert (includes ":readers:" lockKey = true) as Hi
    by (rewrite Hshape; apply includes_app).
  pose proof (stripReaders_cuts front after Hafter) as Hcut. rewrite <- Hshape in Hcut.
  set (baseKey := stripReaders lockKey) in *.
  assert (String.length lockKey = String.length front + 9 + String.length after)%nat
    as Hlen by (rewrite Hshape, length_app, length_app; simpl; lia).
  assert (baseKey <> lockKey) as Hne1 by (intros H; rewrite H in Hcut; lia).
  assert (baseKey ++ ":readers" <> lockKey) as Hne2.
  { intros H. apply (f_equal String.length) in H. rewrite length_app in H.
    change (String.length ":readers") with 8%nat in H. lia. }
  set (record := VString (LockJson (lockRecord env agent workspaceId filePath lockType))
                   (Some (lockTimeoutMs env))).
  subst released acquired.
  rewrite (request_write_free env agent workspaceId filePath lockType st Hw Hk).
  fold lockKey. fold record. cbn [fst snd].
  match goal with
  | |- context [releaseFileLock env' lockKey agent ?st1] =>
      set (held := st1);
      destruct (del_total baseKey held) as [n Hdel];
      assert (releaseFileLock env' lockKey agent held =
              (Returned false,
               {| keyspace := delete baseKey (keyspace held);
                  streams := streams held; emitted := emitted held |})) as ->
  end.
  { unfold releaseFileLock, tryCatch. rewrite Hi. fold baseKey.
    assert (keyspace held !! (baseKey ++ ":readers") = None) as Hr'
      by (cbn; rewrite lookup_insert_ne by auto; exact Hr).
    erewrite bind_run by (apply srem_absent; exact Hr').
    erewrite bind_run by (apply scard_absent; exact Hr').
    cbn [Nat.eqb Nat.ltb Nat.leb].
    erewrite bind_run;
      [| erewrite bind_run by (apply del_absent; exact Hr');
         erewrite bind_run by exact Hdel; reflexivity].
    reflexivity. }
  cbn [fst snd keyspace streams held]. unfold published.
  rewrite lookup_delete_ne, lookup_insert_eq, skipn_all by auto.
  auto.
Qed.

(** *** The list a release pops *)

Lemma rpop_oldest (k : string) (st : Store) (l : list LockRequest) (oldest : LockRequest) :
  keyspace st !! k = Some (VList (l ++ [oldest])) ->
  rpop k st =
  (Returned (Some oldest),
   {| keyspace := match l with
                  | [] => delete k (keyspace st)
                  | _ => <[k := VList l]> (keyspace st)
                  end;
      streams := streams st; emitted := emitted st |}).
Proof.
  intros H. unfold rpop, bind, lookupKey. rewrite H. cbn beta iota.
  rewrite last_snoc, removelast_last. destruct l; reflexivity.
Qed.

(** X9. One waiter per release, oldest first, on the list that the release
    pops. When the holder releases the write or exclusive lock of
    (workspaceId, filePath) and the waiters list of file
    [workspaceId:filePath] in workspace [locks] is [oldest :: rest], the call
    returns true, deletes the lock record, leaves [rest] on that list and
    emits exactly one [lock_retry] event, which carries [oldest]. *)
Theorem release_wakes_oldest_on_popped_list (env : Env)
    (workspaceId filePath agent : string) (st : Store) (lock : LockRequest)
    (px : option Z) (oldest : LockRequest) (rest : list LockRequest) :
  let lockKey := lockKeyOf workspaceId filePath in
  let released := releaseFileLock env lockKey agent st in
  includes ":readers:" lockKey = false ->
  keyspace st !! lockKey = Some (VString (LockJson lock) px) ->
  Redis.agentId lock = agent ->
  waiters st "locks" (workspaceId ++ ":" ++ filePath) = oldest :: rest ->
  fst released = Returned true /\
  keyspace (snd released) !! lockKey = None /\
  waiters (snd released) "locks" (workspaceId ++ ":" ++ filePath) = rest /\
  retries st (snd released) = [EvLockRetry oldest].
Proof.
  intros lockKey released Hi Hk Hagent Hwait.
  pose proof (queueKey_not_lockKey "locks" (workspaceId ++ ":" ++ filePath)
                workspaceId filePath) as Hne.
  set (queueKey := queueKeyOf "locks" (workspaceId ++ ":" ++ filePath)) in *.
  assert (keyspace st !! queueKey = Some (VList (rev rest ++ [oldest]))) as Hq.
  { unfold waiters in Hwait. fold queueKey in Hwait.
    destruct (keyspace st !! queueKey) as [[? ? | ? | l | ?] |]; try discriminate.
    do 2 f_equal. rewrite <- (rev_involutive l), Hwait. reflexivity. }
  assert (released =
          (Returned true,
           {| keyspace := match rev rest with
                          | [] => delete queueKey (delete lockKey (keyspace st))
                          | _ => <[queueKey := VList (rev rest)]>
                                   (delete lockKey (keyspace st))
                          end;
              streams :=
                (streams st
                   ++ [(Patterns.FILE_LOCKS,
                        lockEventMessage env lock_released agent (Redis.workspaceId lock)
                          (Redis.filePath lock) (Redis.lockType lock))])%list;
              emitted := (emitted st ++ [EvLockRetry oldest])%list |})) as ->.
  { subst released. unfold releaseFileLock, tryCatch. rewrite Hi.
    erewrite bind_run by (eapply get_string; exact Hk).
    cbn beta iota. rewrite Hagent, String.eqb_refl.
    erewrite bind_run by (eapply del_run; exact Hk).
    erewrite bind_run by apply publishLockEvent_run.
    subst lockKey. rewrite processLockQueue_lockKey.
    erewrite bind_run;
      [| erewrite bind_run
           by (apply rpop_oldest; cbn; rewrite lookup_delete_ne by auto; exact Hq);
         reflexivity].
    cbn. destruct (rev rest); reflexivity. }
  cbn [fst snd]. unfold waiters, retries. fold queueKey. cbn [keyspace emitted].
  rewrite skipn_app, skipn_all, Nat.sub_diag.
  destruct (rev rest) as [| r l] eqn:Hrev.
  - rewrite lookup_delete_ne, !lookup_delete_eq by auto.
    apply (f_equal (@rev _)) in Hrev. rewrite rev_involutive in Hrev. now subst rest.
  - rewrite lookup_insert_ne, lookup_delete_eq, lookup_insert_eq by auto.
    rewrite <- Hrev, rev_involutive. auto.
Qed.

(** *** A request never throws *)

Lemma mute_ret {A} (a : A) : mute (ret a).
Proof. intros st. reflexivity. Qed.

Lemma mute_throw {A} (e : string) : mute (@throw A e).
Proof. intros st. reflexivity. Qed.

Lemma mute_lookupKey (k : string) : mute (lookupKey k).
Proof. intros st. reflexivity. Qed.

Lemma mute_withKeyspace (f : gmap string Value -> gmap string Value) :
  mute (withKeyspace f).
Proof. intros st. reflexivity. Qed.

Lemma mute_xadd (stream : string) (m : WorkspaceStreamMessage) : mute (xadd stream m).
Proof. intros st. reflexivity. Qed.

Lemma mute_bind {A B} (c : M A) (k : A -> M B) :
  mute c -> (forall a, mute (k a)) -> mute (bind c k).
Proof.
  intros Hc Hk st. unfold bind. specialize (Hc st).
  destruct (c st) as [[a | e] st1]; simpl in *.
  - rewrite Hk. exact Hc.
  - exact Hc.
Qed.

Ltac mute_step :=
  first
    [ apply mute_ret | apply mute_throw | apply mute_lookupKey
    | apply mute_withKeyspace | apply mute_xadd
    | apply mute_bind
    | match goal with
      | |- forall _, _ => intro
      | |- mute (match ?x with _ => _ end) => destruct x
      | |- mute (if ?x then _ else _) => destruct x
      end ].

Ltac mute_tac := repeat mute_step.


(** A granted request has emitted nothing. *)
Lemma granted_request_is_mute (env : Env) (agent workspaceId filePath : string)
    (lockType : LockType) (st st' : Store) (lockId : string) :
  requestFileLock env agent workspaceId filePath lockType st = (Returned (Some lockId), st') ->
  retries st st' = [].
Proof.
  unfold requestFileLock, tryCatch.
  match goal with
  | |- context [match ?body st with _ => _ end] =>
      assert (mute body) as Hmute;
      [ unfold get, sadd, setPX, setPXNX, queueLockRequest, lpush, publishLockEvent,
          publishToStream; mute_tac
      | specialize (Hmute st); destruct (body st) as [[reply | error] st1] ]
  end; cbn in *; intros H; injection H as H <-; try discriminate.
  unfold retries. now rewrite Hmute, skipn_all.
Qed.

(** *** Lock ids are not empty *)

Lemma returns_ret {A} (P : A -> Prop) (a : A) : P a -> returns P (ret a).
Proof. intros H st a' st' E. injection E as <- _. exact H. Qed.

Lemma returns_bind {A B} (P : B -> Prop) (c : M A) (k : A -> M B) :
  (forall a, returns P (k a)) -> returns P (bind c k).
Proof.
  intros Hk st b st' E. apply bind_Returned in E as (a & st1 & _ & E).
  exact (Hk a st1 b st' E).
Qed.

Lemma returns_tryCatch {A} (P : A -> Prop) (body : M A) (handler : string -> M A) :
  returns P body -> (forall e, returns P (handler e)) -> returns P (tryCatch body handler).
Proof.
  intros Hb Hh st a st' E. unfold tryCatch in E.
  destruct (body st) as [[a0 | e] st1] eqn:Hbody.
  - injection E as <- <-. exact (Hb st a0 st1 Hbody).
  - exact (Hh e st1 a st' E).
Qed.

Lemma lockKey_nonempty (workspaceId filePath rest : string) :
  lockKeyOf workspaceId filePath ++ rest <> "".
Proof.
  unfold lockKeyOf, Patterns.ACTIVE_LOCKS. rewrite !app_cons. discriminate.
Qed.

Lemma granted_id_nonempty (env : Env) (agent workspaceId filePath : string)
    (lockType : LockType) (st st' : Store) (lockId : string) :
  requestFileLock env agent workspaceId filePath lockType st = (Returned (Some lockId), st') ->
  lockId <> "".
Proof.
  intros H.
  assert (returns (fun reply => match reply with Some id => id <> "" | None => True end)
            (requestFileLock env agent workspaceId filePath lockType)) as Hret.
  { pose proof (lockKey_nonempty workspaceId filePath) as Hne.
    unfold requestFileLock.
    apply returns_tryCatch; [| intros e; apply returns_bind; intros; now apply returns_ret].
    apply returns_bind. intros [lock |].
    - apply returns_bind. intros [|]; [apply returns_ret, Hne |].
      apply returns_bind. intros; now apply returns_ret.
    - destruct (isRead lockType).
      + do 3 (apply returns_bind; intros). apply returns_ret, Hne.
      + apply returns_bind. intros [|]; [| now apply returns_ret].
        apply returns_bind. intros. apply returns_ret.
        rewrite <- (app_nil_r (lockKeyOf workspaceId filePath)). apply Hne. }
  exact (Hret st (Some lockId) st' H).
Qed.

(** *** A release emits only [lock_retry] events *)

Lemma calm_mute {A} (c : M A) : mute c -> calm c.
Proof. intros H st. exists []. rewrite H. cbn. now rewrite List.app_nil_r. Qed.

Lemma calm_retry (request : LockRequest) : calm (emit (EvLockRetry request)).
Proof. intros st. exists [request]. reflexivity. Qed.

Lemma calm_bind {A B} (c : M A) (k : A -> M B) :
  calm c -> (forall a, calm (k a)) -> calm (bind c k).
Proof.
  intros Hc Hk st. unfold bind. destruct (Hc st) as [rs Hrs].
  destruct (c st) as [[a | e] st1]; cbn in *.
  - destruct (Hk a st1) as [rs' Hrs']. exists (rs ++ rs')%list.
    now rewrite Hrs', Hrs, map_app, List.app_assoc.
  - eauto.
Qed.

Ltac calm_step :=
  first
    [ apply calm_retry
    | apply calm_mute; mute_tac; fail
    | apply calm_bind
    | match goal with
      | |- forall _, _ => intro
      | |- calm (match ?x with _ => _ end) => destruct x
      | |- calm (if ?x then _ else _) => destruct x
      end ].

Ltac calm_tac := repeat calm_step.

Lemma released_emits_retries (env : Env) (lockId agent : string) (st st' : Store) :
  releaseFileLock env lockId agent st = (Returned true, st') ->
  exists requests, retries st st' = map EvLockRetry requests.
Proof.
  intros H. unfold releaseFileLock in H. apply tryCatch_true in H.
  match type of H with
  | ?body st = _ => assert (calm body) as Hcalm
  end.
  { unfold processLockQueue, srem, scard, del, get, rpop, publishLockEvent,
      publishToStream. calm_tac. }
  destruct (Hcalm st) as [rs Hrs]. rewrite H in Hrs. cbn in Hrs.
  exists rs. unfold retries. now rewrite Hrs, skipn_app, skipn_all, Nat.sub_diag.
Qed.

(** *** The laws at concrete runs *)

Import Scenarios LockCases.

(** agent1 asks for the write lock of (ws1, /f) on an empty store. *)
Lemma write_lock_granted_iff_free_witness :
  fst (request "agent1" write empty) = Returned (Some lockKey) /\
  published empty (snd (request "agent1" write empty)) =
    [(Patterns.FILE_LOCKS,
      lockEventMessage redisEnv lock_acquired "agent1" "ws1" "/f" write)].
Proof.
  destruct (write_lock_granted_iff_free redisEnv "agent1" "ws1" "/f" write empty eq_refl)
    as [_ H].
  destruct (H ltac:(vm_compute; reflexivity)) as (H1 & _ & H3 & _).
  split; [exact H1 | exact H3].
Defined.

(** agent2 joins agent1 as a reader of (ws1, /f). *)
Lemma read_lock_is_shared_witness :
  fst (request "agent2" read readHeld) = Returned (Some (lockKey ++ ":readers:agent2")) /\
  readers (snd (request "agent2" read readHeld)) "ws1" "/f"
    = {[ "agent2" ]} ∪ readers readHeld "ws1" "/f".
Proof.
  destruct (read_lock_is_shared redisEnv "agent2" "ws1" "/f" readHeld
              ltac:(vm_compute; reflexivity)
              ltac:(right; exists (requestOf "agent1" read), (Some 30000%Z);
                    split; [vm_compute; reflexivity |];
                    split; [reflexivity |];
                    apply (bool_decide_eq_false_1 _); vm_compute; reflexivity))
    as (H1 & H2 & _).
  split; [exact H1 | exact H2].
Defined.

(** agent2 asks for the write lock that agent1 holds. *)
Lemma conflicting_request_is_queued_witness :
  fst (request "agent2" write writeHeld) = Returned None /\
  waiters (snd (request "agent2" write writeHeld)) "ws1" "/f"
    = (waiters writeHeld "ws1" "/f" ++ [requestOf "agent2" write])%list.
Proof.
  destruct (conflicting_request_is_queued redisEnv "agent2" "ws1" "/f" write writeHeld
              (LockJson (requestOf "agent1" write)) (Some 30000%Z)
              ltac:(vm_compute; reflexivity) eq_refl)
    as (H1 & _ & _ & _ & H5).
  destruct (H5 ltac:(vm_compute; reflexivity)) as [H6 _].
  split; [exact H1 | exact H6].
Defined.


(** agent1 releases its read lock on (ws1, /f). *)
Lemma reader_release_requires_membership_witness :
  exists s,
    keyspace readHeld !! (lockKey ++ ":readers") = Some (VSet s) /\ "agent1" ∈ s.
Proof.
  destruct (reader_release_requires_membership redisEnv (lockKey ++ ":readers:agent1")
              "agent1" readHeld
              (snd (releaseFileLock redisEnv (lockKey ++ ":readers:agent1") "agent1"
                      readHeld))
              ltac:(vm_compute; reflexivity) ltac:(vm_compute; reflexivity))
    as (s & H1 & H2 & _).
  exists s. split; [| exact H2].
  replace (lockKey ++ ":readers") with (stripReaders (lockKey ++ ":readers:agent1") ++ ":readers")
    by (vm_compute; reflexivity).
  exact H1.
Defined.


(** agent1 takes and releases a read lock on (ws1, /f). *)
Lemma read_lock_round_trip_witness :
  stripReaders (lockKey ++ ":readers:agent1") = lockKey /\
  fst (releaseFileLock redisEnv (lockKey ++ ":readers:agent1") "agent1" readHeld)
    = Returned true /\
  keyspace (snd (releaseFileLock redisEnv (lockKey ++ ":readers:agent1") "agent1" readHeld))
    = keyspace empty.
Proof.
  destruct (read_lock_round_trip redisEnv redisEnv "agent1" "ws1" "/f" empty
              ltac:(vm_compute; reflexivity) eq_refl ltac:(vm_compute; reflexivity)
              ltac:(vm_compute; reflexivity) ltac:(vm_compute; reflexivity))
    as (_ & H2 & H3 & H4 & _).
  split; [exact H2 |]. split; [exact H3 | exact H4].
Defined.

(** The file [/a:readers:b] of workspace ws1. *)
Lemma write_lock_on_readers_path_is_stuck_witness :
  let held := snd (requestFileLock redisEnv "agent1" "ws1" "/a:readers:b" write empty) in
  fst (releaseFileLock redisEnv (lockKeyOf "ws1" "/a:readers:b") "agent1" held)
    = Returned false /\
  published held
    (snd (releaseFileLock redisEnv (lockKeyOf "ws1" "/a:readers:b") "agent1" held)) = [].
Proof.
  destruct (write_lock_on_readers_path_is_stuck redisEnv redisEnv "agent1" "ws1" "/a" "b"
              write empty eq_refl eq_refl ltac:(vm_compute; reflexivity)
              ltac:(vm_compute; reflexivity))
    as (_ & H2 & _ & H4).
  split; [exact H2 | exact H4].
Defined.

(** agent1 releases (ws1, /f) while agent4 waits for file [ws1:/f] of workspace [locks]. *)
Lemma release_wakes_oldest_on_popped_list_witness :
  let oldest := {| agentId := "agent4"; lockType := write; timestamp := 1700000000000;
                   workspaceId := "locks"; filePath := "ws1:/f" |} in
  fst (releaseFileLock redisEnv lockKey "agent1" waiterOnPoppedList) = Returned true /\
  retries waiterOnPoppedList
    (snd (releaseFileLock redisEnv lockKey "agent1" waiterOnPoppedList))
    = [EvLockRetry oldest].
Proof.
  intros oldest.
  destruct (release_wakes_oldest_on_popped_list redisEnv "ws1" "/f" "agent1"
              waiterOnPoppedList (requestOf "agent1" write) (Some 30000%Z) oldest []
              ltac:(vm_compute; reflexivity) ltac:(vm_compute; reflexivity) eq_refl
              ltac:(vm_compute; reflexivity))
    as (H1 & _ & _ & H4).
  split; [exact H1 | exact H4].
Defined.

End LockLaws.

(** ** The durable-store producer: records, failures, life cycle *)

Module ProducerLaws.
Import Kafka Producer.

Ltac unfold_call :=
  unfold call, logFileEdit, saveWorkspaceSnapshot, logConsensusDecision,
    logAgentCoordination, logConflictResolution, startWorkspaceSession,
    endWorkspaceSession, publishMessage, getNextSequence.

(** X11. Each of the seven logging methods, when the send succeeds, sends
    exactly one record: its key and [metadata.workspaceId] are the
    [workspaceId] argument (so the records of a workspace share a partition
    key), its [source], [metadata.agentId] and [agentId] header are the
    [agentId] argument, [metadata.sessionId] is the [sessionId] argument, the
    [messageType] and [correlationId] headers repeat the message's type and
    correlation id, the record time stamp is the message's, and its sequence
    number is the counter's next value. *)
Theorem record_carries_call_arguments (env : Env) (c : Call) (o : Orchestrator) :
  sendError env = None ->
  exists r,
    call env c o = (Returned tt, send r (snd (getNextSequence o))) /\
    key r = callWorkspace c /\
    workspaceId (metadata (value r)) = callWorkspace c /\
    source (value r) = callAgent c /\
    agentId (metadata (value r)) = callAgent c /\
    h_agentId (headers r) = callAgent c /\
    sessionId (metadata (value r)) = Some (callSession c) /\
    h_messageType (headers r) = type (value r) /\
    correlationId (metadata (value r)) = Some (h_correlationId (headers r)) /\
    timestamp (value r) = now env /\
    recordTimestamp r = pretty (now env) /\
    sequenceOf r = (counter o + 1)%N.
Proof.
  intros Hsend. destruct c; unfold_call; rewrite Hsend; cbn;
    eexists; (split; [reflexivity |]); cbn; auto 20.
Qed.


Lemma call_sends (env : Env) (c : Call) (o : Orchestrator) :
  produced (snd (call env c o)) = produced o \/
  exists r, produced (snd (call env c o)) = (produced o ++ [r])%list /\ typed r.
Proof.
  destruct (sendError env) as [error |] eqn:Hsend.
  - left. destruct c; unfold_call; rewrite Hsend; reflexivity.
  - right. destruct c; unfold_call; rewrite Hsend; cbn;
      eexists; (split; [reflexivity |]); unfold typed; cbn;
      repeat split; intros H; try discriminate; try (destruct H; discriminate);
      try reflexivity; eauto.
Qed.

(** X13. On every record an instance has produced, the optional metadata
    follow the message type: [filePath] is present exactly on [edit_history]
    messages, [consensusRound] exactly on [consensus_decision] messages and
    [requiresResponse] exactly on [agent_coordination] messages. The
    edit-history, consensus-decisions, agent-coordination and
    conflict-resolution topics carry exactly the messages of the type of the
    same name; the records on the session-management topic are typed
    [workspace_snapshot]. *)
Theorem optional_metadata_follows_type (calls : list (Env * Call)) (r : ProducerRecord) :
  r ∈ produced (run calls new) ->
  let m := metadata (value r) in
  (is_Some (filePath m) <-> type (value r) = edit_history) /\
  (is_Some (consensusRound m) <-> type (value r) = consensus_decision) /\
  (is_Some (requiresResponse m) <-> type (value r) = agent_coordination) /\
  (topic r = Topics.SESSION_MANAGEMENT -> type (value r) = workspace_snapshot) /\
  (topic r = Topics.EDIT_HISTORY <-> type (value r) = edit_history) /\
  (topic r = Topics.CONSENSUS_DECISIONS <-> type (value r) = consensus_decision) /\
  (topic r = Topics.AGENT_COORDINATION <-> type (value r) = agent_coordination) /\
  (topic r = Topics.CONFLICT_RESOLUTION <-> type (value r) = conflict_resolution).
Proof.
  assert (forall o, Forall typed (produced o) -> Forall typed (produced (run calls o))) as H.
  { induction calls as [| [env c] calls IH]; intros o Ho; simpl; [exact Ho |].
    apply IH. destruct (call_sends env c o) as [-> | (r0 & -> & Hr)]; [exact Ho |].
    apply Forall_app. split; [exact Ho | now constructor]. }
  intros Hin. specialize (H new (List.Forall_nil _)).
  rewrite Forall_forall in H. exact (H r Hin).
Qed.

Lemma call_numbers (env : Env) (c : Call) (o : Orchestrator) :
  counter (snd (call env c o)) = (counter o + 1)%N /\
  map sequenceOf (produced (snd (call env c o))) =
    (map sequenceOf (produced o)
       ++ match sendError env with
          | None => [(counter o + 1)%N]
          | Some _ => []
          end)%list.
Proof.
  destruct c; unfold_call; destruct (sendError env); cbn;
    rewrite ?map_app, ?app_nil_r; auto.
Qed.

(** X14. The sequence numbers of the records produced by a run of logging
    calls are the positions of the calls whose send succeeded, counted from
    the counter's value at the start: the counter advances by one per call,
    and a call whose send fails leaves a gap. *)
Theorem sequence_numbers_are_call_positions (calls : list (Env * Call)) (o : Orchestrator) :
  counter (run calls o) = (counter o + N.of_nat (length calls))%N /\
  map sequenceOf (produced (run calls o)) =
    (map sequenceOf (produced o) ++ numbersSent calls (counter o))%list.
Proof.
  revert o. induction calls as [| [env c] calls IH]; intros o.
  - cbn. rewrite app_nil_r. split; [lia | reflexivity].
  - cbn [run numbersSent length]. destruct (IH (snd (call env c o))) as [IH1 IH2].
    destruct (call_numbers env c o) as [Hc Hp].
    rewrite IH1, IH2, Hc, Hp. split; [lia |].
    rewrite <- List.app_assoc. now destruct (sendError env).
Qed.

Lemma perform_connected (op : Operation) (o : Orchestrator) :
  (connectedEvents (perform op o) + (if isConnected (perform op o) then 0 else 1)
   <= connectedEvents o + (if isConnected o then 0 else 1)
      + (if isDisconnect op then 1 else 0))%nat.
Proof.
  unfold connectedEvents.
  destruct op as [failure | failure | env c]; cbn [perform isDisconnect].
  - unfold connect. destruct (isConnected o) eqn:Hc; cbn; [rewrite Hc; lia |].
    destruct failure; cbn; rewrite ?Hc, List.filter_app, length_app; cbn; lia.
  - unfold disconnect.
    destruct failure; cbn; rewrite List.filter_app, length_app; cbn;
      destruct (isConnected o); lia.
  - destruct c; unfold_call; destruct (sendError env); cbn;
      rewrite ?List.filter_app, ?length_app; cbn; lia.
Qed.

(** X15. Over any history of [connect], [disconnect] and logging calls on
    a new instance, with any outcomes, the number of ['connected'] events
    emitted is at most one more than the number of [disconnect] calls: a
    connected instance does not connect again. *)
Theorem connected_once_per_disconnect (ops : list Operation) :
  (connectedEvents (performAll ops new) <= 1 + disconnects ops)%nat.
Proof.
  assert (forall o,
            (connectedEvents (performAll ops o)
               + (if isConnected (performAll ops o) then 0 else 1)
             <= connectedEvents o + (if isConnected o then 0 else 1) + disconnects ops)%nat)
    as H.
  { unfold performAll, disconnects.
    induction ops as [| op ops IH]; intros o; cbn [fold_left List.filter].
    - cbn. lia.
    - specialize (IH (perform op o)). pose proof (perform_connected op o) as Hop.
      destruct (isDisconnect op); cbn [length]; lia. }
  specialize (H new). cbn in H.
  destruct (isConnected (performAll ops new)); lia.
Qed.

(** *** The laws at concrete runs *)

Import Scenarios ProducerCases.

(** One edit logged on a new instance. *)
Lemma record_carries_call_arguments_witness :
  exists r,
    produced (snd (call kafkaEnv editCall new)) = [r] /\
    key r = "workspace" /\ h_agentId (headers r) = "agent" /\ sequenceOf r = 1%N.
Proof.
  destruct (record_carries_call_arguments kafkaEnv editCall new eq_refl)
    as (r & H & Hkey & _ & _ & _ & Hagent & _ & _ & _ & _ & _ & Hseq).
  exists r. rewrite H. repeat split; assumption.
Defined.


(** The decision record of an edit followed by a decision. *)
Lemma optional_metadata_follows_type_witness :
  exists r,
    produced (run editThenDecision new) !! 1%nat = Some r /\
    type (value r) = consensus_decision /\
    is_Some (consensusRound (metadata (value r))) /\
    topic r = Topics.CONSENSUS_DECISIONS.
Proof.
  eexists. split; [vm_compute; reflexivity |].
  match goal with
  | |- type (value ?r) = _ /\ _ =>
      destruct (optional_metadata_follows_type editThenDecision r
                  ltac:(apply list_elem_of_lookup; exists 1%nat; vm_compute; reflexivity))
        as (_ & H2 & _ & _ & _ & H6 & _)
  end.
  split; [reflexivity |]. split; [apply H2; reflexivity | apply H6; reflexivity].
Defined.

End ProducerLaws.

(** ** The fallback lock manager and the bridge's lock ids *)

Module FallbackLaws.
Import Bridge Fallback JsString JsStringFacts.

Lemma extractWorkspaceFromLock_lockKey (workspaceId filePath : string) :
  extractWorkspaceFromLock (Redis.lockKeyOf workspaceId filePath) = "state".
Proof. unfold extractWorkspaceFromLock. now rewrite RedisLaws.split_lockKey. Qed.

Lemma split_one_word (sep : ascii) (word : string) :
  noSep sep word = true -> split sep word = [word].
Proof.
  induction word as [| c w IH]; intros H; [reflexivity |].
  cbn [noSep] in H. apply andb_true_iff in H as [Hc Hw].
  apply negb_true_iff in Hc. cbn [split]. now rewrite Hc, (IH Hw).
Qed.

(** X16. [extractWorkspaceFromLock] returns the second [":"]-separated part
    of the lock id: for every lock id of the fast store (exclusive or
    reader-scoped) this is the word ["state"] of the key prefix; for a
    fallback lock id [workspaceId:filePath] with a colon-free workspace id it
    is the first part of the file path; for an id without a colon it is
    ["unknown"]. *)
Theorem extractWorkspaceFromLock_is_not_the_workspace
    (workspaceId filePath agent lockId : string) :
  extractWorkspaceFromLock (Redis.lockKeyOf workspaceId filePath) = "state" /\
  extractWorkspaceFromLock (Redis.lockKeyOf workspaceId filePath ++ ":readers:" ++ agent)
    = "state" /\
  (noSep ":" workspaceId = true ->
   extractWorkspaceFromLock (workspaceId ++ ":" ++ filePath)
     = hd "" (split ":" filePath)) /\
  (noSep ":" lockId = true -> extractWorkspaceFromLock lockId = "unknown").
Proof.
  split; [apply extractWorkspaceFromLock_lockKey |]. split.
  - replace (Redis.lockKeyOf workspaceId filePath ++ ":readers:" ++ agent)
      with (Redis.lockKeyOf workspaceId (filePath ++ ":readers:" ++ agent));
      [apply extractWorkspaceFromLock_lockKey |].
    unfold Redis.lockKeyOf. now rewrite !app_assoc.
  - split; intros Hw; unfold extractWorkspaceFromLock.
    + change (workspaceId ++ ":" ++ filePath) with (workspaceId ++ String ":" filePath).
      rewrite split_word by exact Hw.
      pose proof (split_not_nil ":" filePath) as Hn.
      destruct (split ":" filePath); [congruence | reflexivity].
    + now rewrite split_one_word.
Qed.

(** X17. Fallback manager: on a free key that does not contain
    [":readers:"], a request of any type is granted with the key as lock id,
    and the release of that id by the same agent returns true and leaves the
    storage as it was before the request. *)
Theorem fallback_lock_round_trip (now : Z) (agent workspaceId filePath : string)
    (lockType : Redis.LockType) (storage : gmap string FallbackLock) :
  let lockKey := workspaceId ++ ":" ++ filePath in
  let acquired := fallbackFileLock now agent workspaceId filePath lockType storage in
  storage !! lockKey = None ->
  includes ":readers:" lockKey = false ->
  fst acquired = Some lockKey /\
  fallbackLockRelease lockKey agent (snd acquired) = (true, storage).
Proof.
  intros lockKey acquired Hfree Hi. subst acquired.
  unfold fallbackFileLock. fold lockKey. rewrite Hfree. cbn [fst snd].
  split; [reflexivity |].
  unfold fallbackLockRelease. rewrite Hi, lookup_insert_eq. cbn [Bridge.agentId].
  rewrite String.eqb_refl. f_equal. now apply delete_insert_id.
Qed.

(** *** Mutual exclusion over a run of fallback requests *)

Lemma fallback_granted_leaves_record (c : LockCall) (storage : gmap string FallbackLock)
    (lockId : string) :
  fst (request c storage) = Some lockId ->
  exists lock,
    snd (request c storage) !! keyOf c = Some lock /\
    (Redis.isRead (callType c) = false -> Redis.isRead (lockType lock) = false).
Proof.
  unfold request, fallbackFileLock, keyOf.
  destruct (storage !! (callWorkspace c ++ ":" ++ callFile c)) as [existing |].
  - destruct (Redis.isRead (callType c) && Redis.isRead (lockType existing)) eqn:Hb;
      cbn [fst snd]; [| discriminate].
    intros _. rewrite lookup_insert_eq. eexists. split; [reflexivity |].
    apply andb_true_iff in Hb as [Hb _]. congruence.
  - cbn [fst snd]. intros _. rewrite lookup_insert_eq. eexists. split; [reflexivity |].
    auto.
Qed.

(** A request leaves every record in place, with its lock type. *)
Lemma fallback_request_preserves (c : LockCall) (storage : gmap string FallbackLock)
    (k : string) (lock : FallbackLock) :
  storage !! k = Some lock ->
  exists lock',
    snd (request c storage) !! k = Some lock' /\ lockType lock' = lockType lock.
Proof.
  intros Hk. unfold request, fallbackFileLock.
  set (lockKey := callWorkspace c ++ ":" ++ callFile c).
  destruct (decide (lockKey = k)) as [Heq | Hne].
  - rewrite Heq, Hk.
    destruct (Redis.isRead (callType c) && Redis.isRead (lockType lock)); cbn [snd].
    + rewrite lookup_insert_eq. eauto.
    + eauto.
  - destruct (storage !! lockKey) as [existing |].
    + destruct (Redis.isRead (callType c) && Redis.isRead (lockType existing)); cbn [snd].
      * rewrite lookup_insert_ne by exact Hne. eauto.
      * eauto.
    + cbn [snd]. rewrite lookup_insert_ne by exact Hne. eauto.
Qed.

Lemma fallback_held_refuses (c : LockCall) (storage : gmap string FallbackLock)
    (lock : FallbackLock) :
  storage !! keyOf c = Some lock ->
  Redis.isRead (callType c) && Redis.isRead (lockType lock) = false ->
  fst (request c storage) = None.
Proof.
  intros Hk Hb. unfold request, fallbackFileLock. unfold keyOf in Hk.
  now rewrite Hk, Hb.
Qed.

Lemma fallback_held_excludes_later (calls : list LockCall)
    (storage : gmap string FallbackLock) (k : string) (lock : FallbackLock)
    (j : nat) (c : LockCall) (lockId : string) :
  storage !! k = Some lock ->
  calls !! j = Some c -> keyOf c = k ->
  fst (requestAll calls storage) !! j = Some (Some lockId) ->
  Redis.isRead (callType c) = true /\ Redis.isRead (lockType lock) = true.
Proof.
  revert storage lock j. induction calls as [| c0 rest IH];
    intros storage lock j Hk Hc Hkey Hreply; [discriminate |].
  simpl in Hreply.
  destruct (fallback_request_preserves c0 storage k lock Hk) as (lock' & Hk' & Htype).
  pose proof (fallback_held_refuses c0 storage lock) as Hno.
  destruct (request c0 storage) as [reply0 storage1] eqn:Hreq.
  destruct (requestAll rest storage1) as [replies storage2] eqn:Hall.
  destruct j as [| j]; simpl in *.
  - injection Hc as ->. injection Hreply as ->. subst k.
    destruct (Redis.isRead (callType c) && Redis.isRead (lockType lock)) eqn:Hb.
    + now apply andb_true_iff in Hb.
    + specialize (Hno Hk eq_refl). discriminate.
  - rewrite <- Htype. apply (IH storage1 lock' j); auto. now rewrite Hall.
Qed.

(** X18. Fallback manager, mutual exclusion between releases: in any run of
    [fallbackFileLock] calls, from any storage, two calls for the same key
    that are both granted are both read requests. *)
Theorem fallback_grants_exclude (calls : list LockCall)
    (storage : gmap string FallbackLock) (i j : nat) (ci cj : LockCall)
    (idi idj : string) :
  (i < j)%nat ->
  calls !! i = Some ci -> calls !! j = Some cj ->
  keyOf ci = keyOf cj ->
  fst (requestAll calls storage) !! i = Some (Some idi) ->
  fst (requestAll calls storage) !! j = Some (Some idj) ->
  callType ci = Redis.read /\ callType cj = Redis.read.
Proof.
  revert storage i j. induction calls as [| c0 rest IH];
    intros storage i j Hlt Hi Hj Hkey Hri Hrj; [discriminate |].
  simpl in Hri, Hrj.
  pose proof (fallback_granted_leaves_record c0 storage) as Hrecord.
  destruct (request c0 storage) as [reply0 storage1] eqn:Hreq.
  destruct (requestAll rest storage1) as [replies storage2] eqn:Hall.
  destruct j as [| j]; [lia |].
  destruct i as [| i]; simpl in *.
  - injection Hi as ->. injection Hri as ->.
    destruct (Hrecord idi eq_refl) as (lock & Hlock & Htype).
    destruct (fallback_held_excludes_later rest storage1 (keyOf ci) lock j cj idj)
      as [Hrj' Hh]; auto; [now rewrite Hall |].
    split.
    + destruct (callType ci); try reflexivity; specialize (Htype eq_refl); congruence.
    + destruct (callType cj); try reflexivity; discriminate.
  - apply (IH storage1 i j); auto; try lia; now rewrite Hall.
Qed.

(** *** The first reader *)

(** X19. Fallback manager: the first reader of a file is recorded as the
    record's [agentId] and not in [readers]. After a first and a second
    reader have been granted, the record lists the second reader only, and
    the second reader's release deletes the record: the storage is as it was
    before the first request, although the first reader has not released. *)
Theorem fallback_first_reader_is_dropped (now1 now2 : Z)
    (first second workspaceId filePath : string) (storage : gmap string FallbackLock) :
  let lockKey := workspaceId ++ ":" ++ filePath in
  let one := fallbackFileLock now1 first workspaceId filePath Redis.read storage in
  let two := fallbackFileLock now2 second workspaceId filePath Redis.read (snd one) in
  storage !! lockKey = None ->
  includes ":readers:" (lockKey ++ ":readers") = false ->
  noLineTerminator second = true ->
  fst one = Some lockKey /\
  fst two = Some (lockKey ++ ":readers:" ++ second) /\
  snd two !! lockKey =
    Some {| agentId := first; lockType := Redis.read; timestamp := now1;
            workspaceId := workspaceId; filePath := filePath;
            readers := Some [second] |} /\
  fallbackLockRelease (lockKey ++ ":readers:" ++ second) second (snd two)
    = (true, storage).
Proof.
  intros lockKey one two Hfree Hi Hsecond.
  pose proof (LockLaws.stripReaders_reader_id lockKey second Hi Hsecond) as Hbase.
  set (record := {| agentId := first; lockType := Redis.read; timestamp := now1;
                    workspaceId := workspaceId; filePath := filePath;
                    readers := None |}).
  assert (one = (Some lockKey, <[lockKey := record]> storage)) as Hone.
  { subst one. unfold fallbackFileLock. fold lockKey. now rewrite Hfree. }
  assert (two = (Some (lockKey ++ ":readers:" ++ second),
                 <[lockKey := setReaders [second] record]>
                   (<[lockKey := record]> storage))) as Htwo.
  { subst two. rewrite Hone. unfold fallbackFileLock. fold lockKey. cbn [snd].
    now rewrite lookup_insert_eq. }
  rewrite Hone, Htwo. cbn [fst snd].
  split; [reflexivity |]. split; [reflexivity |]. split.
  - now rewrite lookup_insert_eq.
  - unfold fallbackLockRelease.
    replace (includes ":readers:" (lockKey ++ ":readers:" ++ second)) with true
      by (symmetry; apply LockLaws.includes_app).
    rewrite Hbase, lookup_insert_eq. cbn [readers setReaders List.filter].
    rewrite String.eqb_refl. cbn [negb length Nat.eqb]. f_equal.
    rewrite delete_insert_eq. now apply delete_insert_id.
Qed.

(** *** The laws at concrete runs *)

Import Scenarios FallbackCases.

(** agentA takes and releases the write lock of (ws1, /f). *)
Lemma fallback_lock_round_trip_witness :
  fst (fallbackFileLock 1 "agentA" "ws1" "/f" Redis.write ∅) = Some "ws1:/f" /\
  fallbackLockRelease "ws1:/f" "agentA"
    (snd (fallbackFileLock 1 "agentA" "ws1" "/f" Redis.write ∅)) = (true, ∅).
Proof.
  exact (fallback_lock_round_trip 1 "agentA" "ws1" "/f" Redis.write ∅
           (lookup_empty _) eq_refl).
Defined.

(** Two readers of (ws1, /f), both granted. *)
Lemma fallback_grants_exclude_witness :
  fst (requestAll [readByA; readByB] ∅) = [Some "ws1:/f"; Some "ws1:/f:readers:agentB"] /\
  callType readByA = Redis.read /\ callType readByB = Redis.read.
Proof.
  split; [vm_compute; reflexivity |].
  apply (fallback_grants_exclude [readByA; readByB] ∅ 0 1 readByA readByB
           "ws1:/f" "ws1:/f:readers:agentB");
    try reflexivity; try lia; vm_compute; reflexivity.
Defined.

(** agentB releases; agentA was the first reader. *)
Lemma fallback_first_reader_is_dropped_witness :
  fallbackLockRelease "ws1:/f:readers:agentB" "agentB" twoFallbackReaders = (true, ∅).
Proof.
  destruct (fallback_first_reader_is_dropped 1 2 "agentA" "agentB" "ws1" "/f" ∅
              (lookup_empty _) ltac:(vm_compute; reflexivity) eq_refl)
    as (_ & _ & _ & H).
  exact H.
Defined.

End FallbackLaws.

(** ** The bridge's error bookkeeping and start-up *)

Module SupervisionLaws.
Import Bridge Supervision.

Lemma errorCount_step (cfg : Config) (service : Service) (s : State) (input : Input) :
  isReset service input = false ->
  errorCountOf service (step cfg s input)
  = (errorCountOf service s + if isErrorOf service input then 1 else 0)%nat.
Proof.
  unfold errorCountOf. intros Hreset.
  destruct input as [x | x | x m | i | i | i e | now]; cbn [step isErrorOf].
  - cbn in Hreset. destruct x, service; try discriminate; cbn; lia.
  - destruct x, service; cbn; lia.
  - destruct x; unfold handleRedisError, handleKafkaError, handleError;
      rewrite BridgeLaws.healthStatus_attemptReconnect; destruct service; cbn; lia.
  - unfold timerFires. destruct (nth_error (timers s) i); cbn; lia.
  - unfold connectReturns. destruct (nth_error (awaiting s) i); cbn; lia.
  - unfold connectThrows. destruct (nth_error (awaiting s) i); [| cbn; lia].
    cbv zeta. destruct (_ <? _)%nat; cbn [setInProgress healthStatus];
      rewrite ?BridgeLaws.healthStatus_attemptReconnect; cbn; lia.
  - destruct service; cbn; lia.
Qed.

Lemma errorCount_run (cfg : Config) (service : Service) (inputs : list Input) (s : State) :
  resetFree service inputs = true ->
  errorCountOf service (run cfg inputs s)
  = (errorCountOf service s + length (List.filter (isErrorOf service) inputs))%nat.
Proof.
  revert s. induction inputs as [| input inputs IH]; intros s Hfree; cbn.
  - lia.
  - cbn in Hfree. apply andb_true_iff in Hfree as [Hi Hrest].
    apply negb_true_iff in Hi.
    change (fold_left (step cfg) inputs (step cfg s input))
      with (run cfg inputs (step cfg s input)).
    rewrite (IH _ Hrest), (errorCount_step _ _ _ _ Hi).
    destruct (isErrorOf service input); cbn; lia.
Qed.

Lemma lastError_step (cfg : Config) (service : Service) (s : State) (input : Input) :
  isErrorOf service input = false ->
  lastErrorOf service (step cfg s input) = lastErrorOf service s.
Proof.
  unfold lastErrorOf. intros Herr.
  destruct input as [x | x | x m | i | i | i e | now]; cbn [step].
  - destruct x, service; reflexivity.
  - destruct x, service; reflexivity.
  - cbn in Herr.
    destruct x; unfold handleRedisError, handleKafkaError, handleError;
      rewrite BridgeLaws.healthStatus_attemptReconnect; destruct service;
      try discriminate; reflexivity.
  - unfold timerFires. destruct (nth_error (timers s) i); reflexivity.
  - unfold connectReturns. destruct (nth_error (awaiting s) i); reflexivity.
  - unfold connectThrows. destruct (nth_error (awaiting s) i); [| reflexivity].
    cbv zeta. destruct (_ <? _)%nat; cbn [setInProgress healthStatus];
      rewrite ?BridgeLaws.healthStatus_attemptReconnect; reflexivity.
  - destruct service; reflexivity.
Qed.

Lemma lastError_run (cfg : Config) (service : Service) (inputs : list Input) (s : State) :
  forallb (fun i => negb (isErrorOf service i)) inputs = true ->
  lastErrorOf service (run cfg inputs s) = lastErrorOf service s.
Proof.
  revert s. induction inputs as [| input inputs IH]; intros s Hfree; cbn; [reflexivity |].
  cbn in Hfree. apply andb_true_iff in Hfree as [Hi Hrest]. apply negb_true_iff in Hi.
  change (fold_left (step cfg) inputs (step cfg s input))
    with (run cfg inputs (step cfg s input)).
  now rewrite (IH _ Hrest), (lastError_step _ _ _ _ Hi).
Qed.

(** X25. The error count of a service is the number of its ['error']
    events since its last ['connected'] event, whatever else happened in
    between; and the ['connected'] event does not clear [lastError], which
    stays as it was until the next error of the service. *)
Theorem error_count_restarts_on_connect (cfg : Config) (service : Service)
    (before after : list Input) :
  resetFree service after = true ->
  errorCountOf service (run cfg (before ++ Connected service :: after) new)
    = length (List.filter (isErrorOf service) after) /\
  (forallb (fun i => negb (isErrorOf service i)) after = true ->
   lastErrorOf service (run cfg (before ++ Connected service :: after) new)
     = lastErrorOf service (run cfg before new)).
Proof.
  intros Hfree. unfold run. rewrite fold_left_app. cbn [fold_left].
  fold (run cfg before new).
  change (fold_left (step cfg) after ?s) with (run cfg after s).
  split.
  - rewrite (errorCount_run _ _ _ _ Hfree).
    unfold errorCountOf. destruct service; reflexivity.
  - intros Hquiet. rewrite (lastError_run _ _ _ _ Hquiet).
    unfold lastErrorOf. destruct service; reflexivity.
Qed.

(** *** Start-up *)

Lemma run_heard_cons (cfg : Config) (service : Service) (e : OrchestratorEvent)
    (events : list OrchestratorEvent) (s : State) :
  run cfg (map (heard service) (e :: events)) s
  = run cfg (map (heard service) events) (step cfg s (heard service e)).
Proof. reflexivity. Qed.

Lemma connected_heard_other (cfg : Config) (service x : Service)
    (events : list OrchestratorEvent) (s : State) :
  Service_eqb x service = false ->
  connected (backend x (healthStatus (run cfg (map (heard service) events) s)))
  = connected (backend x (healthStatus s)).
Proof.
  intros Hx. revert s. induction events as [| e events IH]; intros s; [reflexivity |].
  rewrite run_heard_cons, IH.
  destruct e; cbn [heard step].
  - destruct service, x; try discriminate; reflexivity.
  - destruct service, x; try discriminate; reflexivity.
  - destruct service; unfold handleRedisError, handleKafkaError, handleError;
      rewrite BridgeLaws.healthStatus_attemptReconnect;
      destruct x; try discriminate; reflexivity.
Qed.

Lemma connected_initializeService (cfg : Config) (service x : Service)
    (outcome : ConnectOutcome) (s : State) :
  connected (backend x (healthStatus (initializeService cfg service outcome s)))
  = if Service_eqb x service then succeeded outcome
    else connected (backend x (healthStatus s)).
Proof.
  unfold initializeService, succeeded. cbv zeta.
  destruct (Service_eqb x service) eqn:Hx.
  - destruct (thrown outcome); unfold handleError;
      rewrite ?BridgeLaws.healthStatus_attemptReconnect;
      destruct service, x; try discriminate; reflexivity.
  - pose proof (connected_heard_other cfg service x (during outcome)
                  (effect (Connect service) s) Hx) as H.
    destruct (thrown outcome); unfold handleError;
      rewrite ?BridgeLaws.healthStatus_attemptReconnect;
      destruct service, x; try discriminate; exact H.
Qed.

(** X27. The status that [initialize()] passes with ['initialized'] is
    the bridge's status at that point. When during each [connect()] call
    only the orchestrator being connected emits events, the [connected]
    flag of each service says whether its [connect()] returned, whatever
    events it emitted and whatever the flags were before, and [overall] is
    the rollup of the two flags. *)
Theorem initialize_ends_rolled_up (cfg : Config) (redisOutcome kafkaOutcome : ConnectOutcome)
    (s : State) :
  let status := snd (initialize cfg redisOutcome kafkaOutcome s) in
  status = healthStatus (fst (initialize cfg redisOutcome kafkaOutcome s)) /\
  connected (redisHealth status) = succeeded redisOutcome /\
  connected (kafkaHealth status) = succeeded kafkaOutcome /\
  overall status =
    (if succeeded redisOutcome && succeeded kafkaOutcome then healthy
     else if succeeded redisOutcome || succeeded kafkaOutcome then degraded
     else offline).
Proof.
  unfold initialize. cbn [fst snd].
  pose proof (connected_initializeService cfg kafka redis kafkaOutcome
                (initializeService cfg redis redisOutcome s)) as Hr.
  pose proof (connected_initializeService cfg kafka kafka kafkaOutcome
                (initializeService cfg redis redisOutcome s)) as Hk.
  rewrite (connected_initializeService cfg redis redis redisOutcome s) in Hr.
  cbn [Service_eqb backend] in Hr, Hk.
  unfold updateOverallHealth. cbn. rewrite Hr, Hk. auto.
Qed.

Lemma errorCount_heard (cfg : Config) (service : Service)
    (events : list OrchestratorEvent) (s : State) :
  errorCountOf service (run cfg (map (heard service) events) s)
  = errorsAfter events (errorCountOf service s).
Proof.
  revert s. induction events as [| e events IH]; intros s; [reflexivity |].
  rewrite run_heard_cons, IH.
  change (errorsAfter (e :: events) (errorCountOf service s))
    with (errorsAfter events
            match e with
            | Connects => 0%nat
            | Disconnects => errorCountOf service s
            | Fails _ => S (errorCountOf service s)
            end).
  f_equal. unfold errorCountOf.
  destruct e; cbn [heard step].
  - destruct service; reflexivity.
  - destruct service; reflexivity.
  - destruct service; unfold handleRedisError, handleKafkaError, handleError;
      rewrite BridgeLaws.healthStatus_attemptReconnect; cbn; lia.
Qed.

Lemma connectedEvents_app (service : Service) (tr tr' : list Effect) :
  connectedEvents service (tr ++ tr')
  = (connectedEvents service tr + connectedEvents service tr')%nat.
Proof. unfold connectedEvents. now rewrite List.filter_app, length_app. Qed.

Lemma trace_attemptReconnect (cfg : Config) (service x : Service) (s : State) :
  connectedEvents x (trace (attemptReconnect cfg service s)) = connectedEvents x (trace s).
Proof.
  unfold attemptReconnect. destruct (reconnectInProgress s service); [reflexivity |].
  destruct (reconnectAttempts cfg <=? _)%nat;
    cbn [trace emit effect setTimeout setTimers setInProgress setAttempts];
    rewrite connectedEvents_app; destruct x; cbn; lia.
Qed.

Lemma connectedEvents_handleError (cfg : Config) (service x : Service) (message : string)
    (s : State) :
  connectedEvents x (trace (handleError cfg service message s)) = connectedEvents x (trace s).
Proof.
  unfold handleError. rewrite trace_attemptReconnect.
  cbn [trace emit effect updateOverallHealth setHealth].
  rewrite !connectedEvents_app. destruct service, x; cbn; lia.
Qed.

Lemma connectedEvents_heard (cfg : Config) (service : Service)
    (events : list OrchestratorEvent) (s : State) :
  connectedEvents service (trace (run cfg (map (heard service) events) s))
  = (connectedEvents service (trace s) + connects events)%nat.
Proof.
  revert s. induction events as [| e events IH]; intros s.
  - cbn. unfold connects. cbn. lia.
  - rewrite run_heard_cons, IH.
    assert (connectedEvents service (trace (step cfg s (heard service e)))
            = (connectedEvents service (trace s)
               + match e with Connects => 1 | _ => 0 end)%nat) as ->.
    { destruct e; cbn [heard step].
      - cbn [trace emit effect updateOverallHealth setHealth onConnected setAttempts].
        rewrite !connectedEvents_app. destruct service; cbn; lia.
      - cbn [trace emit effect updateOverallHealth setHealth onDisconnected].
        rewrite !connectedEvents_app. destruct service; cbn; lia.
      - destruct service; unfold handleRedisError, handleKafkaError;
          rewrite connectedEvents_handleError; lia. }
    unfold connects. destruct e; cbn [List.filter length]; lia.
Qed.

(** X28. One [try] block of [initialize()]: the bridge emits
    [<service>_connected] once for every ['connected'] event of the
    orchestrator and once more when [connect()] returns, so twice for a
    [connect()] that emits ['connected'] and returns; and the error count
    is the count of the ['error'] events since the last ['connected']
    event, plus one when [connect()] throws, so two more for a [connect()]
    that emits ['error'] and throws. A [connect()] that returns without a
    ['connected'] event leaves the error count as it was. *)
Theorem initialize_counts_twice (cfg : Config) (service : Service)
    (outcome : ConnectOutcome) (s : State) :
  let s' := initializeService cfg service outcome s in
  connectedEvents service (trace s')
    = (connectedEvents service (trace s) + connects (during outcome)
       + if succeeded outcome then 1 else 0)%nat /\
  errorCountOf service s'
    = (errorsAfter (during outcome) (errorCountOf service s)
       + if succeeded outcome then 0 else 1)%nat.
Proof.
  cbv zeta. unfold initializeService, succeeded.
  pose proof (connectedEvents_heard cfg service (during outcome)
                (effect (Connect service) s)) as Hc.
  pose proof (errorCount_heard cfg service (during outcome)
                (effect (Connect service) s)) as He.
  assert (connectedEvents service (trace (effect (Connect service) s))
          = connectedEvents service (trace s)) as Hc0.
  { cbn [trace effect]. rewrite connectedEvents_app. destruct service; cbn; lia. }
  rewrite Hc0 in Hc.
  change (errorCountOf service (effect (Connect service) s))
    with (errorCountOf service s) in He.
  destruct (thrown outcome) as [message |].
  - rewrite connectedEvents_handleError, Hc. split; [lia |].
    rewrite <- He. unfold errorCountOf, handleError.
    rewrite BridgeLaws.healthStatus_attemptReconnect.
    destruct service; cbn; lia.
  - split.
    + cbn [trace emit effect setConnected setHealth].
      rewrite connectedEvents_app, Hc. destruct service; cbn; lia.
    + rewrite <- He. unfold errorCountOf. destruct service; cbn; lia.
Qed.

(** *** The law at a concrete run *)

(** Two errors, a reconnect, one more error. *)
Lemma error_count_restarts_on_connect_witness :
  errorCountOf redis
    (run Scenarios.threeAttempts
       ([Error redis "ECONNRESET"; Error redis "ECONNRESET"]
          ++ Connected redis :: [Error redis "ETIMEDOUT"; HealthCheck 5])
       new) = 1%nat.
Proof.
  destruct (error_count_restarts_on_connect Scenarios.threeAttempts redis
              [Error redis "ECONNRESET"; Error redis "ECONNRESET"]
              [Error redis "ETIMEDOUT"; HealthCheck 5] eq_refl) as [H _].
  exact H.
Defined.

End SupervisionLaws.

(** ** The bridge's operations over both orchestrators *)

Module WorkspaceLaws.
Import Workspace.

Lemma redis_connected_handleError (cfg : Bridge.Config) (service : Bridge.Service)
    (message : string) (s : Bridge.State) :
  Bridge.connected
    (Bridge.redisHealth (Bridge.healthStatus (Bridge.handleError cfg service message s)))
  = match service with
    | Bridge.redis => false
    | Bridge.kafka => Bridge.connected (Bridge.redisHealth (Bridge.healthStatus s))
    end.
Proof.
  unfold Bridge.handleError. rewrite BridgeLaws.healthStatus_attemptReconnect.
  destruct service; reflexivity.
Qed.

Lemma kafka_connected_handleError (cfg : Bridge.Config) (service : Bridge.Service)
    (message : string) (s : Bridge.State) :
  Bridge.connected
    (Bridge.kafkaHealth (Bridge.healthStatus (Bridge.handleError cfg service message s)))
  = match service with
    | Bridge.redis => Bridge.connected (Bridge.kafkaHealth (Bridge.healthStatus s))
    | Bridge.kafka => false
    end.
Proof.
  unfold Bridge.handleError. rewrite BridgeLaws.healthStatus_attemptReconnect.
  destruct service; reflexivity.
Qed.

(** An error of the fast store while the durable store is flagged
    disconnected leaves the bridge offline. *)
Lemma overall_handleRedisError (cfg : Bridge.Config) (message : string) (s : Bridge.State) :
  Bridge.connected (Bridge.kafkaHealth (Bridge.healthStatus s)) = false ->
  Bridge.overall (Bridge.healthStatus (Bridge.handleError cfg Bridge.redis message s))
  = Bridge.offline.
Proof.
  unfold Bridge.handleError. rewrite BridgeLaws.healthStatus_attemptReconnect.
  cbn. intros ->. reflexivity.
Qed.

Lemma logFileEdit_fails (env : Kafka.Env) (agent workspaceId sessionId filePath : string)
    (editData : Kafka.EditData) (o : Kafka.Orchestrator) (error : string) :
  Kafka.sendError env = Some error ->
  Kafka.logFileEdit env agent workspaceId sessionId filePath editData o =
  (Kafka.Thrown error,
   Kafka.emit (Kafka.EvError ("Message publish failed: " ++ error))
     (snd (Kafka.getNextSequence o))).
Proof.
  intros H. unfold Kafka.logFileEdit, Kafka.publishMessage. cbn. now rewrite H.
Qed.

(** X20. Bridge [requestFileLock], both stores flagged connected: when the
    fast store grants the lock and the audit write to the durable store then
    throws, the [catch] of the fast-store path handles it as a fast-store
    error. The call returns what the fallback manager answers, while the fast
    store keeps the lock it granted; both stores are flagged disconnected,
    the overall health is offline, no record is produced and no
    ['workspace_operation'] is emitted. *)
Theorem lock_request_falls_back_when_audit_fails (cfg : Bridge.Config) (env : Env)
    (agent workspaceId filePath : string) (lockType : Redis.LockType) (sys : System)
    (lockId : string) (st' : Redis.Store) (error : string) :
  let outcome := requestFileLock cfg env agent workspaceId filePath lockType sys in
  redisConnected sys = true ->
  kafkaConnected sys = true ->
  Redis.requestFileLock (redisEnv env) agent workspaceId filePath lockType
    (redisOrchestrator sys) = (Redis.Returned (Some lockId), st') ->
  Kafka.sendError (kafkaEnv env) = Some error ->
  fst outcome =
    fst (Bridge.fallbackFileLock (now env) agent workspaceId filePath lockType
           (fallbackStorage sys)) /\
  redisOrchestrator (snd outcome) = st' /\
  redisConnected (snd outcome) = false /\
  kafkaConnected (snd outcome) = false /\
  Bridge.overall (Bridge.healthStatus (bridge (snd outcome))) = Bridge.offline /\
  operations (snd outcome) = operations sys /\
  Kafka.produced (kafkaOrchestrator (snd outcome))
    = Kafka.produced (kafkaOrchestrator sys).
Proof.
  intros outcome Hredis Hkafka Hgranted Hsend. subst outcome.
  unfold requestFileLock. rewrite Hredis.
  unfold callRedis. rewrite Hgranted.
  rewrite (LockLaws.granted_request_is_mute _ _ _ _ _ _ _ _ Hgranted).
  cbn [fold_left truthy].
  apply LockLaws.granted_id_nonempty, String.eqb_neq in Hgranted as ->. cbn [negb].
  change (kafkaConnected (withRedis st' sys)) with (kafkaConnected sys).
  rewrite Hkafka. cbn [andb].
  unfold callKafka. rewrite (logFileEdit_fails _ _ _ _ _ _ _ _ Hsend).
  cbn [Kafka.emit Kafka.emitted Kafka.getNextSequence snd withRedis kafkaOrchestrator].
  rewrite skipn_app, skipn_all, Nat.sub_diag. cbn [skipn app fold_left onKafkaEvent].
  unfold fallbackFileLock.
  cbn [withBridge withKafka withRedis fallbackStorage bridge].
  destruct (Bridge.fallbackFileLock (now env) agent workspaceId filePath lockType
              (fallbackStorage sys)) as [reply storage].
  unfold redisConnected, kafkaConnected.
  cbn [fst snd withFallback withBridge withKafka withRedis redisOrchestrator
       kafkaOrchestrator operations bridge Kafka.produced Kafka.emit].
  unfold Bridge.handleRedisError, Bridge.handleKafkaError.
  rewrite overall_handleRedisError by apply kafka_connected_handleError.
  rewrite redis_connected_handleError, !kafka_connected_handleError.
  repeat split.
Qed.

Lemma retries_leave_bridge (cfg : Bridge.Config) (requests : list Redis.LockRequest)
    (sys : System) :
  let sys' := fold_left (onRedisEvent cfg) (map Redis.EvLockRetry requests) sys in
  bridge sys' = bridge sys /\
  redisOrchestrator sys' = redisOrchestrator sys /\
  kafkaOrchestrator sys' = kafkaOrchestrator sys /\
  fallbackStorage sys' = fallbackStorage sys /\
  operations sys' = operations sys.
Proof.
  revert sys. induction requests as [| r rs IH]; intros sys; cbn; [auto 10 |].
  destruct (IH (onRedisEvent cfg sys (Redis.EvLockRetry r))) as (H1 & H2 & H3 & H4 & H5).
  cbn in *. auto 10.
Qed.

Lemma callKafka_logFileEdit (cfg : Bridge.Config) (env : Kafka.Env)
    (agent workspaceId sessionId filePath : string) (editData : Kafka.EditData)
    (sys : System) :
  Kafka.sendError env = None ->
  callKafka cfg (Kafka.logFileEdit env agent workspaceId sessionId filePath editData) sys
  = (Kafka.Returned tt,
     withKafka
       (snd (Kafka.logFileEdit env agent workspaceId sessionId filePath editData
               (kafkaOrchestrator sys))) sys).
Proof.
  intros Hsend. unfold callKafka, Kafka.logFileEdit, Kafka.publishMessage.
  cbn. rewrite Hsend. cbn. now rewrite skipn_all.
Qed.

(** X21. Bridge [releaseFileLock], both stores connected: when the fast
    store releases the lock of (workspaceId, filePath) and the audit write
    succeeds, the call returns true, the fallback storage is untouched, and
    both the ['workspace_operation'] event and the one audit record (on the
    edit-history topic, with an empty file path) carry the workspace
    ["state"], which is what [extractWorkspaceFromLock] reads in the lock
    id. *)
Theorem release_audit_is_keyed_by_state (cfg : Bridge.Config) (env : Env)
    (agent workspaceId filePath : string) (sys : System) (st' : Redis.Store) :
  let lockId := Redis.lockKeyOf workspaceId filePath in
  let outcome := releaseFileLock cfg env lockId agent sys in
  redisConnected sys = true ->
  kafkaConnected sys = true ->
  Redis.releaseFileLock (redisEnv env) lockId agent (redisOrchestrator sys)
    = (Redis.Returned true, st') ->
  Kafka.sendError (kafkaEnv env) = None ->
  fst outcome = true /\
  fallbackStorage (snd outcome) = fallbackStorage sys /\
  (exists operation,
     operations (snd outcome) = (operations sys ++ [operation])%list /\
     Workspace.workspaceId operation = "state") /\
  exists record,
    Kafka.sentBy (kafkaOrchestrator sys) (kafkaOrchestrator (snd outcome)) = [record] /\
    Kafka.topic record = Kafka.Topics.EDIT_HISTORY /\
    Kafka.key record = "state" /\
    Kafka.filePath (Kafka.metadata (Kafka.value record)) = Some "".
Proof.
  intros lockId outcome Hredis Hkafka Hreleased Hsend.
  destruct (LockLaws.released_emits_retries _ _ _ _ _ Hreleased) as [requests Hretries].
  destruct (retries_leave_bridge cfg requests (withRedis st' sys))
    as (Hb & Hr & Hk & Hf & Ho).
  set (sys1 := fold_left (onRedisEvent cfg) (map Redis.EvLockRetry requests)
                 (withRedis st' sys)) in *.
  cbn [withRedis bridge kafkaOrchestrator fallbackStorage operations] in Hb, Hk, Hf, Ho.
  assert (Fallback.extractWorkspaceFromLock lockId = "state") as Hstate
    by apply FallbackLaws.extractWorkspaceFromLock_lockKey.
  assert (exists operation,
            Workspace.workspaceId operation = "state" /\
            outcome =
            (true,
             emitOperation operation
               (withKafka
                  (snd (Kafka.logFileEdit (kafkaEnv env) agent "state"
                          (generateSessionId env) "" (auditEdit "Lock released")
                          (kafkaOrchestrator sys1))) sys1))) as (operation & Hop & ->).
  { eexists. split; [| subst outcome; unfold releaseFileLock; rewrite Hredis;
                       unfold callRedis; rewrite Hreleased, Hretries; fold sys1;
                       unfold kafkaConnected; rewrite Hb; fold (kafkaConnected sys);
                       rewrite Hkafka; cbn [andb Workspace.workspaceId];
                       rewrite Hstate, (callKafka_logFileEdit _ _ _ _ _ _ _ _ Hsend);
                       reflexivity].
    reflexivity. }
  cbn [fst snd emitOperation withKafka fallbackStorage operations kafkaOrchestrator].
  rewrite Hf, Ho, Hk.
  split; [reflexivity |]. split; [reflexivity |]. split; [eauto |].
  unfold Kafka.sentBy, Kafka.logFileEdit, Kafka.publishMessage. cbn.
  rewrite Hsend. cbn. rewrite skipn_app, skipn_all, Nat.sub_diag. cbn.
  eexists. split; [reflexivity |]. cbn. auto.
Qed.

(** X22. Bridge [requestFileLock], fast store flagged connected: when the
    lock key holds a value that is not a string, the fast-store orchestrator
    reports the error and returns null, and so does the bridge. It does not
    consult the fallback manager; it flags the fast store disconnected with
    one more error counted, writes nothing to either store and emits the
    ['workspace_operation'] event. *)
Theorem fast_store_error_is_not_a_fallback (cfg : Bridge.Config) (env : Env)
    (agent workspaceId filePath : string) (lockType : Redis.LockType) (sys : System)
    (value : Redis.Value) :
  let outcome := requestFileLock cfg env agent workspaceId filePath lockType sys in
  redisConnected sys = true ->
  Redis.keyspace (redisOrchestrator sys) !! Redis.lockKeyOf workspaceId filePath
    = Some value ->
  Locks.isStringValue value = false ->
  fst outcome = None /\
  fallbackStorage (snd outcome) = fallbackStorage sys /\
  Redis.keyspace (redisOrchestrator (snd outcome))
    = Redis.keyspace (redisOrchestrator sys) /\
  redisConnected (snd outcome) = false /\
  Bridge.errorCount (Bridge.redisHealth (Bridge.healthStatus (bridge (snd outcome))))
    = S (Bridge.errorCount (Bridge.redisHealth (Bridge.healthStatus (bridge sys)))) /\
  kafkaOrchestrator (snd outcome) = kafkaOrchestrator sys /\
  length (operations (snd outcome)) = S (length (operations sys)).
Proof.
  intros outcome Hredis Hvalue Hwrong. subst outcome.
  assert (Redis.requestFileLock (redisEnv env) agent workspaceId filePath lockType
            (redisOrchestrator sys) =
          (Redis.Returned None,
           {| Redis.keyspace := Redis.keyspace (redisOrchestrator sys);
              Redis.streams := Redis.streams (redisOrchestrator sys);
              Redis.emitted :=
                (Redis.emitted (redisOrchestrator sys)
                   ++ [Redis.EvError ("Lock request failed: " ++ Redis.WRONGTYPE)])%list |}))
    as Hreq.
  { unfold Redis.requestFileLock, Redis.tryCatch, Redis.bind at 1, Redis.get,
      Redis.bind at 1, Redis.lookupKey. rewrite Hvalue.
    destruct value as [s px | | |]; [discriminate | reflexivity ..]. }
  unfold requestFileLock. rewrite Hredis. unfold callRedis. rewrite Hreq.
  unfold Redis.retries. cbn [Redis.emitted].
  rewrite skipn_app, skipn_all, Nat.sub_diag. cbn [skipn app fold_left onRedisEvent].
  cbn [truthy andb fst snd].
  unfold redisConnected.
  cbn [emitOperation withBridge withRedis fallbackStorage redisOrchestrator
       kafkaOrchestrator operations bridge Redis.keyspace].
  unfold Bridge.handleRedisError.
  rewrite redis_connected_handleError.
  rewrite length_app. cbn [length].
  unfold Bridge.handleError. rewrite BridgeLaws.healthStatus_attemptReconnect. cbn.
  repeat split; lia.
Qed.

(** *** A failed write to the durable store *)

Lemma kafka_connected_timerFires (i : nat) (s : Bridge.State) :
  Bridge.healthStatus (Bridge.timerFires i s) = Bridge.healthStatus s.
Proof. unfold Bridge.timerFires. now destruct (nth_error (Bridge.timers s) i). Qed.

Lemma healthStatus_connectReturns (i : nat) (s : Bridge.State) :
  Bridge.healthStatus (Bridge.connectReturns i s) = Bridge.healthStatus s.
Proof. unfold Bridge.connectReturns. now destruct (nth_error (Bridge.awaiting s) i). Qed.

Lemma healthStatus_connectThrows (cfg : Bridge.Config) (i : nat) (error : string)
    (s : Bridge.State) :
  Bridge.healthStatus (Bridge.connectThrows cfg i error s) = Bridge.healthStatus s.
Proof.
  unfold Bridge.connectThrows. destruct (nth_error (Bridge.awaiting s) i); [| reflexivity].
  cbv zeta. destruct (_ <? _)%nat; cbn [Bridge.setInProgress Bridge.healthStatus];
    rewrite ?BridgeLaws.healthStatus_attemptReconnect; reflexivity.
Qed.

Lemma kafka_connected_onConnected_redis (s : Bridge.State) :
  Bridge.connected (Bridge.kafkaHealth (Bridge.healthStatus
    (Bridge.onConnected Bridge.redis s)))
  = Bridge.connected (Bridge.kafkaHealth (Bridge.healthStatus s)).
Proof. reflexivity. Qed.

(** The bridge flags the durable store disconnected while the orchestrator
    itself is connected, and the orchestrator has produced [records]. *)
Definition disabled (records : list Kafka.ProducerRecord) (sys : System) : Prop :=
  kafkaConnected sys = false /\
  Kafka.isConnected (kafkaOrchestrator sys) = true /\
  Kafka.produced (kafkaOrchestrator sys) = records.

Lemma disabled_ext (records : list Kafka.ProducerRecord) (sys sys' : System) :
  kafkaConnected sys' = kafkaConnected sys ->
  kafkaOrchestrator sys' = kafkaOrchestrator sys ->
  disabled records sys -> disabled records sys'.
Proof. unfold disabled. intros -> ->. auto. Qed.

Lemma disabled_onRedisEvent (cfg : Bridge.Config) (records : list Kafka.ProducerRecord)
    (e : Redis.Event) (sys : System) :
  disabled records sys -> disabled records (onRedisEvent cfg sys e).
Proof.
  apply disabled_ext; destruct e; try reflexivity.
  exact (kafka_connected_handleError cfg Bridge.redis message (bridge sys)).
Qed.

Lemma disabled_callRedis {A} (cfg : Bridge.Config) (records : list Kafka.ProducerRecord)
    (method : Redis.M A) (sys : System) :
  disabled records sys -> disabled records (snd (callRedis cfg method sys)).
Proof.
  intros H. unfold callRedis. destruct (method (redisOrchestrator sys)) as [reply st'].
  cbn [snd].
  assert (disabled records (withRedis st' sys)) as H'
    by (revert H; now apply disabled_ext).
  revert H'. generalize (withRedis st' sys).
  induction (Redis.retries (redisOrchestrator sys) st') as [| e es IH]; intros sys0 H0.
  - exact H0.
  - cbn [fold_left]. apply IH. now apply disabled_onRedisEvent.
Qed.

Lemma disabled_handleRedisError (cfg : Bridge.Config) (records : list Kafka.ProducerRecord)
    (message : string) (sys : System) :
  disabled records sys ->
  disabled records (withBridge (Bridge.handleRedisError cfg message) sys).
Proof.
  apply disabled_ext; [| reflexivity].
  exact (kafka_connected_handleError cfg Bridge.redis message (bridge sys)).
Qed.

Lemma disabled_fallbackFileLock (records : list Kafka.ProducerRecord) (env : Env)
    (agentId workspaceId filePath : string) (lockType : Redis.LockType) (sys : System) :
  disabled records sys ->
  disabled records (snd (fallbackFileLock env agentId workspaceId filePath lockType sys)).
Proof.
  unfold fallbackFileLock. destruct (Bridge.fallbackFileLock _ _ _ _ _ _).
  now apply disabled_ext.
Qed.

Lemma disabled_fallbackLockRelease (records : list Kafka.ProducerRecord)
    (lockId agentId : string) (sys : System) :
  disabled records sys ->
  disabled records (snd (fallbackLockRelease lockId agentId sys)).
Proof.
  unfold fallbackLockRelease. destruct (Bridge.fallbackLockRelease _ _ _).
  now apply disabled_ext.
Qed.

Lemma disabled_emitOperation (records : list Kafka.ProducerRecord)
    (operation : WorkspaceOperation) (sys : System) :
  disabled records sys -> disabled records (emitOperation operation sys).
Proof. now apply disabled_ext. Qed.

(** While the durable store is disabled, no step enables it and no step
    produces a record. *)
Lemma disabled_perform (cfg : Bridge.Config) (records : list Kafka.ProducerRecord)
    (sys : System) (step : Step) :
  disabled records sys -> disabled records (perform cfg sys step).
Proof.
  intros H.
  destruct step as [env agent workspaceId filePath lockType | env lockId agent
                   | env agent workspaceId decision
                   | i redisOutcome kafkaFailure];
    cbn [perform].
  - unfold requestFileLock. cbv zeta. destruct (redisConnected sys).
    + pose proof (disabled_callRedis cfg records
                    (Redis.requestFileLock (redisEnv env) agent workspaceId filePath
                       lockType) sys H) as H1.
      destruct (callRedis _ _ sys) as [[lock | error] sys1]; cbn [snd] in H1.
      * destruct H1 as (Hf & H1). rewrite Hf, andb_false_r. cbn [snd].
        apply disabled_emitOperation. now split.
      * now apply disabled_fallbackFileLock, disabled_handleRedisError.
    + now apply disabled_fallbackFileLock.
  - unfold releaseFileLock. cbv zeta. destruct (redisConnected sys).
    + pose proof (disabled_callRedis cfg records
                    (Redis.releaseFileLock (redisEnv env) lockId agent) sys H) as H1.
      destruct (callRedis _ _ sys) as [[released | error] sys1]; cbn [snd] in H1.
      * destruct H1 as (Hf & H1). rewrite Hf, andb_false_r. cbn [snd].
        apply disabled_emitOperation. now split.
      * now apply disabled_fallbackLockRelease, disabled_handleRedisError.
    + now apply disabled_fallbackLockRelease.
  - unfold logConsensusDecision. destruct H as (Hf & H). rewrite Hf.
    apply disabled_emitOperation. now split.
  - unfold reconnectTimer.
    destruct (nth_error (Bridge.timers (bridge sys)) i) as [t |]; [| exact H].
    destruct (Bridge.timerService t).
    + revert H. apply disabled_ext.
      * unfold kafkaConnected.
        destruct (Supervision.thrown redisOutcome);
          cbn [withBridge bridge];
          rewrite ?healthStatus_connectReturns, ?healthStatus_connectThrows;
          rewrite (SupervisionLaws.connected_heard_other cfg Bridge.redis Bridge.kafka
                     (Supervision.during redisOutcome) _ eq_refl
                   : Bridge.connected (Bridge.kafkaHealth _) = _);
          now rewrite kafka_connected_timerFires.
      * now destruct (Supervision.thrown redisOutcome).
    + destruct H as (Hf & Hc & Hp).
      unfold callKafka, Producer.connect.
      cbn [withBridge kafkaOrchestrator]. rewrite Hc.
      rewrite skipn_all. cbn [fold_left].
      unfold disabled, kafkaConnected in *.
      cbn [withBridge withKafka bridge kafkaOrchestrator].
      rewrite healthStatus_connectReturns, kafka_connected_timerFires. auto.
Qed.

(** X29. When the bridge logs a decision and the send fails while the
    durable-store orchestrator is connected, the bridge flags the durable
    store disconnected, and it stays so through every later run of lock
    requests, lock releases, decision logs and reconnect timers: the
    orchestrator's [connect()] returns at once without a ['connected']
    event, since its own [isConnected] is still true. None of these
    operations produces a record, also when the broker accepts every
    send. *)
Theorem failed_write_disables_durable_store (cfg : Bridge.Config) (env : Env)
    (agent workspaceId : string) (decision : Kafka.Decision) (sys : System)
    (error : string) (steps : list Step) :
  let failed := logConsensusDecision cfg env agent workspaceId decision sys in
  let later := fold_left (perform cfg) steps failed in
  kafkaConnected sys = true ->
  Kafka.isConnected (kafkaOrchestrator sys) = true ->
  Kafka.sendError (kafkaEnv env) = Some error ->
  kafkaConnected later = false /\
  Kafka.isConnected (kafkaOrchestrator later) = true /\
  Kafka.produced (kafkaOrchestrator later) = Kafka.produced (kafkaOrchestrator sys).
Proof.
  intros failed later Hflag Hconn Hsend.
  assert (disabled (Kafka.produced (kafkaOrchestrator sys)) failed) as Hfailed.
  { subst failed. unfold disabled, logConsensusDecision. rewrite Hflag.
    unfold callKafka, Kafka.logConsensusDecision, Kafka.publishMessage.
    cbn. rewrite Hsend. cbn.
    rewrite skipn_app, skipn_all, Nat.sub_diag.
    cbn [skipn app fold_left onKafkaEvent].
    unfold kafkaConnected.
    cbn [emitOperation withBridge withKafka bridge kafkaOrchestrator
         Kafka.isConnected Kafka.produced].
    unfold Bridge.handleKafkaError. rewrite kafka_connected_handleError. auto. }
  subst later. clearbody failed. clear Hflag Hsend Hconn.
  revert failed Hfailed. induction steps as [| step steps IH]; intros failed Hfailed.
  - exact Hfailed.
  - cbn [fold_left]. apply IH. now apply disabled_perform.
Qed.

(** *** The laws at concrete runs *)

Import WorkspaceCases.

(** agent1 asks for the write lock of (ws1, /f) while the broker is down. *)
Lemma lock_request_falls_back_when_audit_fails_witness :
  let outcome := requestFileLock Scenarios.threeAttempts auditDown "agent1" "ws1" "/f" Redis.write
                   healthySystem in
  fst outcome = Some "ws1:/f" /\
  redisOrchestrator (snd outcome) = Scenarios.writeHeld /\
  Bridge.overall (Bridge.healthStatus (bridge (snd outcome))) = Bridge.offline.
Proof.
  destruct (lock_request_falls_back_when_audit_fails Scenarios.threeAttempts auditDown
              "agent1" "ws1" "/f" Redis.write healthySystem Scenarios.lockKey Scenarios.writeHeld
              "Error: broker down" eq_refl eq_refl
              ltac:(vm_compute; reflexivity) eq_refl)
    as (H1 & H2 & _ & _ & H5 & _).
  split; [exact H1 |]. split; [exact H2 | exact H5].
Defined.

(** agent1 releases the write lock of (ws1, /f). *)
Lemma release_audit_is_keyed_by_state_witness :
  let outcome := releaseFileLock Scenarios.threeAttempts auditUp Scenarios.lockKey "agent1" lockHeldSystem in
  fst outcome = true /\
  exists record,
    Kafka.produced (kafkaOrchestrator (snd outcome)) = [record] /\
    Kafka.key record = "state".
Proof.
  destruct (release_audit_is_keyed_by_state Scenarios.threeAttempts auditUp "agent1" "ws1" "/f"
              lockHeldSystem
              (snd (Redis.releaseFileLock Scenarios.redisEnv Scenarios.lockKey "agent1" Scenarios.writeHeld))
              eq_refl eq_refl ltac:(vm_compute; reflexivity) eq_refl)
    as (H1 & _ & _ & record & H4 & _ & H6 & _).
  split; [exact H1 |]. exists record. split; [exact H4 | exact H6].
Defined.

(** The lock key of (ws1, /f) holds a set. *)
Lemma fast_store_error_is_not_a_fallback_witness :
  let outcome := requestFileLock Scenarios.threeAttempts auditUp "agent1" "ws1" "/f" Redis.write
                   wrongTypeSystem in
  fst outcome = None /\
  fallbackStorage (snd outcome) = ∅ /\
  redisConnected (snd outcome) = false.
Proof.
  destruct (fast_store_error_is_not_a_fallback Scenarios.threeAttempts auditUp "agent1" "ws1" "/f"
              Redis.write wrongTypeSystem strayValue eq_refl
              ltac:(vm_compute; reflexivity) eq_refl)
    as (H1 & H2 & _ & H4 & _).
  split; [exact H1 |]. split; [exact H2 | exact H4].
Defined.

(** One failed decision log, then the reconnect timer, a decision and a lock request with a working broker. *)
Lemma failed_write_disables_durable_store_witness :
  let failed := logConsensusDecision Scenarios.threeAttempts auditDown "agent1" "ws1"
                  (Scenarios.decisionFor "p1") runningSystem in
  let later := fold_left (perform Scenarios.threeAttempts) afterFailure failed in
  kafkaConnected later = false /\
  Kafka.produced (kafkaOrchestrator later) = [].
Proof.
  destruct (failed_write_disables_durable_store Scenarios.threeAttempts auditDown
              "agent1" "ws1" (Scenarios.decisionFor "p1") runningSystem "Error: broker down"
              afterFailure eq_refl eq_refl eq_refl)
    as (H1 & _ & H3).
  split; [exact H1 | exact H3].
Defined.

End WorkspaceLaws.

(** ** Builder and validator of the workspace configuration *)

Module ConfigLaws.
Import Config.

Lemma orString_nonempty (x : option string) (d : string) :
  d <> "" -> orString x d <> "".
Proof.
  intros Hd. unfold orString. destruct x as [s |]; [| exact Hd].
  destruct (String.eqb s "") eqn:E; [exact Hd | now apply String.eqb_neq].
Qed.

Lemma orNumber_nonzero (x : option Z) (d : Z) : d <> 0%Z -> orNumber x d <> 0%Z.
Proof.
  intros Hd. unfold orNumber. destruct x as [n |]; [| exact Hd].
  destruct (n =? 0)%Z eqn:E; [exact Hd | now apply Z.eqb_neq].
Qed.

Lemma orFraction_nonzero (x : option Q) (d : Q) :
  Qeq_bool d 0 = false -> Qeq_bool (orFraction x d) 0 = false.
Proof.
  intros Hd. unfold orFraction. destruct x as [q |]; [| exact Hd].
  destruct (Qeq_bool q 0) eqn:E; [exact Hd | exact E].
Qed.

Lemma configure_snoc (calls : list Call) (c : Call) :
  configure (calls ++ [c]) = call (configure calls) c.
Proof. unfold configure. now rewrite fold_left_app. Qed.

Lemma defaulted_call (b : Builder) (c : Call) : defaulted b -> defaulted (call b c).
Proof.
  intros (Hr & Hl & Hc). unfold defaulted, redisOf in *.
  destruct c; cbn; repeat split; auto.
  - intros r [= <-]. cbn. now apply orString_nonempty.
  - destruct (b_infrastructure b); cbn in *; auto.
  - destruct (b_infrastructure b); cbn in *; auto.
  - intros l0 [= <-]. cbn. now apply orNumber_nonzero.
  - intros c0 [= <-]. cbn. now apply orFraction_nonzero.
Qed.

Lemma defaulted_configure (calls : list Call) : defaulted (configure calls).
Proof.
  induction calls as [| c calls IH] using rev_ind.
  - repeat split; cbn; intros; discriminate.
  - rewrite configure_snoc. now apply defaulted_call.
Qed.

(** X23. Builder and validator. Every configuration that [build()]
    returns, after any chain of builder calls, has a non-empty fast-store
    host, a non-empty workspace root, a non-zero [maxAgentsPerWorkspace] and
    a non-zero [majorityThreshold]. So [validate] reports at most three
    errors on it, in this order: an empty broker list, a negative
    [maxAgentsPerWorkspace], a [majorityThreshold] outside [0, 1]. *)
Theorem built_configuration_errors (calls : list Call) (config : WorkspaceConfiguration) :
  build (configure calls) = inr config ->
  exists r k,
    redis (infrastructure config) = Some r /\
    kafka (infrastructure config) = Some k /\
    host r <> "" /\
    workspaceRoot (storage config) <> "" /\
    maxAgentsPerWorkspace (limits config) <> 0%Z /\
    ~ (majorityThreshold (consensus config) == 0)%Q /\
    validate config =
      Some (ifTrue (length (brokers k) =? 0)%nat "At least one Kafka broker is required"
            ++ ifTrue (maxAgentsPerWorkspace (limits config) <? 0)%Z
                 "maxAgentsPerWorkspace must be at least 1"
            ++ ifTrue (negb (Qle_bool 0 (majorityThreshold (consensus config)))
                       || negb (Qle_bool (majorityThreshold (consensus config)) 1))
                 "majorityThreshold must be between 0 and 1")%list.
Proof.
  intros Hbuild.
  destruct (defaulted_configure calls) as (Hr & Hl & Hc).
  unfold build, redisOf in *.
  destruct (b_infrastructure (configure calls)) as [i |]; [| discriminate].
  destruct (redis i) as [r |] eqn:Hredis; [| discriminate].
  destruct (kafka i) as [k |] eqn:Hkafka; [| discriminate].
  injection Hbuild as <-.
  specialize (Hr r eq_refl).
  assert (maxAgentsPerWorkspace
            (default (limitsOf emptyLimits) (b_limits (configure calls))) <> 0%Z) as Hagents.
  { destruct (b_limits (configure calls)) as [l |]; cbn; [now apply Hl | discriminate]. }
  assert (Qeq_bool (majorityThreshold
                      (default (consensusOf emptyConsensus) (b_consensus (configure calls))))
            0 = false) as Hthreshold.
  { destruct (b_consensus (configure calls)) as [c |]; cbn; [now apply Hc | reflexivity]. }
  assert (workspaceRoot
            match b_storage (configure calls) with
            | Some s => if String.eqb (workspaceRoot s) ""
                        then storageOf "./workspace" None None else s
            | None => storageOf "./workspace" None None
            end <> "") as Hroot.
  { destruct (b_storage (configure calls)) as [s |]; [| discriminate].
    destruct (String.eqb (workspaceRoot s) "") eqn:E;
      [discriminate | now apply String.eqb_neq]. }
  exists r, k. cbn [infrastructure storage limits consensus].
  repeat split; auto.
  - intros H. apply Qeq_bool_iff in H. congruence.
  - unfold validate. cbn [infrastructure storage limits consensus].
    rewrite Hredis, Hkafka.
    apply String.eqb_neq in Hr, Hroot. rewrite Hr, Hroot, Hthreshold.
    cbn [ifTrue negb andb app]. rewrite List.app_nil_r.
    do 3 f_equal.
    match goal with |- ifTrue ?a _ = ifTrue ?b _ => replace a with b; [reflexivity |] end.
    destruct (Z.ltb_spec (maxAgentsPerWorkspace
                (default (limitsOf emptyLimits) (b_limits (configure calls)))) 0),
             (Z.ltb_spec (maxAgentsPerWorkspace
                (default (limitsOf emptyLimits) (b_limits (configure calls)))) 1);
      auto; lia.
Qed.

Lemma sections_call (b : Builder) (c : Call) :
  present (b_infrastructure (call b c))
    = (isWithRedis c || isWithKafka c || isWithInfrastructureDefaults c
       || present (b_infrastructure b)) /\
  present (redisOf (call b c)) = (isWithRedis c || present (redisOf b)) /\
  present (kafkaOf (call b c)) = (isWithKafka c || present (kafkaOf b)) /\
  present (reconnectAttemptsOf (call b c))
    = (isWithInfrastructureDefaults c || present (reconnectAttemptsOf b)).
Proof.
  unfold redisOf, kafkaOf, reconnectAttemptsOf.
  destruct c; cbn; destruct (b_infrastructure b); cbn; auto.
Qed.

Lemma sections_configure (calls : list Call) :
  let b := configure calls in
  present (b_infrastructure b)
    = (existsb isWithRedis calls || existsb isWithKafka calls
       || existsb isWithInfrastructureDefaults calls) /\
  present (redisOf b) = existsb isWithRedis calls /\
  present (kafkaOf b) = existsb isWithKafka calls /\
  present (reconnectAttemptsOf b) = existsb isWithInfrastructureDefaults calls.
Proof.
  induction calls as [| c calls IH] using rev_ind.
  - cbn. auto.
  - rewrite configure_snoc, !existsb_app. cbn [existsb]. rewrite !orb_false_r.
    cbn zeta in IH. destruct IH as (Hi & Hr & Hk & Hd).
    destruct (sections_call (configure calls) c) as (Ci & Cr & Ck & Cd).
    rewrite Ci, Cr, Ck, Cd, Hi, Hr, Hk, Hd.
    destruct (isWithRedis c), (isWithKafka c), (isWithInfrastructureDefaults c),
             (existsb isWithRedis calls), (existsb isWithKafka calls),
             (existsb isWithInfrastructureDefaults calls); auto.
Qed.

(** X24. [build()] returns a configuration exactly when the chain of calls
    contains [withRedis] and [withKafka]. Otherwise it throws: the
    infrastructure message when none of the three infrastructure methods was
    called, else the fast-store message when [withRedis] is missing, else
    the durable-store message. The configuration returned has the supervisor
    settings ([reconnectAttempts] and the like) exactly when
    [withInfrastructureDefaults] was called: [build()] does not default
    them. *)
Theorem build_requires_both_stores (calls : list Call) :
  match build (configure calls) with
  | inr config =>
      existsb isWithRedis calls = true /\
      existsb isWithKafka calls = true /\
      present (reconnectAttempts (infrastructure config))
        = existsb isWithInfrastructureDefaults calls
  | inl message =>
      existsb isWithRedis calls && existsb isWithKafka calls = false /\
      message =
        if negb (existsb isWithRedis calls || existsb isWithKafka calls
                 || existsb isWithInfrastructureDefaults calls)
        then "Infrastructure configuration is required"
        else if negb (existsb isWithRedis calls) then "Redis configuration is required"
        else "Kafka configuration is required"
  end.
Proof.
  destruct (sections_configure calls) as (Hi & Hr & Hk & Hd). cbn zeta in *.
  rewrite <- Hi, <- Hr, <- Hk, <- Hd.
  unfold build, redisOf, kafkaOf, reconnectAttemptsOf.
  destruct (b_infrastructure (configure calls)) as [i |]; [| cbn; auto].
  destruct (redis i) as [r |]; [| cbn; auto].
  destruct (kafka i) as [k |]; cbn; auto.
Qed.

(** *** The laws at a concrete configuration *)

(** The local development preset passes validation. *)
Lemma built_configuration_errors_witness :
  exists config,
    localDevelopment 0 = inr config /\ validate config = Some [].
Proof.
  eexists. split; [vm_compute; reflexivity |].
  match goal with
  | |- validate ?config = _ =>
      destruct (built_configuration_errors (localDevelopmentCalls 0) config
                  ltac:(vm_compute; reflexivity))
        as (r & k & _ & Hk & _ & _ & _ & _ & H)
  end.
  rewrite H. vm_compute in Hk. injection Hk as <-. vm_compute. reflexivity.
Defined.

End ConfigLaws.

(** ** The tally and the order of the votes *)

Module TallyLaws.
Import Consensus ConsensusLaws.

Lemma count_Permutation (v : Vote) (vs vs' : Votes) :
  Permutation vs vs' -> count v vs = count v vs'.
Proof.
  intros H. induction H as [| e l l' H IH | e1 e2 l | l1 l2 l3 H12 IH12 H23 IH23].
  - reflexivity.
  - now rewrite !count_cons, IH.
  - rewrite !count_cons. lia.
  - congruence.
Qed.

(** X26. The result and the confidence of [calculateConsensus] do not
    depend on the order of the entries of the vote map. *)
Theorem outcome_ignores_vote_order (idPrefix : string) (now : Z) (vs vs' : Votes) :
  Permutation vs vs' ->
  result (calculateConsensus idPrefix now vs') = result (calculateConsensus idPrefix now vs) /\
  confidence (calculateConsensus idPrefix now vs')
    = confidence (calculateConsensus idPrefix now vs).
Proof.
  intros Hperm.
  pose proof (calculateConsensus_cases idPrefix now vs) as H.
  pose proof (calculateConsensus_cases idPrefix now vs') as H'.
  cbv zeta in H, H'.
  rewrite <- (Permutation_length Hperm) in H'.
  rewrite <- !(count_Permutation _ _ _ Hperm) in H'.
  destruct H as [(H1 & H2 & H3) | [(H0 & H1 & H2 & H3) | (H0 & H1 & H2 & H3)]];
    destruct H' as [(G1 & G2 & G3) | [(G0 & G1 & G2 & G3) | (G0 & G1 & G2 & G3)]];
    try lia; split; congruence.
Qed.

(** Three votes, in both orders. *)
Lemma outcome_ignores_vote_order_witness :
  let forward :=
    [("a1", Build_VoteEntry agree "yes"); ("a2", Build_VoteEntry disagree "no");
     ("a3", Build_VoteEntry agree "yes")] in
  let backward :=
    [("a3", Build_VoteEntry agree "yes"); ("a2", Build_VoteEntry disagree "no");
     ("a1", Build_VoteEntry agree "yes")] in
  result (calculateConsensus "consensus_" 0 backward)
    = result (calculateConsensus "consensus_" 0 forward).
Proof.
  intros forward backward.
  destruct (outcome_ignores_vote_order "consensus_" 0 forward backward
              ltac:(subst forward backward;
                    change (Permutation (rev [("a3", Build_VoteEntry agree "yes");
                                              ("a2", Build_VoteEntry disagree "no");
                                              ("a1", Build_VoteEntry agree "yes")])
                              [("a3", Build_VoteEntry agree "yes");
                               ("a2", Build_VoteEntry disagree "no");
                               ("a1", Build_VoteEntry agree "yes")]);
                    symmetry; apply Permutation_rev))
    as [H _].
  exact H.
Defined.

End TallyLaws.
